(** * Donation-form OCR pipeline: card utilities, preprocessing, detection
    confidence and field extraction.

  A shallow embedding of the pure and the collaborator-driven parts of
  [src/lib/utils/payment-detection.ts] and
  [src/lib/backend/pipeline/detector.ts], with the properties stated in the
  specification proved (or refuted) about it.

  Conventions.
  - A JavaScript string is a [list ascii].  The texts the functions below
    receive are card numbers and recognised text restricted to the engine's
    character whitelist (digits, ASCII letters and [.,@()-/:$ ]), so the
    8-bit view is exact; a character outside ASCII is carried as its UTF-8
    bytes, which are neither digits, ASCII whitespace nor ASCII letters.
  - A JavaScript number that only ever holds a small integer is a [Z]; a
    confidence score is a [Q] (exact rational arithmetic).
  - A call that may throw returns an [option] or a [sum]. *)

From Stdlib Require Import Ascii String List ZArith NArith Bool Lia.
From Stdlib Require Import QArith Qminmax Qabs.
From Stdlib Require DecimalString.
Import ListNotations.
Close Scope Q_scope.

(* ===================================================================== *)
(** ** JavaScript string primitives *)
(* ===================================================================== *)

Module Js.

Abbreviation str := (list ascii).

Definition lit (s : string) : list ascii := list_ascii_of_string s.

Definition code (c : ascii) : N := N_of_ascii c.

(** [\d] *)
Definition isDigit (c : ascii) : bool :=
  ((48 <=? code c) && (code c <=? 57))%N.

(** [\s], restricted to the ASCII range: TAB, LF, VT, FF, CR, SPACE. *)
Definition isSpace (c : ascii) : bool :=
  ((9 <=? code c) && (code c <=? 13) || (code c =? 32))%N.

(** The characters [.] refuses (ASCII range): LF and CR. *)
Definition isLineTerminator (c : ascii) : bool :=
  ((code c =? 10) || (code c =? 13))%N.

Definition isUpper (c : ascii) : bool :=
  ((65 <=? code c) && (code c <=? 90))%N.

Definition lowerChar (c : ascii) : ascii :=
  if isUpper c then ascii_of_N (code c + 32) else c.

(** [s.toLowerCase()] *)
Definition toLowerCase (s : str) : str := map lowerChar s.

Definition eqc (a b : ascii) : bool := Ascii.eqb a b.

Fixpoint streq (a b : str) : bool :=
  match a, b with
  | [], [] => true
  | x :: a', y :: b' => eqc x y && streq a' b'
  | _, _ => false
  end.

(** [s.startsWith(p)] *)
Fixpoint startsWith (s p : str) : bool :=
  match p with
  | [] => true
  | c :: p' =>
      match s with
      | [] => false
      | d :: s' => eqc c d && startsWith s' p'
      end
  end.

(** [s.includes(p)] *)
Fixpoint includes (s p : str) : bool :=
  startsWith s p ||
  match s with
  | [] => false
  | _ :: s' => includes s' p
  end.

(** [s.replace(/\D/g, '')] *)
Definition stripNonDigits (s : str) : str := filter isDigit s.

(** [parseInt(c)] for a single decimal digit [c]. *)
Definition digitValue (c : ascii) : Z := Z.of_N (code c) - 48.

(** [parseInt(s)] for a string of decimal digits. *)
Definition parseDigits (s : str) : Z :=
  fold_left (fun acc c => (10 * acc + digitValue c)%Z) s 0%Z.

(** [s.slice(a, b)] for [0 <= a] and [0 <= b]; empty when [b <= a]. *)
Definition slice (a b : nat) (s : str) : str := firstn (b - a) (skipn a s).

(** [s.slice(a)] for [0 <= a]. *)
Definition sliceFrom (a : nat) (s : str) : str := skipn a s.

(** [s.slice(-n)]: the last [n] characters; [-0] is [0], so [n = 0] gives
    the whole string. *)
Definition sliceLast (n : nat) (s : str) : str :=
  match n with
  | O => s
  | _ => skipn (length s - n) s
  end.

(** [c.repeat(n)] *)
Definition repeatChar (c : ascii) (n : nat) : str := repeat c n.

Fixpoint dropWhile (p : ascii -> bool) (s : str) : str :=
  match s with
  | [] => []
  | c :: s' => if p c then dropWhile p s' else s
  end.

Fixpoint takeWhile (p : ascii -> bool) (s : str) : str :=
  match s with
  | [] => []
  | c :: s' => if p c then c :: takeWhile p s' else []
  end.

(** [s.trim()] *)
Definition trim (s : str) : str :=
  rev (dropWhile isSpace (rev (dropWhile isSpace s))).

(** [s.padStart(2, '0')] *)
Definition padStart2 (s : str) : str :=
  repeatChar "0"%char (2 - length s) ++ s.

End Js.

Coercion Js.lit : string >-> list.

(* ===================================================================== *)
(** ** Card utilities ([CARD_TYPES], [detectCardType], [validateCardNumber],
     [formatCardNumber], [maskCardNumber]) *)
(* ===================================================================== *)

Module Cards.
Import Js.

(** A character class: a union of ranges [lo-hi]. *)
Definition charClass := list (ascii * ascii).

Definition inClass (k : charClass) (c : ascii) : bool :=
  existsb (fun r => ((code (fst r) <=? code c) && (code c <=? code (snd r)))%N) k.

(** An anchored pattern [/^(alt1|alt2|...)/]: each alternative is a
    sequence of character classes. *)
Definition pattern := list (list charClass).

Fixpoint matchSeq (ks : list charClass) (s : str) : bool :=
  match ks with
  | [] => true
  | k :: ks' =>
      match s with
      | [] => false
      | c :: s' => inClass k c && matchSeq ks' s'
      end
  end.

(** [pattern.test(s)] *)
Definition test (p : pattern) (s : str) : bool :=
  existsb (fun alt => matchSeq alt s) p.

Definition ch (c : ascii) : charClass := [(c, c)].
Definition rg (a b : ascii) : charClass := [(a, b)].
Definition oneOf (a b : ascii) : charClass := [(a, a); (b, b)].

Record CardCode := { codeName : str; codeSize : nat }.

Record CardType := {
  name : str;
  cardPattern : pattern;
  gaps : list nat;
  lengths : list nat;
  cardCode : CardCode
}.

Local Open Scope char_scope.

(** The table, in the insertion order [Object.entries] enumerates. *)
Definition CARD_TYPES : list (str * CardType) :=
  [ ("visa"%string : list ascii,
     {| name := "Visa"%string;
        cardPattern := [[ch "4"]];
        gaps := [4; 8; 12]%nat;
        lengths := [13; 16; 19]%nat;
        cardCode := {| codeName := "CVV"%string; codeSize := 3 |} |});
    ("mastercard"%string : list ascii,
     {| name := "Mastercard"%string;
        cardPattern := [[ch "5"; rg "1" "5"]; [ch "2"; rg "2" "7"]];
        gaps := [4; 8; 12]%nat;
        lengths := [16]%nat;
        cardCode := {| codeName := "CVC"%string; codeSize := 3 |} |});
    ("amex"%string : list ascii,
     {| name := "American Express"%string;
        cardPattern := [[ch "3"; oneOf "4" "7"]];
        gaps := [4; 10]%nat;
        lengths := [15]%nat;
        cardCode := {| codeName := "CID"%string; codeSize := 4 |} |});
    ("discover"%string : list ascii,
     {| name := "Discover"%string;
        cardPattern := [[ch "6"; ch "0"; ch "1"; ch "1"];
                        [ch "6"; ch "5"];
                        [ch "6"; ch "4"; rg "4" "9"];
                        [ch "6"; ch "2"; ch "2"]];
        gaps := [4; 8; 12]%nat;
        lengths := [16]%nat;
        cardCode := {| codeName := "CID"%string; codeSize := 3 |} |});
    ("dinersclub"%string : list ascii,
     {| name := "Diners Club"%string;
        cardPattern := [[ch "3"; ch "0"; rg "0" "5"];
                        [ch "3"; ch "6"];
                        [ch "3"; ch "8"]];
        gaps := [4; 10]%nat;
        lengths := [14]%nat;
        cardCode := {| codeName := "CVV"%string; codeSize := 3 |} |});
    ("jcb"%string : list ascii,
     {| name := "JCB"%string;
        cardPattern := [[ch "3"; ch "5"]];
        gaps := [4; 8; 12]%nat;
        lengths := [16]%nat;
        cardCode := {| codeName := "CVV"%string; codeSize := 3 |} |});
    ("unionpay"%string : list ascii,
     {| name := "UnionPay"%string;
        cardPattern := [[ch "6"; ch "2"]];
        gaps := [4; 8; 12]%nat;
        lengths := [16; 17; 18; 19]%nat;
        cardCode := {| codeName := "CVN"%string; codeSize := 3 |} |}) ].

Local Close Scope char_scope.

(** [detectCardType]: the first entry whose pattern matches the cleaned
    number, else ['Unknown']. *)
Definition detectCardType (cardNumber : str) : str :=
  let cleanNumber := stripNonDigits cardNumber in
  match find (fun e => test (cardPattern (snd e)) cleanNumber) CARD_TYPES with
  | Some e => name (snd e)
  | None => "Unknown"%string
  end.

(** One turn of the checksum loop of [validateCardNumber], on the state
    [(sum, isEven)]. *)
Definition luhnStep (st : Z * bool) (c : ascii) : Z * bool :=
  let '(sum, isEven) := st in
  let digit := digitValue c in
  let digit :=
    if isEven
    then (let d2 := (digit * 2)%Z in if (9 <? d2)%Z then (d2 - 9)%Z else d2)
    else digit in
  ((sum + digit)%Z, negb isEven).

(** The loop runs [i] from [length - 1] down to [0]. *)
Definition luhnLoop (cleanNumber : str) : Z :=
  fst (fold_left luhnStep (rev cleanNumber) (0%Z, false)).

Definition validateCardNumber (cardNumber : str) : bool :=
  let cleanNumber := stripNonDigits cardNumber in
  if ((length cleanNumber <? 13) || (19 <? length cleanNumber))%nat
  then false
  else (luhnLoop cleanNumber mod 10 =? 0)%Z.

(** The loop over [gaps] in [formatCardNumber], on [(formatted, lastGap)]. *)
Definition gapStep (cleanNumber : str) (st : str * nat) (gap : nat)
  : str * nat :=
  let '(formatted, lastGap) := st in
  if (gap <? length cleanNumber)%nat
  then (formatted ++ slice lastGap gap cleanNumber ++ " "%string, gap)
  else (formatted, lastGap).

(** [s.replace(/(.{4})/g, '$1 ')] *)
Fixpoint groupsOf4 (s : str) : str :=
  match s with
  | a :: t =>
      match t with
      | b :: c :: d :: rest =>
          if existsb isLineTerminator [a; b; c; d]
          then a :: groupsOf4 t
          else a :: b :: c :: d :: " "%char :: groupsOf4 rest
      | _ => s
      end
  | [] => []
  end.

(** [formatCardNumber(cardNumber, cardType?)]; an absent or empty
    [cardType] is falsy and falls back to [detectCardType]. *)
Definition formatCardNumber (cardNumber : str) (cardType : option str)
  : str :=
  let cleanNumber := stripNonDigits cardNumber in
  let type :=
    match cardType with
    | Some (c :: t) => c :: t
    | _ => detectCardType cleanNumber
    end in
  match find (fun e => streq (name (snd e)) type) CARD_TYPES with
  | Some e =>
      let '(formatted, lastGap) :=
        fold_left (gapStep cleanNumber) (gaps (snd e)) ([], 0%nat) in
      trim (formatted ++ sliceFrom lastGap cleanNumber)
  | None => trim (groupsOf4 cleanNumber)
  end.

(** [maskCardNumber(cardNumber, visibleDigits = 4)] *)
Definition maskCardNumber (cardNumber : str) (visibleDigits : nat) : str :=
  let cleanNumber := stripNonDigits cardNumber in
  if (length cleanNumber <=? visibleDigits)%nat
  then repeatChar "*"%char (length cleanNumber)
  else
    let masked := repeatChar "*"%char (length cleanNumber - visibleDigits) in
    let visible := sliceLast visibleDigits cleanNumber in
    formatCardNumber (masked ++ visible) None.

Definition defaultVisibleDigits : nat := 4.

End Cards.

(* ===================================================================== *)
(** ** The checksum and the visible suffix, as the specification words
     them *)
(* ===================================================================== *)

Module CardsSpec.
Import Js.

(** A doubled digit above 9 loses 9. *)
Definition doubled (d : Z) : Z :=
  if (9 <? 2 * d)%Z then (2 * d - 9)%Z else (2 * d)%Z.

(** The contribution of the digit [d] standing [k] places from the right
    (the rightmost digit has [k = 0]): every second digit is doubled. *)
Definition luhnTerm (k : nat) (d : Z) : Z :=
  if Nat.odd k then doubled d else d.

Fixpoint luhnSumFrom (k : nat) (fromRight : list Z) : Z :=
  match fromRight with
  | [] => 0%Z
  | d :: r => (luhnTerm k d + luhnSumFrom (S k) r)%Z
  end.

Definition luhnChecksum (digits : str) : Z :=
  luhnSumFrom 0 (rev (map digitValue digits)).

(** The part of a masked string after its last asterisk. *)
Definition visibleSuffix (s : str) : str :=
  rev (takeWhile (fun c => negb (eqc c "*"%char)) (rev s)).

(** The last [n] characters of [s]. *)
Definition lastDigits (n : nat) (s : str) : str :=
  skipn (length s - n) s.

(** The gaps of an entry increase from [lo] on. *)
Fixpoint increasingFrom (lo : nat) (gs : list nat) : Prop :=
  match gs with
  | [] => True
  | g :: r => lo <= g /\ increasingFrom g r
  end.

End CardsSpec.

(* ===================================================================== *)
(** ** Extractor: the text rules of [payment-detection.ts] *)
(* ===================================================================== *)

Module Extractor.
Import Js.

(** *** Small scanners for the regular expressions *)

(** Greedy [\d{1,n}]: the digits taken (at most [n]) and the rest. *)
Fixpoint takeDigits (n : nat) (s : str) : str * str :=
  match n, s with
  | S n', c :: s' =>
      if isDigit c
      then let '(ds, r) := takeDigits n' s' in (c :: ds, r)
      else ([], s)
  | _, _ => ([], s)
  end.

(** [\d{n}]: exactly [n] digits, or no match. *)
Definition exactDigits (n : nat) (s : str) : option (str * str) :=
  let '(ds, r) := takeDigits n s in
  if (length ds =? n)%nat then Some (ds, r) else None.

(** *** [extractAmount] *)

(** Greedy [(?:,\d{3})*]: the text taken and the rest. *)
Fixpoint commaGroups (s : str) : str * str :=
  match s with
  | k :: a :: b :: c :: rest =>
      if eqc k ","%char && isDigit a && isDigit b && isDigit c
      then let '(m, r) := commaGroups rest in (k :: a :: b :: c :: m, r)
      else ([], s)
  | _ => ([], s)
  end.

(** One attempt of the amount pattern at the head of [s]: a dollar sign,
    then the group made of [\d{1,3}] and [(?:,\d{3})*].  The result is the
    matched text. *)
Definition amountAt (s : str) : option str :=
  match s with
  | d :: s' =>
      if eqc d "$"%char
      then
        let '(ds, r) := takeDigits 3 s' in
        match ds with
        | [] => None
        | _ => let '(gs, _) := commaGroups r in Some (d :: ds ++ gs)
        end
      else None
  | [] => None
  end.

(** [text.match(pattern)] with the [g] flag: every match from left to
    right, the search resuming after each match ([skip] counts the
    characters of the last match still to pass). *)
Fixpoint amountScan (s : str) (skip : nat) : list str :=
  match s with
  | [] => []
  | _ :: s' =>
      match skip with
      | S k => amountScan s' k
      | O =>
          match amountAt s with
          | Some m => m :: amountScan s' (length m - 1)
          | None => amountScan s' 0
          end
      end
  end.

Definition amountMatches (text : str) : list str := amountScan text 0.

(** [parseInt(match.replace(/[\$,]/g, ''))]; what is left is a string of
    digits.  [parseInt] rounds a value above 2^53, which leaves it above
    the band either way. *)
Definition amountValue (m : str) : Z :=
  parseDigits
    (filter (fun c => negb (eqc c "$"%char || eqc c ","%char)) m).

Definition inBand (amt : Z) : bool := ((25 <=? amt) && (amt <=? 25000))%Z.

(** [extractAmount]: [amounts.find(inBand) || 0], and [0] when the text has
    no match at all. *)
Definition extractAmount (text : str) : Z :=
  match amountMatches text with
  | [] => 0%Z
  | amountMatches =>
      let amounts := map amountValue amountMatches in
      match find inBand amounts with
      | Some donationAmount =>
          if (donationAmount =? 0)%Z then 0%Z else donationAmount
      | None => 0%Z
      end
  end.

(** *** [extractDate] *)

(** [[:\s]] *)
Definition isColonOrSpace (c : ascii) : bool := eqc c ":"%char || isSpace c.

(** [[\/\-]] *)
Definition isDateSep (c : ascii) : bool := eqc c "/"%char || eqc c "-"%char.

(** One or two digits followed by a separator: the digits and what follows
    the separator. *)
Definition dateComponent (s : str) : option (str * str) :=
  let '(ds, r) := takeDigits 2 s in
  match ds, r with
  | _ :: _, sep :: r' => if isDateSep sep then Some (ds, r') else None
  | _, _ => None
  end.

(** One attempt of [/Date[:\s]*(\d{1,2})[\/\-](\d{1,2})[\/\-](\d{4})/i] at
    the head of [s]: the three groups. *)
Definition dateAt (s : str) : option (str * str * str) :=
  if startsWith (toLowerCase (firstn 4 s)) "date"%string
  then
    match dateComponent (dropWhile isColonOrSpace (skipn 4 s)) with
    | Some (g1, r1) =>
        match dateComponent r1 with
        | Some (g2, r2) =>
            match exactDigits 4 r2 with
            | Some (g3, _) => Some (g1, g2, g3)
            | None => None
            end
        | None => None
        end
    | None => None
    end
  else None.

(** [text.match(...)] without the [g] flag: the leftmost match. *)
Fixpoint dateMatch (s : str) : option (str * str * str) :=
  match dateAt s with
  | Some g => Some g
  | None =>
      match s with
      | [] => None
      | _ :: s' => dateMatch s'
      end
  end.

(** [extractDate]; [None] is [null]. *)
Definition extractDate (text : str) : option str :=
  match dateMatch text with
  | Some (g1, g2, g3) =>
      let day := padStart2 g1 in
      let month := padStart2 g2 in
      let year := g3 in
      Some (year ++ "-"%string ++ month ++ "-"%string ++ day)
  | None => None
  end.

(** *** [detectCreditCardType] *)

Record CardTypeDetection := { cardType : str; confidence : Q }.

(** [\d{4}\s*\d{4}\s*\d{4}\s*\d{4}]: the matched text. *)
Definition spacedCardAt (s : str) : option str :=
  match exactDigits 4 s with
  | Some (a, r1) =>
      let w1 := takeWhile isSpace r1 in
      match exactDigits 4 (dropWhile isSpace r1) with
      | Some (b, r2) =>
          let w2 := takeWhile isSpace r2 in
          match exactDigits 4 (dropWhile isSpace r2) with
          | Some (c, r3) =>
              let w3 := takeWhile isSpace r3 in
              match exactDigits 4 (dropWhile isSpace r3) with
              | Some (d, _) => Some (a ++ w1 ++ b ++ w2 ++ c ++ w3 ++ d)
              | None => None
              end
          | None => None
          end
      | None => None
      end
  | None => None
  end.

(** One attempt of [/(\d{4}\s*\d{4}\s*\d{4}\s*\d{4}|\d{16})/]: the first
    alternative, then the second. *)
Definition cardNumberAt (s : str) : option str :=
  match spacedCardAt s with
  | Some m => Some m
  | None =>
      match exactDigits 16 s with
      | Some (m, _) => Some m
      | None => None
      end
  end.

Fixpoint cardNumberScan (s : str) (skip : nat) : list str :=
  match s with
  | [] => []
  | _ :: s' =>
      match skip with
      | S k => cardNumberScan s' k
      | O =>
          match cardNumberAt s with
          | Some m => m :: cardNumberScan s' (length m - 1)
          | None => cardNumberScan s' 0
          end
      end
  end.

(** [ocrText.match(/(...)/g)] *)
Definition cardNumberMatches (text : str) : list str :=
  cardNumberScan text 0.

(** The body of the loop over the matched numbers: the brand decided by
    the leading digits, if any. *)
Definition brandOfNumber (cardNumber : str) : option CardTypeDetection :=
  let cleanNumber := filter (fun c => negb (isSpace c)) cardNumber in
  let first4 := parseDigits (slice 0 4 cleanNumber) in
  if startsWith cleanNumber "4"%string
  then Some {| cardType := "Visa"%string; confidence := 8 # 10 |}
  else if startsWith cleanNumber "5"%string
          || (startsWith cleanNumber "2"%string
              && (2221 <=? first4)%Z && (first4 <=? 2720)%Z)
  then Some {| cardType := "Mastercard"%string; confidence := 8 # 10 |}
  else if startsWith cleanNumber "34"%string
          || startsWith cleanNumber "37"%string
  then Some {| cardType := "American Express"%string; confidence := 8 # 10 |}
  else if startsWith cleanNumber "6"%string
  then Some {| cardType := "Discover"%string; confidence := 8 # 10 |}
  else None.

Fixpoint firstBrand (numbers : list str) : option CardTypeDetection :=
  match numbers with
  | [] => None
  | n :: rest =>
      match brandOfNumber n with
      | Some r => Some r
      | None => firstBrand rest
      end
  end.

(** The explicit mentions of a card brand, looked for first. *)
Definition keywordBrand (lowerText : str) : option CardTypeDetection :=
  if (includes lowerText "visa"%string
      || includes lowerText "✓visa"%string
      || includes lowerText "xvisa"%string)
     && negb (includes lowerText "discover"%string)
  then Some {| cardType := "Visa"%string; confidence := 9 # 10 |}
  else if includes lowerText "master"%string
          || includes lowerText "m/c"%string
          || includes lowerText "✓m/c"%string
  then Some {| cardType := "Mastercard"%string; confidence := 9 # 10 |}
  else if includes lowerText "american express"%string
          || includes lowerText "amex"%string
          || includes lowerText "am exp"%string
          || includes lowerText "am/exp"%string
          || includes lowerText "✓am/exp"%string
  then Some {| cardType := "American Express"%string; confidence := 9 # 10 |}
  else if includes lowerText "discover"%string
          || includes lowerText "disc"%string
          || includes lowerText "✓disc"%string
  then Some {| cardType := "Discover"%string; confidence := 9 # 10 |}
  else None.

Definition detectCreditCardType (ocrText : str) : CardTypeDetection :=
  let lowerText := toLowerCase ocrText in
  match keywordBrand lowerText with
  | Some r => r
  | None =>
      match firstBrand (cardNumberMatches ocrText) with
      | Some r => r
      | None => {| cardType := []; confidence := 0 |}
      end
  end.

(** *** Data model *)

Definition Buffer := list N.

Inductive FieldType :=
| text_field | checkbox | signature_area | amount_field | date_field.

Definition fieldTypeName (t : FieldType) : str :=
  match t with
  | text_field => "text_field"%string
  | checkbox => "checkbox"%string
  | signature_area => "signature_area"%string
  | amount_field => "amount_field"%string
  | date_field => "date_field"%string
  end.

Record BoundingBox := { x : Z; y : Z; width : Z; height : Z }.

Record FieldSegment := {
  fieldId : str;
  fieldType : FieldType;
  label : str;
  boundingBox : BoundingBox;
  imageSegment : Buffer;
  segmentConfidence : Q;
  preprocessed : bool
}.

Record SegmentedForm := {
  formId : str;
  pageNumber : nat;
  formConfidence : Q;
  fieldSegments : list FieldSegment
}.

Record PaymentDetails := {
  detailsCardType : str;
  cardNumber : str;
  expiryDate : str;
  cvv : str;
  cardholderName : str
}.

Record Fields := {
  donorName : str;
  email : str;
  phone : str;
  address : str;
  amount : Z;
  paymentMethod : str;
  paymentDetails : PaymentDetails;
  date : str;
  recurring : bool;
  anonymous : bool
}.

Record ExtractedFormData := {
  formNumber : nat;
  recordConfidence : Q;
  fields : Fields;
  issues : list str
}.

Definition emptyDetails : PaymentDetails :=
  {| detailsCardType := []; cardNumber := []; expiryDate := []; cvv := [];
     cardholderName := [] |}.

(** The field bag both extraction paths start from. *)
Definition emptyFields : Fields :=
  {| donorName := []; email := []; phone := []; address := [];
     amount := 0%Z; paymentMethod := []; paymentDetails := emptyDetails;
     date := []; recurring := false; anonymous := false |}.

Definition setDonorName v (f : Fields) : Fields :=
  {| donorName := v; email := email f; phone := phone f;
     address := address f; amount := amount f;
     paymentMethod := paymentMethod f; paymentDetails := paymentDetails f;
     date := date f; recurring := recurring f; anonymous := anonymous f |}.

Definition setEmail v (f : Fields) : Fields :=
  {| donorName := donorName f; email := v; phone := phone f;
     address := address f; amount := amount f;
     paymentMethod := paymentMethod f; paymentDetails := paymentDetails f;
     date := date f; recurring := recurring f; anonymous := anonymous f |}.

Definition setPhone v (f : Fields) : Fields :=
  {| donorName := donorName f; email := email f; phone := v;
     address := address f; amount := amount f;
     paymentMethod := paymentMethod f; paymentDetails := paymentDetails f;
     date := date f; recurring := recurring f; anonymous := anonymous f |}.

Definition setAddress v (f : Fields) : Fields :=
  {| donorName := donorName f; email := email f; phone := phone f;
     address := v; amount := amount f;
     paymentMethod := paymentMethod f; paymentDetails := paymentDetails f;
     date := date f; recurring := recurring f; anonymous := anonymous f |}.

Definition setAmount v (f : Fields) : Fields :=
  {| donorName := donorName f; email := email f; phone := phone f;
     address := address f; amount := v;
     paymentMethod := paymentMethod f; paymentDetails := paymentDetails f;
     date := date f; recurring := recurring f; anonymous := anonymous f |}.

Definition setDate v (f : Fields) : Fields :=
  {| donorName := donorName f; email := email f; phone := phone f;
     address := address f; amount := amount f;
     paymentMethod := paymentMethod f; paymentDetails := paymentDetails f;
     date := v; recurring := recurring f; anonymous := anonymous f |}.

Definition setRecurring v (f : Fields) : Fields :=
  {| donorName := donorName f; email := email f; phone := phone f;
     address := address f; amount := amount f;
     paymentMethod := paymentMethod f; paymentDetails := paymentDetails f;
     date := date f; recurring := v; anonymous := anonymous f |}.

Definition setCardholderName v (f : Fields) : Fields :=
  let d := paymentDetails f in
  {| donorName := donorName f; email := email f; phone := phone f;
     address := address f; amount := amount f;
     paymentMethod := paymentMethod f;
     paymentDetails :=
       {| detailsCardType := detailsCardType d; cardNumber := cardNumber d;
          expiryDate := expiryDate d; cvv := cvv d; cardholderName := v |};
     date := date f; recurring := recurring f; anonymous := anonymous f |}.

(** *** [isValidEmail] *)

(** [[^\s@]] *)
Definition notSpaceNorAt (c : ascii) : bool :=
  negb (isSpace c || eqc c "@"%char).

(** [/^[^\s@]+@[^\s@]+\.[^\s@]+$/]: a non-empty local part without space
    or [@], one [@], and a rest without space or [@] that has a dot with at
    least one character on each side. *)
Definition isValidEmail (email : str) : bool :=
  let localPart := takeWhile notSpaceNorAt email in
  match localPart, dropWhile notSpaceNorAt email with
  | _ :: _, a :: domain =>
      eqc a "@"%char
      && forallb notSpaceNorAt domain
      && match domain with
         | _ :: tail => existsb (fun c => eqc c "."%char) (removelast tail)
         | [] => false
         end
  | _, _ => false
  end.

(** *** [processFieldSegment] *)

(** The routing of one recognised text by field type; the two mutated
    arguments are returned. *)
Definition processFieldSegment
    (segment : FieldSegment) (text : str)
    (fields : Fields) (issues : list str) : Fields * list str :=
  match fieldType segment with
  | text_field =>
      let id := toLowerCase (fieldId segment) in
      if includes id "name"%string then (setDonorName text fields, issues)
      else if includes id "email"%string then
        (setEmail text fields,
         if negb (isValidEmail text)
         then issues ++ [Js.lit "Email format appears incorrect"]
         else issues)
      else if includes id "phone"%string then (setPhone text fields, issues)
      else if includes id "address"%string
      then (setAddress text fields, issues)
      else (fields, issues)
  | amount_field =>
      let amount := extractAmount text in
      if (0 <? amount)%Z
      then (setAmount amount fields, issues)
      else (fields, issues)
  | date_field =>
      match extractDate text with
      | Some (c :: d) => (setDate (c :: d) fields, issues)
      | _ => (fields, issues)
      end
  | checkbox =>
      if includes (toLowerCase text) "monthly"%string
         || includes (toLowerCase text) "recurring"%string
      then (setRecurring true fields, issues)
      else (fields, issues)
  | signature_area =>
      match trim text with
      | _ :: _ => (setCardholderName text fields, issues)
      | [] => (fields, issues)
      end
  end.

(** *** [validateExtractedData] *)

(** The issues appended for a field bag and a confidence on the engine's
    0-100 scale. *)
Definition validateExtractedData
    (fields : Fields) (issues : list str) (confidence : Q) : list str :=
  let issues :=
    if (length (donorName fields) <? 2)%nat
    then issues ++ [Js.lit "Donor name could not be extracted clearly"]
    else issues in
  let issues :=
    match email fields with
    | _ :: _ =>
        if negb (isValidEmail (email fields))
        then issues ++ [Js.lit "Email format appears incorrect"]
        else issues
    | [] => issues
    end in
  let issues :=
    match phone fields with
    | [] => issues ++ [Js.lit "Phone number could not be extracted"]
    | _ => issues
    end in
  let issues :=
    if (amount fields <=? 0)%Z
    then issues ++ [Js.lit "Donation amount could not be determined"]
    else issues in
  if Qlt_le_dec confidence 80
  then issues ++ [Js.lit "OCR confidence is below optimal threshold"]
  else issues.

(** *** The segment path *)

Section WithEngine.

(** The text-recognition collaborator ([performFullImageOCR]): the text
    and the confidence on a 0-100 scale, or [None] when it throws. *)
Variable recognize : Buffer -> option (str * Q).

Record SegmentLoop := {
  loopFields : Fields;
  loopIssues : list str;
  totalConfidence : Q;
  processedSegments : nat
}.

(** One turn of the loop over [form.fieldSegments], with its [try] and
    [catch]. *)
Definition segmentStep (st : SegmentLoop) (segment : FieldSegment)
  : SegmentLoop :=
  match recognize (imageSegment segment) with
  | Some (ocrText, ocrConfidence) =>
      let text := trim ocrText in
      let '(f, i) :=
        processFieldSegment segment text (loopFields st) (loopIssues st) in
      {| loopFields := f; loopIssues := i;
         totalConfidence := (totalConfidence st + ocrConfidence)%Q;
         processedSegments := S (processedSegments st) |}
  | None =>
      {| loopFields := loopFields st;
         loopIssues :=
           loopIssues st
           ++ [Js.lit "Failed to process " ++ fieldTypeName (fieldType segment)
               ++ Js.lit " field: " ++ fieldId segment];
         totalConfidence := totalConfidence st;
         processedSegments := processedSegments st |}
  end.

Definition extractFromFieldSegments (form : SegmentedForm) (formNumber : nat)
  : ExtractedFormData :=
  let st :=
    fold_left segmentStep (fieldSegments form)
      {| loopFields := emptyFields; loopIssues := [];
         totalConfidence := 0; processedSegments := 0 |} in
  let averageConfidence :=
    match processedSegments st with
    | O => 0%Q
    | S _ => (totalConfidence st / inject_Z (Z.of_nat (processedSegments st)))%Q
    end in
  {| formNumber := formNumber;
     recordConfidence := (averageConfidence / 100)%Q;
     fields := loopFields st;
     issues := loopIssues st |}.

(** The record [extractSingleFormData] returns from its [catch]; its
    empty [paymentDetails] object is the record of absent details. *)
Definition failedForm (formNumber : nat) (message : str)
  : ExtractedFormData :=
  {| formNumber := formNumber;
     recordConfidence := 0;
     fields := emptyFields;
     issues := [Js.lit "Failed to process form: " ++ message] |}.

Definition extractSingleFormData (form : SegmentedForm) (formNumber : nat)
  : ExtractedFormData :=
  match fieldSegments form with
  | _ :: _ => extractFromFieldSegments form formNumber
  | [] =>
      failedForm formNumber
        (Js.lit "No field segments available and no full form image provided")
  end.

Fixpoint extractFormsFrom (i : nat) (forms : list SegmentedForm)
  : list ExtractedFormData :=
  match forms with
  | [] => []
  | form :: rest =>
      extractSingleFormData form (i + 1) :: extractFormsFrom (S i) rest
  end.

(** What a [catch] may receive: an [Error] with its message, or a value
    that is not an [Error]. *)
Inductive Thrown :=
| ErrorWith (message : str)
| NotAnError.

(** [error instanceof Error ? error.message : 'Unknown error'] *)
Definition messageOf (error : Thrown) : str :=
  match error with
  | ErrorWith message => message
  | NotAnError => Js.lit "Unknown error"
  end.

(** The environment of a call of [extractFormData]: whether [window] is
    defined, and what its call of [initializeOCREngine] does ([None] when
    it resolves, the value thrown otherwise). *)
Variable windowDefined : bool.
Variable initializeOCREngine : option Thrown.

(** [extractFormData]: the message of the [Error] it throws, or the records
    it returns.  Outside the browser it throws before anything else; a
    failure of the engine's initialisation is caught and thrown again with
    the prefix; the loop itself cannot throw, since [extractSingleFormData]
    catches everything.  (The counters and timings are left out.) *)
Definition extractFormData (segmentedForms : list SegmentedForm)
  : str + list ExtractedFormData :=
  if negb windowDefined then
    inl (Js.lit "OCR extraction only available in browser environment")
  else
    match initializeOCREngine with
    | Some error =>
        inl (Js.lit "Real OCR extraction failed: " ++ messageOf error)
    | None => inr (extractFormsFrom 0 segmentedForms)
    end.

End WithEngine.

End Extractor.

(* ===================================================================== *)
(** ** Extractor: the notions the specification uses *)
(* ===================================================================== *)

Module ExtractorSpec.
Import Js Extractor.

(** The values of the dollar amounts found in a text, from left to
    right. *)
Definition amountValues (text : str) : list Z :=
  map amountValue (amountMatches text).

Definition InBand (v : Z) : Prop := (25 <= v <= 25000)%Z.

(** The number formed by the first [n] digits of [s] lies in [lo, hi]. *)
Definition prefixIn (lo hi : Z) (n : nat) (s : str) : bool :=
  let p := parseDigits (firstn n s) in ((lo <=? p) && (p <=? hi))%Z.

(** The card BIN ranges of the glossary (Visa=4;
    Mastercard=51-55/2221-2720; Amex=34/37; Discover=6011/65/644-649/622),
    the one rule table the two detections are to share; the source has no
    such table of its own. *)
Definition binBrand (s : str) : option str :=
  if prefixIn 4 4 1 s then Some (Js.lit "Visa")
  else if prefixIn 51 55 2 s || prefixIn 2221 2720 4 s
  then Some (Js.lit "Mastercard")
  else if prefixIn 34 34 2 s || prefixIn 37 37 2 s
  then Some (Js.lit "American Express")
  else if prefixIn 6011 6011 4 s || prefixIn 65 65 2 s
          || prefixIn 644 649 3 s || prefixIn 622 622 3 s
  then Some (Js.lit "Discover")
  else None.

(** A string of one or two digits. *)
Definition shortNumber (s : str) : Prop :=
  (1 <= length s <= 2) /\ forallb isDigit s = true.

(** A string of four digits. *)
Definition fourDigits (s : str) : Prop :=
  length s = 4 /\ forallb isDigit s = true.

Definition digitChars : list ascii :=
  ["0"; "1"; "2"; "3"; "4"; "5"; "6"; "7"; "8"; "9"]%char.

(** Every string of four digits. *)
Definition prefixes4 : list str :=
  flat_map (fun a =>
    flat_map (fun b =>
      flat_map (fun c =>
        map (fun d => [a; b; c; d]) digitChars) digitChars) digitChars)
    digitChars.

(** On the four leading digits [p], the shared utility and the Extractor's
    number rule both give the brand of the glossary, when it has one. *)
Definition agreeOn (p : str) : bool :=
  match binBrand p with
  | Some b =>
      streq (Cards.detectCardType p) b
      && match brandOfNumber p with
         | Some r => streq (cardType r) b
         | None => false
         end
  | None => true
  end.

Definition noDigit (s : str) : bool := forallb (fun c => negb (isDigit c)) s.

Definition sampleBox : BoundingBox :=
  {| x := 0; y := 0; width := 200; height := 35 |}.

Definition sampleSegment (id : str) (ty : FieldType) (image : Buffer)
  : FieldSegment :=
  {| fieldId := id; fieldType := ty; label := []; boundingBox := sampleBox;
     imageSegment := image; segmentConfidence := 7 # 10;
     preprocessed := true |}.

(** A form whose only segment is an amount field, and an engine that reads
    "$5" in it with confidence 95. *)
Definition fiveDollarForm : SegmentedForm :=
  {| formId := "form_1_0"%string; pageNumber := 1; formConfidence := 9 # 10;
     fieldSegments :=
       [sampleSegment "form_1_0_amount"%string amount_field [1%N]] |}.

Definition readsFiveDollars (_ : Buffer) : option (str * Q) :=
  Some (Js.lit "$5", 95%Q).

Definition amountIssue : str := "Donation amount could not be determined"%string.
Definition nameIssue : str := "Donor name could not be extracted clearly"%string.
Definition emailIssue : str := "Email format appears incorrect"%string.
Definition phoneIssue : str := "Phone number could not be extracted"%string.
Definition confidenceIssue : str :=
  "OCR confidence is below optimal threshold"%string.

(** *** Dollar amounts, as the specification words them *)







(** *** Labelled dates, as the specification words them *)

(** The text [s] opens with a labelled date whose components are, in the
    order written, [first], [second] and [year]: the word "date" in any
    letter case, any colons and white space, one or two digits, a slash or
    a hyphen, one or two digits, a slash or a hyphen, and four digits. *)
Definition OpensWithDate (s first second year : str) : Prop :=
  exists lbl ws s1 s2 rest,
    s = lbl ++ ws ++ first ++ s1 :: second ++ s2 :: year ++ rest
    /\ toLowerCase lbl = "date"%string
    /\ forallb isColonOrSpace ws = true
    /\ shortNumber first /\ isDateSep s1 = true
    /\ shortNumber second /\ isDateSep s2 = true
    /\ fourDigits year.

(** No labelled date opens anywhere in [before ++ s] at a place inside
    [before]. *)
Definition NoDateOpensIn (before s : str) : Prop :=
  forall p q first second year,
    before = p ++ q -> q <> [] -> ~ OpensWithDate (q ++ s) first second year.

End ExtractorSpec.
(* ===================================================================== *)
(** ** Preprocessor *)
(* ===================================================================== *)

Module Preprocessor.
Import Js.

Definition Buffer := list N.

Record DocumentData := {
  fileName : str;
  fileBuffer : Buffer;
  mimeType : str
}.

Record ProcessedImage := {
  imageBuffer : Buffer;
  width : nat;
  height : nat;
  pageNumber : nat
}.

(** What [processDocument] throws: its [catch] wraps the message of the
    error raised inside, which is either its own "Unsupported file type"
    error or an error of a collaborator. *)
Inductive Cause :=
| UnsupportedFileType (mime : str)
| CollaboratorError.

Inductive PreprocessingError :=
| PreprocessingFailed (cause : Cause).

(** The result of one call of the rasteriser, [convert(pageNumber)]. *)
Inductive ConvertResult :=
| ConvertThrows
| ConvertNoPath
| ConvertPath (path : str).

(** A step that may throw. *)
Definition bind {A B} (m : option A) (k : A -> option B) : option B :=
  match m with
  | Some a => k a
  | None => None
  end.

Notation "x <- m ;; k" := (bind m (fun x => k))
  (at level 61, m at next level, right associativity).

Section WithCollaborators.

(** The image library: decoding ([Jimp.read]), the operations on a decoded
    image and the encoding ([getBuffer('image/png')]); [None] when the call
    throws. *)
Variable Image : Type.
Variable read : Buffer -> option Image.
Variable getBuffer : Image -> option Buffer.
Variable imageWidth imageHeight : Image -> nat.
Variable rotate : Q -> Image -> option Image.
Variable contrast brightness : Q -> Image -> option Image.
Variable blur : nat -> Image -> option Image.
Variable resize : nat -> nat -> Image -> option Image.

(** The rasteriser of [pdf2pic] and the file system. *)
Variable convert : Buffer -> nat -> ConvertResult.
Variable readFile : str -> option Buffer.
Variable unlink : str -> bool.

Definition getImageSize (imageBuffer : Buffer) : option (nat * nat) :=
  image <- read imageBuffer ;;
  Some (imageWidth image, imageHeight image).

Definition skewAngle : Q := 0.

Definition deskewImage (imageBuffer : Buffer) : option Buffer :=
  image <- read imageBuffer ;;
  image <- (if Qlt_le_dec (1 # 2) (Qabs skewAngle)
            then rotate (- skewAngle) image
            else Some image) ;;
  getBuffer image.

Definition optimizeContrast (imageBuffer : Buffer) : option Buffer :=
  image <- read imageBuffer ;;
  image <- contrast (1 # 2) image ;;
  image <- brightness (1 # 10) image ;;
  getBuffer image.

Definition reduceNoise (imageBuffer : Buffer) : option Buffer :=
  image <- read imageBuffer ;;
  image <- blur 1 image ;;
  getBuffer image.

Definition targetWidth : nat := 2480.
Definition targetHeight : nat := 3508.

Definition standardizeResolution (imageBuffer : Buffer) : option Buffer :=
  image <- read imageBuffer ;;
  image <- resize targetWidth targetHeight image ;;
  getBuffer image.

(** The body of the [try] of [enhanceImage]. *)
Definition enhanceSteps (image : ProcessedImage) : option ProcessedImage :=
  let enhancedBuffer := imageBuffer image in
  enhancedBuffer <- deskewImage enhancedBuffer ;;
  enhancedBuffer <- optimizeContrast enhancedBuffer ;;
  enhancedBuffer <- reduceNoise enhancedBuffer ;;
  enhancedBuffer <- standardizeResolution enhancedBuffer ;;
  size <- getImageSize enhancedBuffer ;;
  Some {| imageBuffer := enhancedBuffer;
          width := fst size;
          height := snd size;
          pageNumber := pageNumber image |}.

(** [enhanceImage]: the [catch] returns its argument.  (The counter of
    enhancement operations is left out.) *)
Definition enhanceImage (image : ProcessedImage) : ProcessedImage :=
  match enhanceSteps image with
  | Some enhancedImage => enhancedImage
  | None => image
  end.

Definition processImageBuffer (imageBuffer : Buffer) (pageNumber : nat)
  : option ProcessedImage :=
  size <- getImageSize imageBuffer ;;
  Some {| imageBuffer := imageBuffer; width := fst size; height := snd size;
          pageNumber := pageNumber |}.

(** The [while (true)] loop of [convertPdfToImages]; [None] when [fuel]
    turns were not enough to leave it. *)
Fixpoint convertLoop (fuel : nat) (pdfBuffer : Buffer) (pageNumber : nat)
    (images : list ProcessedImage) : option (list ProcessedImage) :=
  match fuel with
  | O => None
  | S fuel' =>
      match convert pdfBuffer pageNumber with
      | ConvertPath path =>
          match readFile path with
          | Some imageBuffer =>
              match getImageSize imageBuffer with
              | Some size =>
                  let images :=
                    images ++ [{| imageBuffer := imageBuffer;
                                  width := fst size; height := snd size;
                                  pageNumber := pageNumber |}] in
                  if unlink path
                  then convertLoop fuel' pdfBuffer (S pageNumber) images
                  else Some images
              | None => Some images
              end
          | None => Some images
          end
      | ConvertNoPath => Some images
      | ConvertThrows => Some images
      end
  end.

Definition convertPdfToImages (fuel : nat) (pdfBuffer : Buffer)
  : option (list ProcessedImage) :=
  convertLoop fuel pdfBuffer 1 [].

(** [processDocument]: [None] when the page loop did not end within
    [fuel]; otherwise the error thrown or the images returned.  (The
    running totals are left out.) *)
Definition processDocument (fuel : nat) (documentData : DocumentData)
  : option (PreprocessingError + list ProcessedImage) :=
  if streq (mimeType documentData) "application/pdf"%string then
    match convertPdfToImages fuel (fileBuffer documentData) with
    | Some processedImages => Some (inr (map enhanceImage processedImages))
    | None => None
    end
  else if startsWith (mimeType documentData) "image/"%string then
    match processImageBuffer (fileBuffer documentData) 1 with
    | Some processedImage => Some (inr (map enhanceImage [processedImage]))
    | None => Some (inl (PreprocessingFailed CollaboratorError))
    end
  else
    Some (inl (PreprocessingFailed
                 (UnsupportedFileType (mimeType documentData)))).

End WithCollaborators.

(** The message of the error, as the source builds it. *)
Definition message (e : PreprocessingError) (collaboratorMessage : str) : str :=
  match e with
  | PreprocessingFailed (UnsupportedFileType mime) =>
      Js.lit "Preprocessing failed: " ++ Js.lit "Unsupported file type: "
        ++ mime
  | PreprocessingFailed CollaboratorError =>
      Js.lit "Preprocessing failed: " ++ collaboratorMessage
  end.

(** The pages are numbered 1, 2, ... in list order. *)
Definition numbered (images : list ProcessedImage) : Prop :=
  map pageNumber images = seq 1 (length images).

End Preprocessor.

(** Sample collaborators: a toy codec.  A buffer is a format tag (137 for
    PNG, 255 for JPEG), the two dimensions and the pixels; anything else
    does not decode.  Encoding always writes PNG. *)
Module PreprocessorSamples.
Import Js Preprocessor.

Record Bitmap := { pixels : list N; cols : nat; rows : nat }.

Definition decode (b : Buffer) : option Bitmap :=
  match b with
  | tag :: w :: h :: px =>
      if ((tag =? 137) || (tag =? 255))%N
      then Some {| pixels := px; cols := N.to_nat w; rows := N.to_nat h |}
      else None
  | _ => None
  end.

Definition encodePng (img : Bitmap) : option Buffer :=
  Some (137%N :: N.of_nat (cols img) :: N.of_nat (rows img) :: pixels img).

Definition keep {A : Type} (_ : A) (img : Bitmap) : option Bitmap := Some img.

Definition throws {A : Type} (_ : A) (_ : Bitmap) : option Bitmap := None.

Definition resizeTo (w h : nat) (img : Bitmap) : option Bitmap :=
  Some {| pixels := pixels img; cols := w; rows := h |}.

(** A three-page document: the rasteriser writes pages 1 to 3 and fails on
    page 4. *)
Definition threePages (_ : Buffer) (page : nat) : ConvertResult :=
  if (page <=? 3)%nat then ConvertPath ("./temp/page.png"%string)
  else ConvertThrows.

Definition pageFile (_ : str) : option Buffer := Some [137; 2; 1; 7; 9]%N.

Definition unlinkOk (_ : str) : bool := true.

(** [enhanceImage] and [processDocument] with every collaborator
    working. *)
Definition enhanceImageOk : ProcessedImage -> ProcessedImage :=
  enhanceImage Bitmap decode encodePng cols rows keep keep keep keep resizeTo.

Definition processDocumentOk
  : nat -> DocumentData -> option (PreprocessingError + list ProcessedImage) :=
  processDocument Bitmap decode encodePng cols rows keep keep keep keep
    resizeTo threePages pageFile unlinkOk.

(** [enhanceImage] when the contrast operation throws. *)
Definition enhanceImageNoContrast : ProcessedImage -> ProcessedImage :=
  enhanceImage Bitmap decode encodePng cols rows keep throws keep keep resizeTo.

Definition jpegPage : ProcessedImage :=
  {| imageBuffer := [255; 2; 1; 7; 9]%N; width := 2; height := 1;
     pageNumber := 1 |}.

Definition pdfDocument : DocumentData :=
  {| fileName := "forms.pdf"%string; fileBuffer := [37; 80; 68; 70]%N;
     mimeType := "application/pdf"%string |}.

Definition pngDocument : DocumentData :=
  {| fileName := "scan.png"%string; fileBuffer := [137; 2; 1; 7; 9]%N;
     mimeType := "image/png"%string |}.

(** An upload declared as PNG whose content is empty. *)
Definition emptyPngDocument : DocumentData :=
  {| fileName := "scan.png"%string; fileBuffer := [];
     mimeType := "image/png"%string |}.

Definition textDocument : DocumentData :=
  {| fileName := "notes.txt"%string; fileBuffer := [104; 105]%N;
     mimeType := "text/plain"%string |}.

End PreprocessorSamples.

(* ===================================================================== *)
(** ** Detector: form-level confidence *)
(* ===================================================================== *)

Module Detector.
Import Js.

Inductive ElementType :=
| text_field | checkbox | signature_area | amount_field | date_field.

Definition ElementType_eq_dec (a b : ElementType) : {a = b} + {a <> b}.
Proof. decide equality. Defined.

Record BoundingBox := { x : Z; y : Z; width : Z; height : Z }.

Record DetectedElement := {
  type : ElementType;
  boundingBox : BoundingBox;
  confidence : Q;
  label : option str;
  text : option str
}.

(** [e.label?.includes(keyword)]; an absent label gives [undefined], which
    [some] takes as false. *)
Definition labelIncludes (keyword : str) (e : DetectedElement) : bool :=
  match label e with
  | Some l => includes l keyword
  | None => false
  end.

(** [new Set(elements.map(e => e.type)).size] *)
Definition elementTypes (elements : list DetectedElement) : list ElementType :=
  nodup ElementType_eq_dec (map type elements).

Definition calculateFormConfidence (elements : list DetectedElement) : Q :=
  match elements with
  | [] => 0
  | _ =>
      let totalConfidence :=
        fold_left (fun sum element => sum + confidence element) elements 0 in
      let averageConfidence :=
        totalConfidence / inject_Z (Z.of_nat (length elements)) in
      let hasKeyElements :=
        existsb (labelIncludes "name"%string) elements
        && existsb (labelIncludes "amount"%string) elements in
      let averageConfidence :=
        if hasKeyElements
        then Qmin (averageConfidence + (15 # 100)) 1
        else averageConfidence in
      let averageConfidence :=
        if (3 <=? length (elementTypes elements))%nat
        then Qmin (averageConfidence + (1 # 10)) 1
        else averageConfidence in
      averageConfidence
  end%Q.

End Detector.

(** The form-level confidence, as the specification words it. *)
Module DetectorSpec.
Import Js Detector.

Fixpoint sumConfidence (elements : list DetectedElement) : Q :=
  match elements with
  | [] => 0
  | e :: rest => confidence e + sumConfidence rest
  end%Q.

Definition meanConfidence (elements : list DetectedElement) : Q :=
  (sumConfidence elements / inject_Z (Z.of_nat (length elements)))%Q.

(** Some element carries a label that contains [keyword]. *)
Definition SomeLabelContains (keyword : str) (elements : list DetectedElement)
  : Prop :=
  exists e l, In e elements /\ label e = Some l /\ includes l keyword = true.

Definition HasKeyElements (elements : list DetectedElement) : Prop :=
  SomeLabelContains "name"%string elements
  /\ SomeLabelContains "amount"%string elements.

(** The elements span at least three distinct types. *)
Definition ThreeTypes (elements : list DetectedElement) : Prop :=
  exists e1 e2 e3,
    In e1 elements /\ In e2 elements /\ In e3 elements
    /\ type e1 <> type e2 /\ type e1 <> type e3 /\ type e2 <> type e3.

(** A boost of [b], capped at 1. *)
Definition boosted (b c : Q) : Q := Qmin (c + b) 1.

Local Open Scope Q_scope.

Definition element (t : ElementType) (c : Q) (l : option str)
  : DetectedElement :=
  {| type := t;
     boundingBox := {| x := 0; y := 0; width := 100; height := 35 |};
     confidence := c; label := l; text := None |}.

Definition sampleForm : list DetectedElement :=
  [ element text_field (7 # 10) (Some (Js.lit "donor_name"));
    element amount_field (8 # 10) (Some (Js.lit "amount"));
    element checkbox (6 # 10) None ].

Local Close Scope Q_scope.

End DetectorSpec.

(* ===================================================================== *)
(** ** Extractor: payment method and card details
       ([Extractor.extractPaymentInfo]) *)
(* ===================================================================== *)

Module ExtractorPayment.
Import Js Extractor.

(** [text.match(re)] without the [g] flag: the result of the first
    position, from the left, at which one attempt succeeds. *)
Fixpoint firstMatch {A : Type} (attempt : str -> option A) (s : str)
  : option A :=
  match attempt s with
  | Some r => Some r
  | None =>
      match s with
      | [] => None
      | _ :: s' => firstMatch attempt s'
      end
  end.

(** A literal label under the [i] flag ([label] is given in lower case):
    what follows it. *)
Definition labelAt (label : str) (s : str) : option str :=
  if streq (toLowerCase (firstn (length label) s)) label
  then Some (skipn (length label) s)
  else None.

(** An alternation of labels, tried in order. *)
Fixpoint anyLabelAt (labels : list str) (s : str) : option str :=
  match labels with
  | [] => None
  | l :: rest =>
      match labelAt l s with
      | Some r => Some r
      | None => anyLabelAt rest s
      end
  end.

(** Greedy [\d{lo,hi}]. *)
Definition digitsBetween (lo hi : nat) (s : str) : option (str * str) :=
  let '(ds, r) := takeDigits hi s in
  if (lo <=? length ds)%nat then Some (ds, r) else None.

(** [/(?:Account No|Credit Card number)[:\s]*(...16 digits...)/i]: the
    group. *)
Definition cardNumberLabelAt (s : str) : option str :=
  match anyLabelAt [Js.lit "account no"; Js.lit "credit card number"] s with
  | Some r => cardNumberAt (dropWhile isColonOrSpace r)
  | None => None
  end.

(** [/(?:Expires on|Exp date)[:\s]*(\d{1,2})[\/\-](\d{2,4})/i]: the two
    groups. *)
Definition expiryAt (s : str) : option (str * str) :=
  match anyLabelAt [Js.lit "expires on"; Js.lit "exp date"] s with
  | Some r =>
      match dateComponent (dropWhile isColonOrSpace r) with
      | Some (g1, r1) =>
          match digitsBetween 2 4 r1 with
          | Some (g2, _) => Some (g1, g2)
          | None => None
          end
      | None => None
      end
  | None => None
  end.

(** [[:\s#]] *)
Definition isColonSpaceOrHash (c : ascii) : bool :=
  isColonOrSpace c || eqc c "#"%char.

(** [/(?:Card Verification|CVN|CVV|Verification code)[:\s#]*(\d{3,4})/i]:
    the group. *)
Definition cvvAt (s : str) : option str :=
  match anyLabelAt [Js.lit "card verification"; Js.lit "cvn"; Js.lit "cvv";
                    Js.lit "verification code"] s with
  | Some r =>
      match digitsBetween 3 4 (dropWhile isColonSpaceOrHash r) with
      | Some (g, _) => Some g
      | None => None
      end
  | None => None
  end.

Definition isLetter (c : ascii) : bool :=
  isUpper c || ((97 <=? code c) && (code c <=? 122))%N.

(** [[A-Za-z\s]] *)
Definition isLetterOrSpace (c : ascii) : bool := isLetter c || isSpace c.

(** [/Signature[:\s]*([A-Za-z\s]+)/i]: the group.  The separators are taken
    greedily; when a letter follows them the group is the run of letters and
    spaces from there.  Otherwise the separators are given back one by one
    until the group can start on a white-space character of theirs, and the
    group is that single character (a colon or the end follows it); without
    such a character there is no match here. *)
Definition signatureAt (s : str) : option str :=
  match labelAt "signature"%string s with
  | Some r =>
      let separators := takeWhile isColonOrSpace r in
      let rest := dropWhile isColonOrSpace r in
      match takeWhile isLetterOrSpace rest with
      | c :: g => Some (c :: g)
      | [] =>
          match dropWhile (fun c => negb (isSpace c)) (rev separators) with
          | w :: _ => Some [w]
          | [] => None
          end
      end
  | None => None
  end.

(** [s.replace(/\s/g, '')] *)
Definition removeSpaces (s : str) : str :=
  filter (fun c => negb (isSpace c)) s.

(** The expiry as stored: [`${month}/${year.slice(-2)}`]. *)
Definition expiryText (g1 g2 : str) : str :=
  let month := padStart2 g1 in
  let year := if (length g2 =? 2)%nat then Js.lit "20" ++ g2 else g2 in
  month ++ "/"%string ++ sliceLast 2 year.

Definition orEmpty (o : option str) : str :=
  match o with
  | Some s => s
  | None => []
  end.

(** [extractPaymentInfo]: the method and the card details. *)
Definition extractPaymentInfo (text : str) : str * PaymentDetails :=
  if includes (toLowerCase text) "cash"%string
     && (includes text "X"%string || includes text "✓"%string)
  then (Js.lit "Cash", emptyDetails)
  else if includes (toLowerCase text) "check"%string
  then (Js.lit "Check", emptyDetails)
  else
    let cardTypeDetection := detectCreditCardType text in
    match cardType cardTypeDetection with
    | _ :: _ =>
        (Js.lit "Credit Card (" ++ cardType cardTypeDetection
           ++ Js.lit ")",
         {| detailsCardType := cardType cardTypeDetection;
            cardNumber :=
              orEmpty (option_map removeSpaces
                         (firstMatch cardNumberLabelAt text));
            expiryDate :=
              orEmpty (option_map (fun g => expiryText (fst g) (snd g))
                         (firstMatch expiryAt text));
            cvv := orEmpty (firstMatch cvvAt text);
            cardholderName :=
              orEmpty (option_map trim (firstMatch signatureAt text)) |})
    | [] => (Js.lit "Unknown", emptyDetails)
    end.

End ExtractorPayment.

(* ===================================================================== *)
(** ** Detector: labelling and reclassifying elements from nearby text
       ([enhanceElementsWithOCR] and its helpers) *)
(* ===================================================================== *)

Module DetectorOcr.
Import Js Detector.

Definition typeName (t : ElementType) : str :=
  match t with
  | text_field => "text_field"%string
  | checkbox => "checkbox"%string
  | signature_area => "signature_area"%string
  | amount_field => "amount_field"%string
  | date_field => "date_field"%string
  end.

(** [classifyElementByContext]: the label for a nearby text. *)
Definition classifyElementByContext (text : str) (currentType : ElementType)
  : str :=
  let lowerText := toLowerCase text in
  if includes lowerText "name"%string || includes lowerText "donor"%string
  then "donor_name"%string
  else if includes lowerText "email"%string
          || includes lowerText "e-mail"%string
  then "email"%string
  else if includes lowerText "phone"%string || includes lowerText "tel"%string
  then "phone"%string
  else if includes lowerText "address"%string
          || includes lowerText "street"%string
  then "address"%string
  else if includes lowerText "amount"%string || includes lowerText "$"%string
          || includes lowerText "donation"%string
  then "amount"%string
  else if includes lowerText "date"%string || includes lowerText "when"%string
  then "date"%string
  else if includes lowerText "signature"%string
          || includes lowerText "sign"%string
  then "signature"%string
  else if includes lowerText "recurring"%string
          || includes lowerText "monthly"%string
  then "recurring"%string
  else if includes lowerText "anonymous"%string
          || includes lowerText "private"%string
  then "anonymous"%string
  else if includes lowerText "credit"%string || includes lowerText "card"%string
  then "payment_credit_card"%string
  else if includes lowerText "check"%string
          || includes lowerText "cheque"%string
  then "payment_check"%string
  else Js.lit "unknown_" ++ typeName currentType.

(** [re.test(text)]: some position at which one attempt succeeds. *)
Fixpoint testAt (attempt : str -> bool) (s : str) : bool :=
  attempt s ||
  match s with
  | [] => false
  | _ :: s' => testAt attempt s'
  end.

(** One attempt of [/\$\d+|\d+\.\d{2}/]: a dollar sign and a digit, or a
    run of digits, a dot and two digits. *)
Definition amountLikeAt (s : str) : bool :=
  match s with
  | d :: c :: _ => eqc d "$"%char && isDigit c
  | _ => false
  end
  || match takeWhile isDigit s, dropWhile isDigit s with
     | _ :: _, dot :: a :: b :: _ =>
         eqc dot "."%char && isDigit a && isDigit b
     | _, _ => false
     end.

(** [\d{1,2}] followed by the separator [sep]: what follows. *)
Definition shortNumberThen (sep : ascii) (s : str) : option str :=
  match Extractor.takeDigits 2 s with
  | (_ :: _, c :: r) => if eqc c sep then Some r else None
  | _ => None
  end.

(** [\d{1,2}], [sep], [\d{1,2}], [sep], [\d{2,4}] at the head of [s]. *)
Definition dateLikeWith (sep : ascii) (s : str) : bool :=
  match shortNumberThen sep s with
  | Some r1 =>
      match shortNumberThen sep r1 with
      | Some r2 => (2 <=? length (fst (Extractor.takeDigits 4 r2)))%nat
      | None => false
      end
  | None => false
  end.

(** One attempt of [/\d{1,2}\/\d{1,2}\/\d{2,4}|\d{1,2}-\d{1,2}-\d{2,4}/]. *)
Definition dateLikeAt (s : str) : bool :=
  dateLikeWith "/"%char s || dateLikeWith "-"%char s.

(** [refineElementType] *)
Definition refineElementType (text : str) (currentType : ElementType)
  : ElementType :=
  let lowerText := toLowerCase text in
  if testAt amountLikeAt text then amount_field
  else if testAt dateLikeAt text then date_field
  else if includes lowerText "signature"%string
          || includes lowerText "sign here"%string
  then signature_area
  else currentType.

(** A recognised word and its box. *)
Record WordBox := { x0 : Z; y0 : Z; x1 : Z; y1 : Z }.

Record Word := { wordText : str; bbox : WordBox }.

Definition half (z : Z) : Q := inject_Z z / 2.

(** [isWordNearElement]: the centres are less than 50 pixels apart.  The
    comparison [sqrt(dx^2 + dy^2) < 50] is made on the squares. *)
Definition isWordNearElement (wordBbox : WordBox) (elementBbox : BoundingBox)
  : bool :=
  let wordCenterX := (inject_Z (x0 wordBbox) + half (x1 wordBbox - x0 wordBbox))%Q in
  let wordCenterY := (inject_Z (y0 wordBbox) + half (y1 wordBbox - y0 wordBbox))%Q in
  let elementCenterX := (inject_Z (x elementBbox) + half (width elementBbox))%Q in
  let elementCenterY := (inject_Z (y elementBbox) + half (height elementBbox))%Q in
  let dx := (wordCenterX - elementCenterX)%Q in
  let dy := (wordCenterY - elementCenterY)%Q in
  if Qlt_le_dec (dx * dx + dy * dy) (50 * 50) then true else false.

(** [words.join(' ')] *)
Fixpoint joinSpace (words : list str) : str :=
  match words with
  | [] => []
  | [w] => w
  | w :: rest => w ++ " "%char :: joinSpace rest
  end.

Definition ElementType_eqb (a b : ElementType) : bool :=
  if ElementType_eq_dec a b then true else false.

(** The body of the loop over the elements. *)
Definition enhanceElement (words : list Word) (element : DetectedElement)
  : DetectedElement :=
  match filter (fun w => isWordNearElement (bbox w) (boundingBox element))
               words with
  | [] => element
  | nearbyWords =>
      let text := trim (joinSpace (map wordText nearbyWords)) in
      let label := classifyElementByContext text (type element) in
      let refinedType := refineElementType text (type element) in
      let confidence :=
        if ElementType_eqb refinedType (type element)
        then confidence element
        else (confidence element * (9 # 10))%Q in
      {| type := refinedType;
         boundingBox := boundingBox element;
         confidence := Qmin (confidence + (1 # 10)) 1;
         label := Some label;
         text := Some text |}
  end.

(** [enhanceElementsWithOCR]: [words] is [None] when there is no worker or
    the recognition throws; the elements are then left as they are. *)
Definition enhanceElementsWithOCR (words : option (list Word))
    (elements : list DetectedElement) : list DetectedElement :=
  match words with
  | Some ws => map (enhanceElement ws) elements
  | None => elements
  end.

End DetectorOcr.

(* ===================================================================== *)
(** ** Segmenter ([segmentFormFields] and its helpers) *)
(* ===================================================================== *)

Module Segmenter.
Import Js.

Definition Buffer := list N.

Record DetectedForm := {
  formId : str;
  pageNumber : nat;
  boundingBox : Detector.BoundingBox;
  confidence : Q;
  imageBuffer : Buffer;
  detectedElements : list Detector.DetectedElement
}.

(** The field type of a segment is the type of its element; the two
    interfaces name the same five strings. *)
Definition fieldTypeOf (t : Detector.ElementType) : Extractor.FieldType :=
  match t with
  | Detector.text_field => Extractor.text_field
  | Detector.checkbox => Extractor.checkbox
  | Detector.signature_area => Extractor.signature_area
  | Detector.amount_field => Extractor.amount_field
  | Detector.date_field => Extractor.date_field
  end.

(** [refineBoundingBox]: 5 pixels of padding on each side, the origin kept
    at or above 0. *)
Definition refineBoundingBox (imageBuffer : Buffer)
    (boundingBox : Detector.BoundingBox) : Extractor.BoundingBox :=
  {| Extractor.x := Z.max 0 (Detector.x boundingBox - 5);
     Extractor.y := Z.max 0 (Detector.y boundingBox - 5);
     Extractor.width := Detector.width boundingBox + 10;
     Extractor.height := Detector.height boundingBox + 10 |}.

(** [extractImageSegment] returns the buffer it is given. *)
Definition extractImageSegment (imageBuffer : Buffer)
    (boundingBox : Extractor.BoundingBox) : Buffer :=
  imageBuffer.

Definition preprocessTextField (imageSegment : Buffer) : Buffer := imageSegment.
Definition preprocessAmountField (imageSegment : Buffer) : Buffer := imageSegment.
Definition preprocessDateField (imageSegment : Buffer) : Buffer := imageSegment.
Definition preprocessCheckbox (imageSegment : Buffer) : Buffer := imageSegment.
Definition preprocessSignatureArea (imageSegment : Buffer) : Buffer :=
  imageSegment.

Definition preprocessFieldSegment (imageSegment : Buffer)
    (fieldType : Detector.ElementType) : Buffer :=
  match fieldType with
  | Detector.text_field => preprocessTextField imageSegment
  | Detector.amount_field => preprocessAmountField imageSegment
  | Detector.date_field => preprocessDateField imageSegment
  | Detector.checkbox => preprocessCheckbox imageSegment
  | Detector.signature_area => preprocessSignatureArea imageSegment
  end.

(** [element.label || element.type]: an absent or empty label gives the
    name of the type. *)
Definition labelOrType (element : Detector.DetectedElement) : str :=
  match Detector.label element with
  | Some (c :: l) => c :: l
  | _ => DetectorOcr.typeName (Detector.type element)
  end.

(** [extractFieldSegment]; none of its steps throws, so its [catch] (which
    would drop the element) is never entered. *)
Definition extractFieldSegment (form : DetectedForm)
    (element : Detector.DetectedElement) : Extractor.FieldSegment :=
  let refinedBoundingBox :=
    refineBoundingBox (imageBuffer form) (Detector.boundingBox element) in
  let imageSegment := extractImageSegment (imageBuffer form) refinedBoundingBox in
  let preprocessedSegment :=
    preprocessFieldSegment imageSegment (Detector.type element) in
  {| Extractor.fieldId := formId form ++ "_"%string ++ labelOrType element;
     Extractor.fieldType := fieldTypeOf (Detector.type element);
     Extractor.label := labelOrType element;
     Extractor.boundingBox := refinedBoundingBox;
     Extractor.imageSegment := preprocessedSegment;
     Extractor.segmentConfidence := Detector.confidence element;
     Extractor.preprocessed := true |}.

Definition segmentSingleForm (form : DetectedForm) : Extractor.SegmentedForm :=
  {| Extractor.formId := formId form;
     Extractor.pageNumber := pageNumber form;
     Extractor.formConfidence := confidence form;
     Extractor.fieldSegments :=
       map (extractFieldSegment form) (detectedElements form) |}.

(** [segmentFormFields]  (The counters are left out.) *)
Definition segmentFormFields (detectedForms : list DetectedForm)
  : list Extractor.SegmentedForm :=
  map segmentSingleForm detectedForms.

(** The identifier the Detector gives the [i]-th form of a page (counted
    from 0): [`form_${pageNumber}_${i + 1}`]. *)
Definition decimal (n : nat) : str :=
  list_ascii_of_string (DecimalString.NilEmpty.string_of_uint (Nat.to_uint n)).

Definition detectorFormId (pageNumber i : nat) : str :=
  Js.lit "form_" ++ decimal pageNumber ++ "_"%string ++ decimal (i + 1).

End Segmenter.

(* ===================================================================== *)
(** ** FormProcessingService: the upload check ([validateFile]) *)
(* ===================================================================== *)

Module Service.
Import Js.

Record UploadedFileData := {
  fileName : str;
  fileBuffer : Preprocessor.Buffer;
  fileSize : Z;
  mimeType : str
}.

Definition MAX_FILE_SIZE : Z := 10 * 1024 * 1024.

Definition ALLOWED_TYPES : list str :=
  [Js.lit "application/pdf"; Js.lit "image/png"; Js.lit "image/jpeg";
   Js.lit "image/jpg"].

Inductive ValidationError :=
| FileTooLarge (size : Z)
| TypeNotSupported (mime : str).

(** [validateFile]: the error it throws, or [None] when the file passes. *)
Definition validateFile (fileData : UploadedFileData)
  : option ValidationError :=
  if (MAX_FILE_SIZE <? fileSize fileData)%Z
  then Some (FileTooLarge (fileSize fileData))
  else if negb (existsb (streq (mimeType fileData)) ALLOWED_TYPES)
  then Some (TypeNotSupported (mimeType fileData))
  else None.

(** The document [executeProcessingPipeline] hands to the pipeline. *)
Definition documentOf (fileData : UploadedFileData)
  : Preprocessor.DocumentData :=
  {| Preprocessor.fileName := fileName fileData;
     Preprocessor.fileBuffer := fileBuffer fileData;
     Preprocessor.mimeType := mimeType fileData |}.

End Service.

(* ===================================================================== *)
(** ** LocalStorageManager *)
(* ===================================================================== *)

Module Storage.
Import Js.

Inductive UploadStatus := pending | processing | completed | error.

Record UploadedFileInfo := {
  id : str;
  name : str;
  size : Z;
  status : UploadStatus;
  progress : Z;
  extractedForms : option Z;
  errors : option (list str);
  uploadedAt : str
}.

Inductive FormStatus :=
| form_uploaded | form_processing | form_completed | form_error
| form_validated | form_needs_review | form_rejected.

Record StoredFormData := {
  formId : str;
  fileName : str;
  formNumber : Z;
  confidence : Q;
  formStatus : FormStatus;
  fields : Extractor.Fields;
  issues : option (list str);
  formUploadedAt : str;
  extractedAt : option str;
  fileSize : option Z
}.

(** [Partial<UploadedFileInfo>]: [None] for a key the object does not
    have. *)
Record FileUpdates := {
  newId : option str;
  newName : option str;
  newSize : option Z;
  newStatus : option UploadStatus;
  newProgress : option Z;
  newExtractedForms : option (option Z);
  newErrors : option (option (list str));
  newUploadedAt : option str
}.

Record FormUpdates := {
  newFormId : option str;
  newFileName : option str;
  newFormNumber : option Z;
  newConfidence : option Q;
  newFormStatus : option FormStatus;
  newFields : option Extractor.Fields;
  newIssues : option (option (list str));
  newFormUploadedAt : option str;
  newExtractedAt : option (option str);
  newFileSize : option (option Z)
}.

Definition orKeep {A : Type} (update : option A) (old : A) : A :=
  match update with
  | Some v => v
  | None => old
  end.

(** [{ ...file, ...updates }] *)
Definition mergeFile (file : UploadedFileInfo) (updates : FileUpdates)
  : UploadedFileInfo :=
  {| id := orKeep (newId updates) (id file);
     name := orKeep (newName updates) (name file);
     size := orKeep (newSize updates) (size file);
     status := orKeep (newStatus updates) (status file);
     progress := orKeep (newProgress updates) (progress file);
     extractedForms := orKeep (newExtractedForms updates) (extractedForms file);
     errors := orKeep (newErrors updates) (errors file);
     uploadedAt := orKeep (newUploadedAt updates) (uploadedAt file) |}.

Definition mergeForm (form : StoredFormData) (updates : FormUpdates)
  : StoredFormData :=
  {| formId := orKeep (newFormId updates) (formId form);
     fileName := orKeep (newFileName updates) (fileName form);
     formNumber := orKeep (newFormNumber updates) (formNumber form);
     confidence := orKeep (newConfidence updates) (confidence form);
     formStatus := orKeep (newFormStatus updates) (formStatus form);
     fields := orKeep (newFields updates) (fields form);
     issues := orKeep (newIssues updates) (issues form);
     formUploadedAt := orKeep (newFormUploadedAt updates) (formUploadedAt form);
     extractedAt := orKeep (newExtractedAt updates) (extractedAt form);
     fileSize := orKeep (newFileSize updates) (fileSize form) |}.

(** The browser's storage as the manager sees it: whether it is available
    ([isLocalStorageAvailable]), and the lists under the two keys the
    manager writes ([None] for an absent key).  The lists stand for their
    JSON texts: only the manager writes these keys, and what it writes
    parses back to what it wrote. *)
Record Store := {
  available : bool;
  uploadedFiles : option (list UploadedFileInfo);
  extractedFormsKey : option (list StoredFormData)
}.

Definition setFiles (l : list UploadedFileInfo) (st : Store) : Store :=
  {| available := available st; uploadedFiles := Some l;
     extractedFormsKey := extractedFormsKey st |}.

Definition setForms (l : list StoredFormData) (st : Store) : Store :=
  {| available := available st; uploadedFiles := uploadedFiles st;
     extractedFormsKey := Some l |}.

(** [files.findIndex(f => f.id === id)] followed by the assignment to that
    index: the first entry that satisfies [p] is replaced; [None] for -1. *)
Fixpoint replaceFirst {A : Type} (p : A -> bool) (f : A -> A) (l : list A)
  : option (list A) :=
  match l with
  | [] => None
  | a :: rest =>
      if p a then Some (f a :: rest)
      else option_map (cons a) (replaceFirst p f rest)
  end.

Section WithQuota.

(** Whether [localStorage.setItem] accepts the list (it throws when the
    quota is exceeded, and the manager's [catch] then leaves the storage as
    it was). *)
Variable filesFit : list UploadedFileInfo -> bool.
Variable formsFit : list StoredFormData -> bool.

Definition getUploadedFiles (st : Store) : list UploadedFileInfo :=
  if available st
  then match uploadedFiles st with
       | Some l => l
       | None => []
       end
  else [].

Definition getExtractedForms (st : Store) : list StoredFormData :=
  if available st
  then match extractedFormsKey st with
       | Some l => l
       | None => []
       end
  else [].

Definition storeUploadedFile (fileInfo : UploadedFileInfo) (st : Store)
  : Store :=
  if available st then
    let existingFiles := getUploadedFiles st in
    let updatedFiles :=
      filter (fun f => negb (streq (id f) (id fileInfo))) existingFiles
      ++ [fileInfo] in
    if filesFit updatedFiles then setFiles updatedFiles st else st
  else st.

Definition updateUploadedFile (fileId : str) (updates : FileUpdates)
    (st : Store) : Store :=
  if available st then
    match replaceFirst (fun f => streq (id f) fileId)
            (fun f => mergeFile f updates) (getUploadedFiles st) with
    | Some files => if filesFit files then setFiles files st else st
    | None => st
    end
  else st.

Definition storeExtractedForm (formData : StoredFormData) (st : Store)
  : Store :=
  if available st then
    let existingForms := getExtractedForms st in
    let updatedForms :=
      filter (fun f => negb (streq (formId f) (formId formData))) existingForms
      ++ [formData] in
    if formsFit updatedForms then setForms updatedForms st else st
  else st.

Definition updateExtractedForm (id : str) (updates : FormUpdates)
    (st : Store) : Store :=
  if available st then
    match replaceFirst (fun f => streq (formId f) id)
            (fun f => mergeForm f updates) (getExtractedForms st) with
    | Some forms => if formsFit forms then setForms forms st else st
    | None => st
    end
  else st.

Definition removeExtractedForm (id : str) (st : Store) : Store :=
  if available st then
    let filteredForms :=
      filter (fun f => negb (streq (formId f) id)) (getExtractedForms st) in
    if formsFit filteredForms then setForms filteredForms st else st
  else st.

Definition clearAllData (st : Store) : Store :=
  if available st
  then {| available := true; uploadedFiles := None;
          extractedFormsKey := None |}
  else st.

End WithQuota.

End Storage.

(* ===================================================================== *)
(** ** Notions used to state further properties of the code *)
(* ===================================================================== *)

Module CardsNotions.
Import Js Cards.

(** A character [formatCardNumber] may output. *)
Definition digitOrSpace (c : ascii) : bool := isDigit c || eqc c " "%char.

End CardsNotions.

Module RecordNotions.
Import Js Extractor ExtractorSpec.

Local Open Scope Q_scope.

(** What the segment path leaves untouched, and the band of the amount. *)
Definition segmentInvariant (f : Fields) : Prop :=
  paymentMethod f = []
  /\ anonymous f = false
  /\ detailsCardType (paymentDetails f) = []
  /\ cardNumber (paymentDetails f) = []
  /\ expiryDate (paymentDetails f) = []
  /\ cvv (paymentDetails f) = []
  /\ (amount f = 0%Z \/ InBand (amount f)).

(** A form with a name field that reads a card brand and a card number. *)
Definition cardTextForm : SegmentedForm :=
  {| formId := "form_1_1"%string; pageNumber := 1; formConfidence := 9 # 10;
     fieldSegments :=
       [sampleSegment "form_1_1_donor_name"%string text_field [1%N];
        sampleSegment "form_1_1_amount"%string amount_field [2%N]] |}.

Definition readsCardText (b : Buffer) : option (str * Q) :=
  match b with
  | [1%N] => Some (Js.lit "Visa 4111111111111111", 90)
  | _ => Some (Js.lit "$250", 80)
  end.

(** The issue one segment contributes, if any. *)
Definition segmentIssues (recognize : Buffer -> option (str * Q))
    (segment : FieldSegment) : list str :=
  match recognize (imageSegment segment) with
  | None =>
      [Js.lit "Failed to process " ++ fieldTypeName (fieldType segment)
         ++ Js.lit " field: " ++ fieldId segment]
  | Some (ocrText, _) =>
      match fieldType segment with
      | text_field =>
          let id := toLowerCase (fieldId segment) in
          if negb (includes id "name"%string) && includes id "email"%string
             && negb (isValidEmail (trim ocrText))
          then [emailIssue]
          else []
      | _ => []
      end
  end.

(** The engine reports confidences on the scale 0-100 for these segments. *)
Definition percentScale (recognize : Buffer -> option (str * Q))
    (segments : list FieldSegment) : Prop :=
  forall segment t c,
    In segment segments ->
    recognize (imageSegment segment) = Some (t, c) -> 0 <= c <= 100.

End RecordNotions.

Module PaymentNotions.
Import Js Extractor ExtractorPayment.

(** A stored expiry: two digits, a slash, two digits. *)
Definition expiryShape (e : str) : Prop :=
  exists mm yy,
    e = mm ++ "/"%char :: yy
    /\ length mm = 2 /\ length yy = 2
    /\ forallb isDigit mm = true /\ forallb isDigit yy = true.

End PaymentNotions.

Module DetectorNotions.
Import Js Detector DetectorOcr.

Local Open Scope Q_scope.

(** The lower-cased text contains one of the keywords. *)
Definition mentionsAny (lowerText : str) (keywords : list str) : bool :=
  existsb (includes lowerText) keywords.

(** What one element keeps and how its confidence moves. *)
Definition refines (e e' : DetectedElement) : Prop :=
  boundingBox e' = boundingBox e
  /\ (0 <= confidence e <= 1 ->
      confidence e <= confidence e' <= 1).

End DetectorNotions.

Module SegmenterNotions.
Import Js.

Definition sampleElement : Detector.DetectedElement :=
  DetectorSpec.element Detector.text_field (7 # 10) (Some (Js.lit "email")).

Definition sampleDetectedForm : Segmenter.DetectedForm :=
  {| Segmenter.formId := Segmenter.detectorFormId 2 0;
     Segmenter.pageNumber := 2;
     Segmenter.boundingBox :=
       {| Detector.x := 10; Detector.y := 20; Detector.width := 800;
          Detector.height := 600 |};
     Segmenter.confidence := 8 # 10;
     Segmenter.imageBuffer := [137; 2; 1; 7; 9]%N;
     Segmenter.detectedElements :=
       [sampleElement;
        DetectorSpec.element Detector.checkbox (8 # 10) None] |}.

(** What a segment inherits from its form and its element. *)
Definition segmentOf (form : Segmenter.DetectedForm)
    (element : Detector.DetectedElement) (segment : Extractor.FieldSegment)
  : Prop :=
  Extractor.imageSegment segment = Segmenter.imageBuffer form
  /\ Extractor.fieldType segment
     = Segmenter.fieldTypeOf (Detector.type element)
  /\ Extractor.segmentConfidence segment = Detector.confidence element
  /\ Extractor.preprocessed segment = true.

Definition segmentedFrom (form : Segmenter.DetectedForm)
    (segmented : Extractor.SegmentedForm) : Prop :=
  Extractor.formId segmented = Segmenter.formId form
  /\ Extractor.pageNumber segmented = Segmenter.pageNumber form
  /\ Extractor.formConfidence segmented = Segmenter.confidence form
  /\ Forall2 (segmentOf form) (Segmenter.detectedElements form)
       (Extractor.fieldSegments segmented).

(** The characters of a form identifier of the Detector. *)
Definition idChar (c : ascii) : bool :=
  isDigit c || existsb (eqc c) (Js.lit "form_").

(** The routing of a text field by a label alone. *)
Definition routeByLabel (label text : str) (f : Extractor.Fields)
    (issues : list str) : Extractor.Fields * list str :=
  Extractor.processFieldSegment
    (ExtractorSpec.sampleSegment label Extractor.text_field []) text f issues.

End SegmenterNotions.

Module PreprocessorNotions.
Import Js Preprocessor.

(** The recorded size of a page is the size its buffer decodes to. *)
Definition sizeRecorded (size : Buffer -> option (nat * nat))
    (image : ProcessedImage) : Prop :=
  size (imageBuffer image) = Some (width image, height image).

(** Page [k] of the document rasterises, reads back, decodes and is
    cleaned up. *)
Definition pageConverts (convert : Buffer -> nat -> ConvertResult)
    (readFile : str -> option Buffer) (unlink : str -> bool)
    (size : Buffer -> option (nat * nat)) (pdf : Buffer) (k : nat) : Prop :=
  exists path buffer sz,
    convert pdf k = ConvertPath path
    /\ readFile path = Some buffer
    /\ size buffer = Some sz
    /\ unlink path = true.

(** [page] is page [k] of the document as the page loop reads it: the
    file the rasteriser writes for page [k], read back, recorded with the
    size it decodes to and the number [k], and removed. *)
Definition pageRead (convert : Buffer -> nat -> ConvertResult)
    (readFile : str -> option Buffer) (unlink : str -> bool)
    (size : Buffer -> option (nat * nat)) (pdf : Buffer) (k : nat)
    (page : ProcessedImage) : Prop :=
  exists path,
    convert pdf k = ConvertPath path
    /\ readFile path = Some (imageBuffer page)
    /\ size (imageBuffer page) = Some (width page, height page)
    /\ unlink path = true
    /\ pageNumber page = k.

(** Page [k] of the sample document, as read back from the rasteriser's
    file. *)
Definition samplePage (k : nat) : ProcessedImage :=
  {| imageBuffer := [137; 2; 1; 7; 9]%N; width := 2; height := 1;
     pageNumber := k |}.

Definition pngUpload : Service.UploadedFileData :=
  {| Service.fileName := "scan.png"%string;
     Service.fileBuffer := [137; 2; 1; 7; 9]%N;
     Service.fileSize := 5;
     Service.mimeType := "image/png"%string |}.

End PreprocessorNotions.

Module StorageNotions.
Import Js Storage.

Definition sampleForm (i : str) (n : Z) : StoredFormData :=
  {| formId := i; fileName := "forms.pdf"%string; formNumber := n;
     confidence := 9 # 10; formStatus := form_completed;
     fields := Extractor.emptyFields; issues := None;
     formUploadedAt := "2024-03-15T10:00:00.000Z"%string;
     extractedAt := None; fileSize := None |}.

Definition sampleFile (i : str) (s : UploadStatus) : UploadedFileInfo :=
  {| id := i; name := "forms.pdf"%string; size := 1024; status := s;
     progress := 0; extractedForms := None; errors := None;
     uploadedAt := "2024-03-15T10:00:00.000Z"%string |}.

Definition sampleStore : Store :=
  {| available := true;
     uploadedFiles := Some [sampleFile "a"%string pending;
                            sampleFile "b"%string processing];
     extractedFormsKey := Some [sampleForm "f1"%string 1;
                                sampleForm "f2"%string 2] |}.

Definition always {A : Type} (_ : A) : bool := true.

Definition statusUpdate (s : UploadStatus) (p : Z) : FileUpdates :=
  {| newId := None; newName := None; newSize := None; newStatus := Some s;
     newProgress := Some p; newExtractedForms := None; newErrors := None;
     newUploadedAt := None |}.

Definition hasFormId (i : str) (f : StoredFormData) : bool :=
  streq (formId f) i.

End StorageNotions.

(* ===================================================================== *)
(** ** Facts about the string primitives *)
(* ===================================================================== *)

Module JsFacts.
Import Js.

Lemma digit_not_space c : isDigit c = true -> isSpace c = false.
Proof.
  unfold isDigit, isSpace. intros H.
  apply andb_true_iff in H as [H1 H2].
  apply N.leb_le in H1. apply N.leb_le in H2.
  apply orb_false_iff; split.
  - apply andb_false_iff; right. apply N.leb_gt. lia.
  - apply N.eqb_neq. lia.
Qed.

Lemma digit_not_terminator c : isDigit c = true -> isLineTerminator c = false.
Proof.
  unfold isDigit, isLineTerminator. intros H.
  apply andb_true_iff in H as [H1 H2].
  apply N.leb_le in H1. apply N.leb_le in H2.
  apply orb_false_iff; split; apply N.eqb_neq; lia.
Qed.

Lemma digit_not_star c : isDigit c = true -> eqc c "*"%char = false.
Proof.
  intros H. unfold eqc. apply Ascii.eqb_neq. intros ->. discriminate H.
Qed.

Lemma space_not_digit c : isSpace c = true -> isDigit c = false.
Proof.
  intros H. destruct (isDigit c) eqn:E; [|reflexivity].
  apply digit_not_space in E. congruence.
Qed.

Lemma strip_app a b :
  stripNonDigits (a ++ b) = stripNonDigits a ++ stripNonDigits b.
Proof. apply filter_app. Qed.

Lemma strip_digits s : forallb isDigit s = true -> stripNonDigits s = s.
Proof. apply forallb_filter_id. Qed.

Lemma strip_all_digits s : forallb isDigit (stripNonDigits s) = true.
Proof. apply forallb_filter. Qed.

Lemma strip_idem s : stripNonDigits (stripNonDigits s) = stripNonDigits s.
Proof. apply strip_digits, strip_all_digits. Qed.

Lemma strip_stars n : stripNonDigits (repeatChar "*"%char n) = [].
Proof. induction n; simpl; auto. Qed.

Lemma forallb_skipn (p : ascii -> bool) n s :
  forallb p s = true -> forallb p (skipn n s) = true.
Proof.
  revert s; induction n; intros [|c s] H; simpl; auto.
  simpl in H. apply andb_true_iff in H as [_ H]. auto.
Qed.

Lemma forallb_firstn (p : ascii -> bool) n s :
  forallb p s = true -> forallb p (firstn n s) = true.
Proof.
  revert s; induction n; intros [|c s] H; simpl; auto.
  simpl in H. apply andb_true_iff in H as [Hc H].
  rewrite Hc. simpl. auto.
Qed.

Lemma forallb_rev (p : ascii -> bool) s :
  forallb p s = true -> forallb p (rev s) = true.
Proof.
  intros H. apply forallb_forall. intros x Hx.
  apply in_rev in Hx. rewrite forallb_forall in H. auto.
Qed.

Lemma strip_dropWhile_space s :
  stripNonDigits (dropWhile isSpace s) = stripNonDigits s.
Proof.
  induction s as [|c s IH]; simpl; auto.
  destruct (isSpace c) eqn:E; simpl; auto.
  rewrite (space_not_digit _ E). exact IH.
Qed.

Lemma strip_rev s : stripNonDigits (rev s) = rev (stripNonDigits s).
Proof. apply filter_rev. Qed.

(** Trimming only removes characters that are not digits. *)
Lemma strip_trim s : stripNonDigits (trim s) = stripNonDigits s.
Proof.
  unfold trim.
  rewrite strip_rev, strip_dropWhile_space, strip_rev, rev_involutive.
  apply strip_dropWhile_space.
Qed.

Lemma dropWhile_space_digits s :
  forallb isDigit s = true -> dropWhile isSpace s = s.
Proof.
  destruct s as [|c s]; simpl; auto.
  intros H. apply andb_true_iff in H as [Hc _].
  now rewrite (digit_not_space _ Hc).
Qed.

(** A string of digits has nothing to trim. *)
Lemma trim_digits s : forallb isDigit s = true -> trim s = s.
Proof.
  intros H. unfold trim.
  rewrite (dropWhile_space_digits _ H).
  rewrite (dropWhile_space_digits _ (forallb_rev _ _ H)).
  apply rev_involutive.
Qed.

Lemma firstn_slice lo hi (s : str) :
  lo <= hi -> firstn lo s ++ slice lo hi s = firstn hi s.
Proof.
  unfold slice. revert hi s.
  induction lo as [|lo IH]; intros hi s Hle.
  - simpl. now rewrite Nat.sub_0_r.
  - destruct hi as [|hi]; [lia|].
    destruct s as [|c s]; simpl.
    + now rewrite firstn_nil.
    + f_equal. apply IH. lia.
Qed.

Lemma takeWhile_all (p : ascii -> bool) s :
  forallb p s = true -> takeWhile p s = s.
Proof.
  induction s as [|c s IH]; simpl; auto.
  intros H. apply andb_true_iff in H as [Hc H].
  rewrite Hc. f_equal. auto.
Qed.

Lemma forallb_impl (p q : ascii -> bool) s :
  (forall c, p c = true -> q c = true) ->
  forallb p s = true -> forallb q s = true.
Proof.
  intros Hpq. induction s as [|c s IH]; simpl; auto.
  intros H. apply andb_true_iff in H as [Hc H].
  rewrite (Hpq _ Hc). simpl. auto.
Qed.

End JsFacts.

(* ===================================================================== *)
(** ** Card utilities: evaluation on sample numbers *)
(* ===================================================================== *)

Module CardsExamples.
Import Js Cards.

Example detect_visa : detectCardType "4111 1111 1111 1111"%string = "Visa"%string.
Proof. reflexivity. Qed.

Example detect_unknown : detectCardType "9999"%string = "Unknown"%string.
Proof. reflexivity. Qed.

Example luhn_ok : validateCardNumber "4111111111111111"%string = true.
Proof. reflexivity. Qed.

Example luhn_bad : validateCardNumber "4111111111111112"%string = false.
Proof. reflexivity. Qed.

Example format_visa :
  formatCardNumber "4111111111111111"%string None = "4111 1111 1111 1111"%string.
Proof. reflexivity. Qed.

Example format_amex :
  formatCardNumber "378282246310005"%string None = "3782 822463 10005"%string.
Proof. reflexivity. Qed.

Example format_default :
  formatCardNumber "9999888877776"%string None = "9999 8888 7777 6"%string.
Proof. reflexivity. Qed.

Example mask_visa :
  maskCardNumber "4111 1111 1111 1234"%string defaultVisibleDigits = "1234"%string.
Proof. reflexivity. Qed.

Example mask_short :
  maskCardNumber "123"%string defaultVisibleDigits = "***"%string.
Proof. reflexivity. Qed.

End CardsExamples.

(* ===================================================================== *)
(** ** Card utilities: checksum, formatting and masking *)
(* ===================================================================== *)

Module CardsFacts.
Import Js Cards CardsSpec JsFacts.

(** *** The checksum loop computes the checksum of the specification *)

Lemma luhnStep_fold l : forall k sum,
  fst (fold_left luhnStep l (sum, Nat.odd k))
  = (sum + luhnSumFrom k (map digitValue l))%Z.
Proof.
  induction l as [|c l IH]; intros k sum; simpl.
  - lia.
  - replace (negb (Nat.odd k)) with (Nat.odd (S k))
      by (rewrite Nat.odd_succ; symmetry; apply Nat.negb_odd).
    rewrite IH. unfold luhnTerm, doubled.
    replace (digitValue c * 2)%Z with (2 * digitValue c)%Z by lia.
    destruct (Nat.odd k); [destruct (9 <? 2 * digitValue c)%Z|]; lia.
Qed.

Lemma luhnLoop_checksum digits : luhnLoop digits = luhnChecksum digits.
Proof.
  unfold luhnLoop, luhnChecksum.
  change false with (Nat.odd 0).
  rewrite luhnStep_fold, map_rev. lia.
Qed.

(** C3. For an input whose digits (all other characters removed) number
    between 13 and 19, [validateCardNumber] answers [true] exactly when the
    Luhn checksum of the digit string (every second digit from the right
    doubled, 9 subtracted from a doubled value above 9, all summed) is
    0 modulo 10; for any other digit count it answers [false]. *)
Theorem validateCardNumber_luhn (s : str) :
  (13 <= length (stripNonDigits s) <= 19 ->
     (validateCardNumber s = true
      <-> (luhnChecksum (stripNonDigits s) mod 10 = 0)%Z))
  /\ (~ (13 <= length (stripNonDigits s) <= 19) ->
        validateCardNumber s = false).
Proof.
  unfold validateCardNumber. rewrite luhnLoop_checksum. split.
  - intros [Hlo Hhi].
    replace (length (stripNonDigits s) <? 13)%nat with false
      by (symmetry; apply Nat.ltb_ge; lia).
    replace (19 <? length (stripNonDigits s))%nat with false
      by (symmetry; apply Nat.ltb_ge; lia).
    simpl. apply Z.eqb_eq.
  - intros Hout.
    destruct (length (stripNonDigits s) <? 13)%nat eqn:E1; [reflexivity|].
    destruct (19 <? length (stripNonDigits s))%nat eqn:E2; [reflexivity|].
    apply Nat.ltb_ge in E1. apply Nat.ltb_ge in E2. exfalso. apply Hout. lia.
Qed.

Lemma validateCardNumber_luhn_witness :
  validateCardNumber "4111 1111 1111 1111"%string = true
  <-> (luhnChecksum (stripNonDigits "4111 1111 1111 1111"%string) mod 10 = 0)%Z.
Proof.
  apply (proj1 (validateCardNumber_luhn "4111 1111 1111 1111"%string)).
  simpl. lia.
Defined.

(** *** Formatting keeps the digits *)

Lemma table_gaps_increasing e :
  In e CARD_TYPES -> increasingFrom 0 (gaps (snd e)).
Proof.
  simpl. intros H.
  repeat (destruct H as [<- | H]; [simpl; repeat split; lia|]).
  contradiction.
Qed.

Lemma table_gaps_ge4 e :
  In e CARD_TYPES -> Forall (fun g => 4 <= g) (gaps (snd e)).
Proof.
  simpl. intros H.
  repeat (destruct H as [<- | H]; [simpl; repeat constructor; lia|]).
  contradiction.
Qed.

Lemma gap_loop_digits (c : str) :
  forallb isDigit c = true ->
  forall gs formatted lastGap,
    increasingFrom lastGap gs ->
    lastGap <= length c ->
    stripNonDigits formatted = firstn lastGap c ->
    let st := fold_left (gapStep c) gs (formatted, lastGap) in
    stripNonDigits (fst st) = firstn (snd st) c /\ snd st <= length c.
Proof.
  intros Hc gs. induction gs as [|g gs IH]; intros formatted lastGap Hinc Hle Hf.
  - simpl. auto.
  - destruct Hinc as [Hg Hinc]. simpl.
    destruct (g <? length c)%nat eqn:E.
    + apply Nat.ltb_lt in E. apply IH; [exact Hinc | lia |].
      rewrite !strip_app, Hf.
      rewrite (strip_digits (slice lastGap g c)).
      * simpl. rewrite app_nil_r. now apply firstn_slice.
      * unfold slice. now apply forallb_firstn, forallb_skipn.
    + apply IH; auto.
      clear - Hg Hinc. revert Hinc. generalize dependent g.
      destruct gs as [|g' gs]; simpl; auto.
      intros g Hg [H1 H2]. split; [lia | exact H2].
Qed.

Lemma groupsOf4_cons a b c d rest :
  groupsOf4 (a :: b :: c :: d :: rest)
  = if existsb isLineTerminator [a; b; c; d]
    then a :: groupsOf4 (b :: c :: d :: rest)
    else [a; b; c; d] ++ [" "%char] ++ groupsOf4 rest.
Proof. reflexivity. Qed.

Lemma strip_groupsOf4_le n : forall s,
  length s <= n -> stripNonDigits (groupsOf4 s) = stripNonDigits s.
Proof.
  induction n as [|n IH]; intros s Hn.
  - destruct s; [reflexivity | simpl in Hn; lia].
  - destruct s as [|a [|b [|c [|d rest]]]]; try reflexivity.
    rewrite groupsOf4_cons.
    destruct (existsb isLineTerminator [a; b; c; d]).
    + change (a :: groupsOf4 (b :: c :: d :: rest))
        with ([a] ++ groupsOf4 (b :: c :: d :: rest)).
      change (a :: b :: c :: d :: rest) with ([a] ++ b :: c :: d :: rest).
      rewrite !strip_app. rewrite IH by (simpl in *; lia). reflexivity.
    + change (a :: b :: c :: d :: rest) with ([a; b; c; d] ++ rest).
      rewrite !strip_app. rewrite IH by (simpl in *; lia). reflexivity.
Qed.

Lemma strip_groupsOf4 s : stripNonDigits (groupsOf4 s) = stripNonDigits s.
Proof. apply (strip_groupsOf4_le (length s)). lia. Qed.

(** [formatCardNumber] only inserts spaces: the digits of its result are
    the digits of its argument, in order. *)
Lemma strip_formatCardNumber x ty :
  stripNonDigits (formatCardNumber x ty) = stripNonDigits x.
Proof.
  unfold formatCardNumber.
  set (c := stripNonDigits x).
  assert (Hc : forallb isDigit c = true) by apply strip_all_digits.
  match goal with |- context [find ?f CARD_TYPES] =>
    destruct (find f CARD_TYPES) as [e|] eqn:Hfind end.
  - apply find_some in Hfind as [Hin _].
    pose proof (gap_loop_digits c Hc (gaps (snd e)) [] 0
                  (table_gaps_increasing _ Hin) (Nat.le_0_l _) eq_refl) as H.
    cbv zeta in H.
    destruct (fold_left (gapStep c) (gaps (snd e)) ([], 0)) as [formatted lastGap].
    simpl in H. destruct H as [Hf Hl].
    rewrite strip_trim, strip_app, Hf.
    unfold sliceFrom.
    rewrite (strip_digits (skipn lastGap c)) by now apply forallb_skipn.
    apply firstn_skipn.
  - rewrite strip_trim, strip_groupsOf4. now apply strip_digits.
Qed.

(** *** Formatting at most four digits changes nothing *)

Lemma gap_loop_short (c : str) gs :
  Forall (fun g => length c <= g) gs ->
  forall st, fold_left (gapStep c) gs st = st.
Proof.
  induction 1 as [|g gs Hg _ IH]; intros [formatted lastGap]; simpl; auto.
  replace (g <? length c)%nat with false
    by (symmetry; apply Nat.ltb_ge; exact Hg).
  apply IH.
Qed.

Lemma formatCardNumber_short y ty :
  length (stripNonDigits y) <= 4 ->
  formatCardNumber y ty = stripNonDigits y.
Proof.
  intros Hlen. unfold formatCardNumber.
  set (c := stripNonDigits y) in *.
  assert (Hc : forallb isDigit c = true) by apply strip_all_digits.
  match goal with |- context [find ?f CARD_TYPES] =>
    destruct (find f CARD_TYPES) as [e|] eqn:Hfind end.
  - apply find_some in Hfind as [Hin _].
    rewrite gap_loop_short.
    + simpl. now apply trim_digits.
    + eapply Forall_impl; [|exact (table_gaps_ge4 _ Hin)].
      simpl. intros g Hg. lia.
  - destruct c as [|a [|b [|c3 [|d [|e rest]]]]];
      try (simpl in Hlen; lia); try (now apply trim_digits).
    rewrite groupsOf4_cons.
    pose proof Hc as Hall. simpl in Hc.
    apply andb_true_iff in Hc as [Ha Hc].
    apply andb_true_iff in Hc as [Hb Hc].
    apply andb_true_iff in Hc as [Hc3 Hc].
    apply andb_true_iff in Hc as [Hd _].
    cbn [existsb].
    rewrite !digit_not_terminator by assumption.
    change (groupsOf4 []) with (@nil ascii). cbn [orb app].
    unfold trim.
    cbn [dropWhile]. rewrite (digit_not_space _ Ha).
    cbn [rev app dropWhile].
    change (isSpace " "%char) with true. cbv iota.
    rewrite (digit_not_space _ Hd). reflexivity.
Qed.

(** *** Masking *)

(** With more than [visibleDigits = 4] digits, the masked string is passed
    through [formatCardNumber], whose first step removes the asterisks. *)
Lemma maskCardNumber_last4 x :
  4 < length (stripNonDigits x) ->
  maskCardNumber x defaultVisibleDigits = lastDigits 4 (stripNonDigits x).
Proof.
  intros Hlen. unfold maskCardNumber, defaultVisibleDigits, lastDigits.
  set (c := stripNonDigits x) in *.
  replace (length c <=? 4)%nat with false
    by (symmetry; apply Nat.leb_gt; exact Hlen).
  cbn [sliceLast].
  assert (Hv : stripNonDigits (repeatChar "*"%char (length c - 4)
                               ++ skipn (length c - 4) c)
               = skipn (length c - 4) c).
  { rewrite strip_app, strip_stars. simpl.
    apply strip_digits, forallb_skipn, strip_all_digits. }
  rewrite formatCardNumber_short; rewrite Hv; [reflexivity|].
  rewrite length_skipn. lia.
Qed.

Lemma lastDigits_no_star n x :
  forallb (fun c => negb (eqc c "*"%char)) (lastDigits n (stripNonDigits x))
  = true.
Proof.
  unfold lastDigits. apply forallb_skipn.
  apply forallb_impl with (p := isDigit); [|apply strip_all_digits].
  intros c Hc. now rewrite (digit_not_star _ Hc).
Qed.

(** C9. Masking round trip: when the cleaned digit string of [x] has more
    than 4 digits, the visible (asterisk-free) suffix of
    [maskCardNumber (formatCardNumber x)] is the last 4 digits of the
    cleaned [x]. *)
Theorem mask_format_visible_suffix (x : str) :
  4 < length (stripNonDigits x) ->
  visibleSuffix (maskCardNumber (formatCardNumber x None) defaultVisibleDigits)
  = lastDigits 4 (stripNonDigits x).
Proof.
  intros Hlen.
  rewrite maskCardNumber_last4; rewrite strip_formatCardNumber; [|exact Hlen].
  unfold visibleSuffix.
  rewrite takeWhile_all.
  - apply rev_involutive.
  - apply forallb_rev, lastDigits_no_star.
Qed.

Lemma mask_format_visible_suffix_witness :
  visibleSuffix
    (maskCardNumber (formatCardNumber "5500-0000-0000-0004"%string None)
       defaultVisibleDigits)
  = lastDigits 4 (stripNonDigits "5500-0000-0000-0004"%string).
Proof.
  apply (mask_format_visible_suffix "5500-0000-0000-0004"%string).
  vm_compute. lia.
Defined.

(** C10. When the cleaned digit string has more than the default 4 visible
    digits, [maskCardNumber] returns exactly the last 4 digits: the
    formatting pass strips the asterisks with every other non-digit, so the
    result holds no ['*'] at all. *)
Theorem maskCardNumber_drops_mask (x : str) :
  4 < length (stripNonDigits x) ->
  maskCardNumber x defaultVisibleDigits = lastDigits 4 (stripNonDigits x)
  /\ length (maskCardNumber x defaultVisibleDigits) = 4
  /\ forallb isDigit (maskCardNumber x defaultVisibleDigits) = true
  /\ ~ In "*"%char (maskCardNumber x defaultVisibleDigits).
Proof.
  intros Hlen. rewrite (maskCardNumber_last4 _ Hlen).
  assert (Hd : forallb isDigit (lastDigits 4 (stripNonDigits x)) = true)
    by (apply forallb_skipn, strip_all_digits).
  repeat split.
  - unfold lastDigits. rewrite length_skipn. lia.
  - exact Hd.
  - intros Hin. rewrite forallb_forall in Hd.
    specialize (Hd _ Hin). discriminate Hd.
Qed.

Lemma maskCardNumber_drops_mask_witness :
  maskCardNumber "4111 1111 1111 1234"%string defaultVisibleDigits
  = lastDigits 4 (stripNonDigits "4111 1111 1111 1234"%string)
  /\ length (maskCardNumber "4111 1111 1111 1234"%string defaultVisibleDigits) = 4
  /\ forallb isDigit
       (maskCardNumber "4111 1111 1111 1234"%string defaultVisibleDigits) = true
  /\ ~ In "*"%char
       (maskCardNumber "4111 1111 1111 1234"%string defaultVisibleDigits).
Proof.
  apply (maskCardNumber_drops_mask "4111 1111 1111 1234"%string).
  vm_compute. lia.
Defined.

End CardsFacts.

(* ===================================================================== *)
(** ** Extractor: evaluation on sample texts *)
(* ===================================================================== *)

Module ExtractorExamples.
Import Js Extractor.

Example amount_matches :
  amountMatches "Gift $24 or $1,500.00 ($x) $99999"%string
  = ["$24"%string : str; "$1,500"%string : str; "$999"%string : str].
Proof. reflexivity. Qed.

Example amount_unbounded_digits : extractAmount "$1500"%string = 150%Z.
Proof. reflexivity. Qed.

Example amount_cents : extractAmount "Amount: $100.00"%string = 100%Z.
Proof. reflexivity. Qed.

Example date_labelled :
  extractDate "Date: 03/15/2024"%string = Some ("2024-15-03"%string : str).
Proof. reflexivity. Qed.

Example date_unlabelled : extractDate "03/15/2024"%string = None.
Proof. reflexivity. Qed.

Example date_short : extractDate "DATE 3-5-2024"%string = Some ("2024-05-03"%string : str).
Proof. reflexivity. Qed.

Example card_matches :
  cardNumberMatches "No 4111 1111 1111 1111 / 5500000000000004."%string
  = ["4111 1111 1111 1111"%string : str; "5500000000000004"%string : str].
Proof. reflexivity. Qed.

Example card_keyword :
  cardType (detectCreditCardType "x Visa  M/C"%string) = "Visa"%string.
Proof. reflexivity. Qed.

Example card_prefix :
  cardType (detectCreditCardType "Account No 5500 0000 0000 0004"%string)
  = "Mastercard"%string.
Proof. reflexivity. Qed.

End ExtractorExamples.

(* ===================================================================== *)
(** ** Extractor: amounts and dates *)
(* ===================================================================== *)

Module ExtractorFacts.
Import Js Extractor ExtractorSpec JsFacts.

(** *** Amounts *)

Lemma inBand_iff v : inBand v = true <-> InBand v.
Proof.
  unfold inBand, InBand.
  rewrite andb_true_iff, !Z.leb_le. tauto.
Qed.

Lemma extractAmount_find text :
  extractAmount text
  = match find inBand (amountValues text) with
    | Some amt => amt
    | None => 0%Z
    end.
Proof.
  unfold extractAmount, amountValues.
  destruct (amountMatches text) as [|m ms]; [reflexivity|].
  destruct (find inBand (map amountValue (m :: ms))) as [amt|] eqn:E;
    [|reflexivity].
  apply find_some in E as [_ E]. apply inBand_iff in E.
  unfold InBand in E.
  destruct (amt =? 0)%Z eqn:E0; [apply Z.eqb_eq in E0; lia | reflexivity].
Qed.




(** *** The amount pattern and the numbers of the text *)

Lemma takeDigits_greedy n : forall s ds r,
  takeDigits n s = (ds, r) ->
  s = ds ++ r /\ forallb isDigit ds = true /\ length ds <= n
  /\ (length ds = n
      \/ match r with [] => True | c :: _ => isDigit c = false end).
Proof.
  induction n as [|n IH]; intros s ds r H.
  - destruct s; inversion H; subst; simpl; auto.
  - destruct s as [|c s]; [inversion H; subst; simpl; auto with arith|].
    cbn [takeDigits] in H. destruct (isDigit c) eqn:Ec.
    + destruct (takeDigits n s) as [ds' r'] eqn:E. inversion H; subst.
      destruct (IH _ _ _ E) as (Hs & Hd & Hl & Hstop).
      simpl. rewrite Ec, Hd. subst s. repeat split; auto; [lia|].
      destruct Hstop as [Hn | Hr]; [left; lia | now right].
    + inversion H; subst. simpl. repeat split; auto with arith.
Qed.


Lemma commaGroups_short s : length s < 4 -> commaGroups s = ([], s).
Proof.
  destruct s as [|k [|a [|b [|c rest]]]]; simpl; try reflexivity. lia.
Qed.





















(** *** Dates *)

Lemma takeDigits_all n : forall ds r,
  forallb isDigit ds = true ->
  length ds <= n ->
  (length ds = n \/ match r with [] => True | c :: _ => isDigit c = false end) ->
  takeDigits n (ds ++ r) = (ds, r).
Proof.
  induction n as [|n IH]; intros ds r Hd Hlen Hstop.
  - destruct ds; [|simpl in Hlen; lia]. simpl. now destruct r.
  - destruct ds as [|c ds].
    + destruct Hstop as [Hn | Hr]; [discriminate Hn|].
      simpl. destruct r as [|c r]; [reflexivity|]. now rewrite Hr.
    + simpl in Hd. apply andb_true_iff in Hd as [Hc Hd].
      simpl. rewrite Hc. rewrite IH; [reflexivity | exact Hd | | ].
      * simpl in Hlen. lia.
      * destruct Hstop as [Hn | Hr]; [left; simpl in Hn; lia | now right].
Qed.

Lemma dateSep_not_digit c : isDateSep c = true -> isDigit c = false.
Proof.
  unfold isDateSep, eqc. intros H.
  apply orb_true_iff in H as [H | H]; apply Ascii.eqb_eq in H; now subst.
Qed.

Lemma digit_not_colonOrSpace c :
  isDigit c = true -> isColonOrSpace c = false.
Proof.
  intros H. unfold isColonOrSpace.
  rewrite (digit_not_space _ H), orb_false_r.
  unfold eqc. apply Ascii.eqb_neq. intros ->. discriminate H.
Qed.

Lemma dateComponent_ok d sep r :
  shortNumber d -> isDateSep sep = true ->
  dateComponent (d ++ sep :: r) = Some (d, r).
Proof.
  intros [Hlen Hd] Hsep. unfold dateComponent.
  rewrite takeDigits_all; [| exact Hd | lia | right; now apply dateSep_not_digit].
  destruct d as [|c d]; [simpl in Hlen; lia|].
  now rewrite Hsep.
Qed.

Lemma dropWhile_label ws (r : str) :
  forallb isColonOrSpace ws = true ->
  match r with [] => True | c :: _ => isColonOrSpace c = false end ->
  dropWhile isColonOrSpace (ws ++ r) = r.
Proof.
  intros Hws Hr. induction ws as [|w ws IH]; cbn [app dropWhile].
  - destruct r as [|c r]; [reflexivity|]. cbn [dropWhile]. now rewrite Hr.
  - cbn [forallb] in Hws. apply andb_true_iff in Hws as [Hw Hws].
    rewrite Hw. now apply IH.
Qed.

Lemma dateAt_labelled lbl ws d1 s1 d2 s2 yr rest :
  toLowerCase lbl = "date"%string ->
  forallb isColonOrSpace ws = true ->
  shortNumber d1 -> shortNumber d2 -> fourDigits yr ->
  isDateSep s1 = true -> isDateSep s2 = true ->
  dateAt (lbl ++ ws ++ d1 ++ s1 :: d2 ++ s2 :: yr ++ rest)
  = Some (d1, d2, yr).
Proof.
  intros Hlbl Hws H1 H2 [Hylen Hy] Hs1 Hs2.
  assert (Hl : length lbl = 4).
  { apply (f_equal (@length ascii)) in Hlbl.
    unfold toLowerCase in Hlbl. now rewrite length_map in Hlbl. }
  unfold dateAt.
  rewrite firstn_app, Hl, Nat.sub_diag, firstn_all2 by lia.
  simpl firstn. rewrite app_nil_r, Hlbl.
  change (startsWith "date"%string "date"%string) with true. cbv iota.
  rewrite skipn_app, Hl, Nat.sub_diag, skipn_all2 by lia.
  simpl skipn. simpl app at 1.
  rewrite dropWhile_label; [| exact Hws |].
  - rewrite (dateComponent_ok d1 s1 _ H1 Hs1), (dateComponent_ok d2 s2 _ H2 Hs2).
    unfold exactDigits.
    rewrite takeDigits_all; [| exact Hy | lia | left; exact Hylen].
    rewrite Hylen. reflexivity.
  - destruct H1 as [Hlen Hd].
    destruct d1 as [|c d1]; [simpl in Hlen; lia|].
    simpl in Hd. apply andb_true_iff in Hd as [Hc _].
    simpl. now apply digit_not_colonOrSpace.
Qed.

Lemma dateMatch_head s g : dateAt s = Some g -> dateMatch s = Some g.
Proof. intros H. destruct s; cbn [dateMatch]; now rewrite H. Qed.

Lemma label_of_firstn s :
  startsWith (toLowerCase (firstn 4 s)) "date"%string = true ->
  toLowerCase (firstn 4 s) = "date"%string /\ length (firstn 4 s) = 4.
Proof.
  destruct s as [|a [|b [|c [|d s]]]];
    cbn [firstn toLowerCase map]; cbv [Js.lit list_ascii_of_string];
    cbn [startsWith]; unfold eqc; intros H;
    repeat match type of H with
           | (_ && _)%bool = true =>
               let E := fresh "E" in apply andb_true_iff in H as [E H]
           end;
    try discriminate H.
  apply Ascii.eqb_eq in E, E0, E1, E2.
  now rewrite <- E, <- E0, <- E1, <- E2.
Qed.

Lemma dropWhile_split (p : ascii -> bool) s :
  exists ws, s = ws ++ dropWhile p s /\ forallb p ws = true.
Proof.
  induction s as [|c s (ws & Hs & Hw)]; [exists []; auto|].
  cbn [dropWhile]. destruct (p c) eqn:E.
  - exists (c :: ws). simpl. rewrite E, Hw. split; [now f_equal | reflexivity].
  - exists []. auto.
Qed.

Lemma dateComponent_split s g r :
  dateComponent s = Some (g, r) ->
  exists sep, s = g ++ sep :: r /\ shortNumber g /\ isDateSep sep = true.
Proof.
  unfold dateComponent. destruct (takeDigits 2 s) as [ds rest] eqn:E.
  destruct (takeDigits_greedy _ _ _ _ E) as (Hs & Hd & Hl & _).
  destruct ds as [|c ds]; [discriminate|].
  destruct rest as [|sep rest]; [discriminate|].
  destruct (isDateSep sep) eqn:Esep; [|discriminate].
  intros H. inversion H; subst g r. exists sep.
  repeat split; auto. simpl. lia.
Qed.

Lemma exactDigits_split n s g r :
  exactDigits n s = Some (g, r) ->
  s = g ++ r /\ length g = n /\ forallb isDigit g = true.
Proof.
  unfold exactDigits. destruct (takeDigits n s) as [ds rest] eqn:E.
  destruct (takeDigits_greedy _ _ _ _ E) as (Hs & Hd & _ & _).
  destruct (length ds =? n)%nat eqn:El; [|discriminate].
  intros H. inversion H; subst. apply Nat.eqb_eq in El. auto.
Qed.

(** One attempt of the pattern succeeds exactly on a text that opens with
    a labelled date, and its groups are the components as written. *)
Lemma dateAt_opens s g1 g2 g3 :
  dateAt s = Some (g1, g2, g3) <-> OpensWithDate s g1 g2 g3.
Proof.
  split.
  - unfold dateAt.
    destruct (startsWith _ _) eqn:El; [|discriminate].
    apply label_of_firstn in El as [Hlbl _].
    destruct (dropWhile_split isColonOrSpace (skipn 4 s)) as (ws & Hws & Hw).
    destruct (dateComponent _) as [[a r1]|] eqn:E1; [|discriminate].
    destruct (dateComponent r1) as [[b r2]|] eqn:E2; [|discriminate].
    destruct (exactDigits 4 r2) as [[c r3]|] eqn:E3; [|discriminate].
    intros H. inversion H; subst a b c. clear H.
    apply dateComponent_split in E1 as (s1 & H1 & Hg1 & Hs1).
    apply dateComponent_split in E2 as (s2 & H2 & Hg2 & Hs2).
    apply exactDigits_split in E3 as (H3 & Hl3 & Hd3).
    exists (firstn 4 s), ws, s1, s2, r3.
    refine (conj _ (conj Hlbl (conj Hw (conj Hg1 (conj Hs1 (conj Hg2
              (conj Hs2 (conj Hl3 Hd3)))))))).
    rewrite <- H3, <- H2, <- H1, <- Hws. symmetry. apply firstn_skipn.
  - intros (lbl & ws & s1 & s2 & rest & -> & Hlbl & Hws & H1 & Hs1 & H2 & Hs2
              & Hyr).
    now apply dateAt_labelled.
Qed.

Lemma dateMatch_first before : forall s g,
  NoDateOpensIn before s ->
  dateAt s = Some g ->
  dateMatch (before ++ s) = Some g.
Proof.
  induction before as [|c before IH]; intros s g Hno Hat.
  - now apply dateMatch_head.
  - cbn [app dateMatch].
    destruct (dateAt (c :: before ++ s)) as [[[a b] y]|] eqn:E.
    + exfalso. apply dateAt_opens in E.
      exact (Hno [] (c :: before) a b y eq_refl ltac:(discriminate) E).
    + apply IH; [|exact Hat].
      intros p q a b y Hsplit Hq. apply (Hno (c :: p) q a b y); [|exact Hq].
      simpl. now f_equal.
Qed.

Lemma dateMatch_none text :
  (forall p q first second year,
      text = p ++ q -> ~ OpensWithDate q first second year) ->
  dateMatch text = None.
Proof.
  induction text as [|c text IH]; intros Hno.
  - cbn [dateMatch]. destruct (dateAt []) as [[[a b] y]|] eqn:E; [|reflexivity].
    exfalso. apply dateAt_opens in E. exact (Hno [] [] a b y eq_refl E).
  - cbn [dateMatch].
    destruct (dateAt (c :: text)) as [[[a b] y]|] eqn:E.
    + exfalso. apply dateAt_opens in E.
      exact (Hno [] (c :: text) a b y eq_refl E).
    + apply IH. intros p q a b y Hsplit.
      apply (Hno (c :: p) q a b y). simpl. now f_equal.
Qed.

Lemma includes_suffix p q w :
  includes q w = true -> includes (p ++ q) w = true.
Proof.
  induction p as [|c p IH]; intros H; [exact H|].
  cbn [app includes]. rewrite (IH H). apply orb_true_r.
Qed.

Lemma startsWith_app l r : startsWith (l ++ r) l = true.
Proof.
  induction l as [|c l IH]; [now destruct r|].
  cbn [app startsWith]. unfold eqc. now rewrite Ascii.eqb_refl, IH.
Qed.

Lemma includes_prefix l r : includes (l ++ r) l = true.
Proof.
  destruct (l ++ r) as [|c s] eqn:E; cbn [includes];
    now rewrite <- E, startsWith_app.
Qed.

(** A text that opens with a labelled date somewhere contains the word
    "date" in some letter case. *)
Lemma opensWithDate_label p q first second year :
  OpensWithDate q first second year ->
  includes (toLowerCase (p ++ q)) "date"%string = true.
Proof.
  intros (lbl & ws & s1 & s2 & rest & -> & Hlbl & _).
  unfold toLowerCase. rewrite map_app. apply includes_suffix.
  rewrite map_app. fold (toLowerCase lbl). rewrite Hlbl.
  apply includes_prefix.
Qed.

(** C5 (as amended). In a date-field segment, the first place of the
    recognised text that opens with a labelled date - the label "Date" in
    any letter case, then any colons and white space, then one or two
    digits, a separator [/] or [-], one or two digits, a separator and four
    digits - is matched, wherever in the text it stands, and the date is
    stored as year-second-first: the first component, padded to two digits,
    stands in the last (day) position and the second in the middle (month)
    position.  A text in which no place opens with a labelled date - in
    particular a text that does not contain the label, whatever dates it
    holds - is not matched, and nothing is stored. *)
Theorem date_field_day_first
    (segment : FieldSegment) (fields : Fields) (issues : list str) :
  fieldType segment = date_field ->
  (forall before s first second year,
      OpensWithDate s first second year ->
      NoDateOpensIn before s ->
      processFieldSegment segment (before ++ s) fields issues
      = (setDate (year ++ "-"%string ++ padStart2 second ++ "-"%string
                    ++ padStart2 first) fields,
         issues))
  /\ (forall text,
        (forall p q first second year,
            text = p ++ q -> ~ OpensWithDate q first second year) ->
        processFieldSegment segment text fields issues = (fields, issues))
  /\ (forall text,
        includes (toLowerCase text) "date"%string = false ->
        processFieldSegment segment text fields issues = (fields, issues)).
Proof.
  intros Hty. unfold processFieldSegment. rewrite Hty. unfold extractDate.
  split; [|split].
  - intros before s first second year Hopen Hno.
    pose proof Hopen as Hat. apply dateAt_opens in Hat.
    rewrite (dateMatch_first before s _ Hno Hat).
    destruct Hopen as (_ & _ & _ & _ & _ & _ & _ & _ & _ & _ & _ & _
                       & [Hylen _]).
    destruct year as [|c year]; [discriminate Hylen|]. reflexivity.
  - intros text Hno. now rewrite (dateMatch_none text Hno).
  - intros text Hlabel. rewrite dateMatch_none; [reflexivity|].
    intros p q first second year -> Hopen.
    apply (opensWithDate_label p) in Hopen. congruence.
Qed.

Lemma date_field_day_first_witness :
  processFieldSegment (sampleSegment "form_1_0_date"%string date_field [])
    ("Name: Jane "%string ++ "DATE: 3/15-2024 signed"%string) emptyFields []
  = (setDate ("2024"%string ++ "-"%string ++ padStart2 "15"%string
                ++ "-"%string ++ padStart2 "3"%string) emptyFields,
     [])
  /\ processFieldSegment (sampleSegment "form_1_0_date"%string date_field [])
       "03/15/2024"%string emptyFields []
     = (emptyFields, []).
Proof.
  split.
  - apply (proj1 (date_field_day_first
                    (sampleSegment "form_1_0_date"%string date_field [])
                    emptyFields [] eq_refl)).
    + exists (Js.lit "DATE"), (Js.lit ": "), "/"%char, "-"%char,
        (Js.lit " signed").
      repeat split; try reflexivity; simpl; lia.
    + intros p q a b y Hsplit Hq Hopen. apply dateAt_opens in Hopen.
      cbv [Js.lit list_ascii_of_string] in Hsplit.
      repeat (destruct p as [|? p];
              [ simpl in Hsplit; subst q; vm_compute in Hopen;
                discriminate Hopen
              | simpl in Hsplit; injection Hsplit as <- Hsplit ]).
      destruct p; [|discriminate Hsplit].
      simpl in Hsplit. subst q. now apply Hq.
  - apply (proj2 (proj2 (date_field_day_first
                           (sampleSegment "form_1_0_date"%string date_field [])
                           emptyFields [] eq_refl))).
    reflexivity.
Defined.

(** The claim C5 as the specification states it fails: the stored date
    carries the first component in the day position, and a date without
    the "Date" label is not matched at all. *)
Lemma date_field_month_first_fails :
  date (fst (processFieldSegment
               (sampleSegment "form_1_0_date"%string date_field [])
               "Date: 03/15/2024"%string emptyFields []))
  = "2024-15-03"%string
  /\ Js.lit "2024-15-03" <> Js.lit "2024-03-15"
  /\ date (fst (processFieldSegment
                  (sampleSegment "form_1_0_date"%string date_field [])
                  "03/15/2024"%string emptyFields []))
     = []
  /\ date (fst (processFieldSegment
                  (sampleSegment "form_1_0_date"%string date_field [])
                  "03-15-2024"%string emptyFields []))
     = [].
Proof. repeat split; try reflexivity. discriminate. Qed.

End ExtractorFacts.

(* ===================================================================== *)
(** ** Extractor: validation issues on the two extraction paths *)
(* ===================================================================== *)

Module IssueFacts.
Import Js Extractor ExtractorSpec.

Example email_ok : isValidEmail "jane.doe@example.org"%string = true.
Proof. reflexivity. Qed.

Example email_no_dot : isValidEmail "jane@example"%string = false.
Proof. reflexivity. Qed.

Example email_two_ats : isValidEmail "jane@doe@example.org"%string = false.
Proof. reflexivity. Qed.

Example email_dot_last : isValidEmail "jane@example."%string = false.
Proof. reflexivity. Qed.

(** [validateExtractedData], which the whole-page path ([parseFormText])
    calls on its field bag, appends an issue for each of the five
    conditions and keeps the issues it was given. *)
Lemma validateExtractedData_complete (f : Fields) (given : list str) (c : Q) :
  (length (donorName f) < 2 ->
   In nameIssue (validateExtractedData f given c))
  /\ (email f <> [] -> isValidEmail (email f) = false ->
      In emailIssue (validateExtractedData f given c))
  /\ (phone f = [] -> In phoneIssue (validateExtractedData f given c))
  /\ ((amount f <= 0)%Z -> In amountIssue (validateExtractedData f given c))
  /\ ((c < 80)%Q -> In confidenceIssue (validateExtractedData f given c))
  /\ incl given (validateExtractedData f given c).
Proof.
  unfold validateExtractedData.
  destruct (length (donorName f) <? 2)%nat eqn:En;
    [apply Nat.ltb_lt in En | apply Nat.ltb_ge in En];
  (destruct (email f) as [|e0 em] eqn:Ee;
   [|destruct (isValidEmail (e0 :: em)) eqn:Ev; cbn [negb]]);
  destruct (phone f) as [|p0 ph] eqn:Ep;
  (destruct (amount f <=? 0)%Z eqn:Ea;
   [apply Z.leb_le in Ea | apply Z.leb_gt in Ea]);
  destruct (Qlt_le_dec c 80) as [Ec | Ec];
  repeat split; intros;
  try lia; try congruence;
  try (exfalso; eapply Qlt_not_le; eassumption);
  try (unfold incl; intros);
  repeat (apply in_or_app; first [ right; simpl; tauto | left ]);
  try assumption.
Qed.

(** C1, on the segment path: for a form whose only amount-like text is
    "$5", [extractFromFieldSegments] emits the record with [amount = 0] and
    an empty issue list: the amount issue (and the issues for the missing
    donor name and phone) that [validateExtractedData] appends on the
    whole-page path are not produced, because the segment path never calls
    it.  In the browser, with the engine initialised, this record is what
    [extractFormData] returns for the form. *)
Theorem segment_path_skips_validation :
  let record := extractFromFieldSegments readsFiveDollars fiveDollarForm 1 in
  amount (fields record) = 0%Z
  /\ donorName (fields record) = []
  /\ phone (fields record) = []
  /\ issues record = []
  /\ existsb (streq amountIssue) (issues record) = false
  /\ (recordConfidence record == 95 # 100)%Q
  /\ In amountIssue (validateExtractedData (fields record) [] 95)
  /\ extractFormData readsFiveDollars true None [fiveDollarForm]
     = inr [record].
Proof.
  cbv zeta. repeat split; try reflexivity.
  - match goal with |- In _ (validateExtractedData ?f _ _) =>
      destruct (validateExtractedData_complete f [] 95) as (_ & _ & _ & Ha & _)
    end.
    apply Ha. vm_compute. discriminate.
Qed.

(** The record emitted for a form without segments carries the failure
    message as its only issue. *)
Lemma failed_form_issues (recognize : Buffer -> option (str * Q)) form n :
  fieldSegments form = [] ->
  issues (extractSingleFormData recognize form n)
  = [Js.lit "Failed to process form: "
       ++ Js.lit "No field segments available and no full form image provided"].
Proof. intros H. unfold extractSingleFormData. now rewrite H. Qed.

(** Issues never prevent emission: every form yields exactly one record, in
    order. *)
Lemma extractFormData_length (recognize : Buffer -> option (str * Q))
    windowDefined initializeOCREngine forms records :
  extractFormData recognize windowDefined initializeOCREngine forms
  = inr records ->
  length records = length forms.
Proof.
  unfold extractFormData.
  destruct windowDefined; [|discriminate].
  destruct initializeOCREngine; [discriminate|].
  cbn [negb]. intros [= <-]. generalize 0.
  induction forms as [|f rest IH]; intros i; simpl; auto.
Qed.

End IssueFacts.

(* ===================================================================== *)
(** ** The two card-brand rule sets *)
(* ===================================================================== *)

Module BrandFacts.
Import Js Extractor ExtractorSpec JsFacts ExtractorFacts.

Lemma streq_eq a : forall b, streq a b = true -> a = b.
Proof.
  induction a as [|c a IH]; intros [|d b] H; try discriminate H; auto.
  simpl in H. apply andb_true_iff in H as [Hc H].
  apply Ascii.eqb_eq in Hc. subst. f_equal. now apply IH.
Qed.

Lemma digit_in c : isDigit c = true -> In c digitChars.
Proof.
  intros H. unfold isDigit in H.
  apply andb_true_iff in H as [H1 H2].
  apply N.leb_le in H1. apply N.leb_le in H2.
  rewrite <- (ascii_N_embedding c). unfold code in *.
  assert (Hc : (N_of_ascii c = 48 \/ N_of_ascii c = 49 \/ N_of_ascii c = 50
                \/ N_of_ascii c = 51 \/ N_of_ascii c = 52 \/ N_of_ascii c = 53
                \/ N_of_ascii c = 54 \/ N_of_ascii c = 55 \/ N_of_ascii c = 56
                \/ N_of_ascii c = 57)%N) by lia.
  repeat (destruct Hc as [-> | Hc]; [simpl; tauto|]).
  rewrite Hc. simpl. tauto.
Qed.

Lemma prefix_in a b c d :
  isDigit a = true -> isDigit b = true -> isDigit c = true ->
  isDigit d = true -> In [a; b; c; d] prefixes4.
Proof.
  intros Ha Hb Hc Hd. unfold prefixes4.
  apply in_flat_map. exists a. split; [now apply digit_in|].
  apply in_flat_map. exists b. split; [now apply digit_in|].
  apply in_flat_map. exists c. split; [now apply digit_in|].
  apply in_map_iff. exists d. split; [reflexivity | now apply digit_in].
Qed.

(** The exhaustive comparison of the rule sets on the 10^4 leading
    four-digit groups. *)
Lemma agreeOn_all : forallb agreeOn prefixes4 = true.
Proof. vm_compute. reflexivity. Qed.

Lemma agreeOn_digits a b c d :
  isDigit a = true -> isDigit b = true -> isDigit c = true ->
  isDigit d = true -> agreeOn [a; b; c; d] = true.
Proof.
  intros Ha Hb Hc Hd.
  pose proof agreeOn_all as H. rewrite forallb_forall in H.
  apply H. now apply prefix_in.
Qed.

(** Each rule set looks at the four leading digits only. *)

Lemma detectCardType_prefix a b c d rest :
  isDigit a = true -> isDigit b = true -> isDigit c = true ->
  isDigit d = true ->
  Cards.detectCardType (a :: b :: c :: d :: rest)
  = Cards.detectCardType [a; b; c; d].
Proof.
  intros Ha Hb Hc Hd. unfold Cards.detectCardType, stripNonDigits.
  cbn [filter]. rewrite Ha, Hb, Hc, Hd. reflexivity.
Qed.

Lemma brandOfNumber_prefix a b c d rest :
  isDigit a = true -> isDigit b = true -> isDigit c = true ->
  isDigit d = true ->
  brandOfNumber (a :: b :: c :: d :: rest) = brandOfNumber [a; b; c; d].
Proof.
  intros Ha Hb Hc Hd. unfold brandOfNumber.
  cbn [filter].
  rewrite (digit_not_space _ Ha), (digit_not_space _ Hb),
    (digit_not_space _ Hc), (digit_not_space _ Hd).
  reflexivity.
Qed.

Lemma binBrand_prefix a b c d rest :
  binBrand (a :: b :: c :: d :: rest) = binBrand [a; b; c; d].
Proof. reflexivity. Qed.

(** *** The number pattern on a text holding one 16-digit number *)

Lemma exactDigits_app n ds r :
  forallb isDigit ds = true -> length ds = n ->
  exactDigits n (ds ++ r) = Some (ds, r).
Proof.
  intros Hd Hn. unfold exactDigits.
  rewrite takeDigits_all; [| exact Hd | lia | now left].
  now rewrite Hn, Nat.eqb_refl.
Qed.

Lemma exactDigits_nondigit n c r :
  isDigit c = false -> exactDigits (S n) (c :: r) = None.
Proof. intros H. unfold exactDigits. cbn [takeDigits]. now rewrite H. Qed.

Lemma cardNumberAt_nondigit c r :
  isDigit c = false -> cardNumberAt (c :: r) = None.
Proof.
  intros H. unfold cardNumberAt, spacedCardAt.
  now rewrite !exactDigits_nondigit.
Qed.

Lemma space_prefix_digits (g r : str) :
  fourDigits g ->
  takeWhile isSpace (g ++ r) = [] /\ dropWhile isSpace (g ++ r) = g ++ r.
Proof.
  intros [Hlen Hd]. destruct g as [|c g]; [discriminate Hlen|].
  cbn [forallb] in Hd. apply andb_true_iff in Hd as [Hc _].
  cbn [app takeWhile dropWhile]. now rewrite (digit_not_space _ Hc).
Qed.

Lemma spacedCardAt_groups a b c d post :
  fourDigits a -> fourDigits b -> fourDigits c -> fourDigits d ->
  spacedCardAt (a ++ b ++ c ++ d ++ post) = Some (a ++ b ++ c ++ d).
Proof.
  intros Ha Hb Hc Hd. unfold spacedCardAt.
  destruct (space_prefix_digits b (c ++ d ++ post) Hb) as [Tb Db].
  destruct (space_prefix_digits c (d ++ post) Hc) as [Tc Dc].
  destruct (space_prefix_digits d post Hd) as [Td Dd].
  destruct Ha as [La Da], Hb as [Lb Hb], Hc as [Lc Hc], Hd as [Ld Hd].
  rewrite (exactDigits_app 4 a _ Da La), Tb, Db.
  rewrite (exactDigits_app 4 b _ Hb Lb), Tc, Dc.
  rewrite (exactDigits_app 4 c _ Hc Lc), Td, Dd.
  rewrite (exactDigits_app 4 d _ Hd Ld).
  reflexivity.
Qed.

Lemma sixteen_split (s : str) :
  length s = 16 -> forallb isDigit s = true ->
  exists a b c d,
    s = a ++ b ++ c ++ d
    /\ fourDigits a /\ fourDigits b /\ fourDigits c /\ fourDigits d.
Proof.
  intros Hlen Hd.
  exists (firstn 4 s), (firstn 4 (skipn 4 s)), (firstn 4 (skipn 8 s)),
    (skipn 12 s).
  assert (Hf : forall n m, n + m <= 16 ->
             fourDigits (firstn 4 (skipn n s)) \/ m < 4).
  { intros n m Hnm. destruct (Nat.lt_ge_cases m 4) as [|Hm]; [now right|left].
    split.
    - rewrite length_firstn, length_skipn. lia.
    - now apply forallb_firstn, forallb_skipn. }
  repeat split.
  - rewrite <- (firstn_skipn 4 s) at 1. f_equal.
    rewrite <- (firstn_skipn 4 (skipn 4 s)) at 1. f_equal.
    rewrite skipn_skipn. simpl Nat.add.
    rewrite <- (firstn_skipn 4 (skipn 8 s)) at 1. f_equal.
    rewrite skipn_skipn. reflexivity.
  - rewrite length_firstn. lia.
  - now apply forallb_firstn.
  - rewrite length_firstn, length_skipn. lia.
  - now apply forallb_firstn, forallb_skipn.
  - rewrite length_firstn, length_skipn. lia.
  - now apply forallb_firstn, forallb_skipn.
  - rewrite length_skipn. lia.
  - now apply forallb_skipn.
Qed.

Lemma cardNumberAt_sixteen s post :
  length s = 16 -> forallb isDigit s = true ->
  cardNumberAt (s ++ post) = Some s.
Proof.
  intros Hlen Hd.
  destruct (sixteen_split s Hlen Hd) as (a & b & c & d & -> & Ha & Hb & Hc & Hdd).
  unfold cardNumberAt.
  rewrite <- !app_assoc.
  now rewrite (spacedCardAt_groups a b c d post Ha Hb Hc Hdd).
Qed.

Lemma cardNumberScan_skip pre : forall post,
  cardNumberScan (pre ++ post) (length pre) = cardNumberScan post 0.
Proof. induction pre as [|c pre IH]; intros post; simpl; auto. Qed.

Lemma cardNumberScan_nodigit pre : forall rest,
  noDigit pre = true ->
  cardNumberScan (pre ++ rest) 0 = cardNumberScan rest 0.
Proof.
  induction pre as [|c pre IH]; intros rest H; [reflexivity|].
  unfold noDigit in H. cbn [forallb] in H.
  apply andb_true_iff in H as [Hc H]. apply negb_true_iff in Hc.
  cbn [app cardNumberScan].
  rewrite (cardNumberAt_nondigit _ _ Hc). now apply IH.
Qed.

Lemma cardNumberMatches_single pre s post :
  length s = 16 -> forallb isDigit s = true ->
  noDigit pre = true -> noDigit post = true ->
  cardNumberMatches (pre ++ s ++ post) = [s].
Proof.
  intros Hlen Hd Hpre Hpost. unfold cardNumberMatches.
  rewrite (cardNumberScan_nodigit pre _ Hpre).
  pose proof (cardNumberAt_sixteen s post Hlen Hd) as Hat.
  destruct s as [|c s]; [discriminate Hlen|].
  cbn [app cardNumberScan] in *. rewrite Hat. f_equal.
  replace (length (c :: s) - 1) with (length s) by (simpl; lia).
  rewrite cardNumberScan_skip.
  rewrite <- (app_nil_r post).
  now rewrite (cardNumberScan_nodigit post [] Hpost).
Qed.

(** C4 (as amended). On the card BIN ranges of the glossary the two rule
    sets agree: for a 16-digit number [s] whose leading digits are 4, 51-55,
    2221-2720, 34, 37, 6011, 65, 644-649 or 622, and a text that holds [s]
    between digit-free surroundings and mentions no brand, the shared
    [detectCardType] and the Extractor's [detectCreditCardType] both return
    the brand the glossary gives. *)
Theorem brand_rules_agree_on_bin_ranges (pre s post brand : str) :
  length s = 16 -> forallb isDigit s = true ->
  noDigit pre = true -> noDigit post = true ->
  keywordBrand (toLowerCase (pre ++ s ++ post)) = None ->
  binBrand s = Some brand ->
  Cards.detectCardType s = brand
  /\ cardType (detectCreditCardType (pre ++ s ++ post)) = brand.
Proof.
  intros Hlen Hd Hpre Hpost Hkw Hbin.
  unfold detectCreditCardType.
  rewrite Hkw, (cardNumberMatches_single pre s post Hlen Hd Hpre Hpost).
  cbn [firstBrand].
  destruct s as [|a [|b [|c [|d rest]]]]; try discriminate Hlen.
  cbn [forallb] in Hd.
  apply andb_true_iff in Hd as [Ha Hd]. apply andb_true_iff in Hd as [Hb Hd].
  apply andb_true_iff in Hd as [Hc Hd]. apply andb_true_iff in Hd as [Hdd _].
  rewrite (detectCardType_prefix a b c d rest Ha Hb Hc Hdd).
  rewrite (brandOfNumber_prefix a b c d rest Ha Hb Hc Hdd).
  rewrite binBrand_prefix in Hbin.
  pose proof (agreeOn_digits a b c d Ha Hb Hc Hdd) as Hagree.
  unfold agreeOn in Hagree. rewrite Hbin in Hagree.
  apply andb_true_iff in Hagree as [Hutil Hext].
  split; [now apply streq_eq|].
  destruct (brandOfNumber [a; b; c; d]) as [r|]; [|discriminate Hext].
  now apply streq_eq.
Qed.

Lemma brand_rules_agree_on_bin_ranges_witness :
  Cards.detectCardType "5500000000000004"%string = "Mastercard"%string
  /\ cardType (detectCreditCardType
                 ("Account No: "%string ++ "5500000000000004"%string
                    ++ " (signed)"%string))
     = "Mastercard"%string.
Proof.
  apply brand_rules_agree_on_bin_ranges; reflexivity.
Defined.

(** The claim C4 as the specification states it fails: on the 16-digit
    number 6200000000000005 the shared table answers UnionPay and the
    Extractor's rule answers Discover; on 5011111111111111 the table knows
    no brand and the Extractor answers Mastercard. *)
Lemma brand_rules_differ :
  (length (Js.lit "6200000000000005") = 16
   /\ forallb isDigit (Js.lit "6200000000000005") = true
   /\ keywordBrand (toLowerCase (Js.lit "6200000000000005")) = None
   /\ Cards.detectCardType "6200000000000005"%string = "UnionPay"%string
   /\ cardType (detectCreditCardType "6200000000000005"%string)
      = "Discover"%string
   /\ Cards.detectCardType "6200000000000005"%string
      <> cardType (detectCreditCardType "6200000000000005"%string))
  /\ (Cards.detectCardType "5011111111111111"%string = "Unknown"%string
      /\ cardType (detectCreditCardType "5011111111111111"%string)
         = "Mastercard"%string).
Proof. repeat split; try reflexivity. vm_compute. discriminate. Qed.

End BrandFacts.

(* ===================================================================== *)
(** ** Preprocessor: the MIME gate and the enhancement chain *)
(* ===================================================================== *)

Module PreprocessorFacts.
Import Js Preprocessor PreprocessorSamples PreprocessorNotions.

Example enhance_ok :
  enhanceImageOk jpegPage
  = {| imageBuffer := [137; 2480; 3508; 7; 9]%N; width := 2480;
       height := 3508; pageNumber := 1 |}.
Proof. reflexivity. Qed.

Example process_pdf :
  option_map (fun r => match r with
                       | inr images => map pageNumber images
                       | inl _ => []
                       end) (processDocumentOk 10 pdfDocument)
  = Some [1; 2; 3].
Proof. reflexivity. Qed.

Example process_text :
  processDocumentOk 10 textDocument
  = Some (inl (PreprocessingFailed (UnsupportedFileType "text/plain"%string))).
Proof. reflexivity. Qed.

Section WithCollaborators.

Variable Image : Type.
Variable read : Buffer -> option Image.
Variable getBuffer : Image -> option Buffer.
Variable imageWidth imageHeight : Image -> nat.
Variable rotate : Q -> Image -> option Image.
Variable contrast brightness : Q -> Image -> option Image.
Variable blur : nat -> Image -> option Image.
Variable resize : nat -> nat -> Image -> option Image.
Variable convert : Buffer -> nat -> ConvertResult.
Variable readFile : str -> option Buffer.
Variable unlink : str -> bool.

Let size := getImageSize Image read imageWidth imageHeight.
Let deskew := deskewImage Image read getBuffer rotate.
Let optimize := optimizeContrast Image read getBuffer contrast brightness.
Let denoise := reduceNoise Image read getBuffer blur.
Let standardize := standardizeResolution Image read getBuffer resize.
Let enhance :=
  enhanceImage Image read getBuffer imageWidth imageHeight rotate contrast
    brightness blur resize.
Let steps :=
  enhanceSteps Image read getBuffer imageWidth imageHeight rotate contrast
    brightness blur resize.
Let loop :=
  convertLoop Image read imageWidth imageHeight convert readFile unlink.
Let process :=
  processDocument Image read getBuffer imageWidth imageHeight rotate contrast
    brightness blur resize convert readFile unlink.

Lemma enhanceSteps_unfold image :
  steps image
  = (b1 <- deskew (imageBuffer image) ;;
     b2 <- optimize b1 ;;
     b3 <- denoise b2 ;;
     b4 <- standardize b3 ;;
     sz <- size b4 ;;
     Some {| imageBuffer := b4; width := fst sz; height := snd sz;
             pageNumber := pageNumber image |}).
Proof. reflexivity. Qed.

Lemma enhance_pageNumber image : pageNumber (enhance image) = pageNumber image.
Proof.
  unfold enhance, enhanceImage. fold steps. rewrite enhanceSteps_unfold.
  destruct (deskew (imageBuffer image)) as [b1|]; [|reflexivity]. cbn [bind].
  destruct (optimize b1) as [b2|]; [|reflexivity]. cbn [bind].
  destruct (denoise b2) as [b3|]; [|reflexivity]. cbn [bind].
  destruct (standardize b3) as [b4|]; [|reflexivity]. cbn [bind].
  destruct (size b4) as [sz|]; reflexivity.
Qed.

(** C7 (as amended). The four enhancement steps run in the fixed order
    deskew, contrast/brightness, noise reduction, resolution: when all of
    them and the final read of the size succeed, the page carries the
    buffer produced by the last step; when any of them fails, the result is
    the image [enhanceImage] was given, unchanged (the output of the steps
    that had succeeded is dropped).  Either way a page comes back, with its
    page number. *)
Theorem enhanceImage_all_or_nothing (image : ProcessedImage) :
  (forall b1 b2 b3 b4 w h,
      deskew (imageBuffer image) = Some b1 ->
      optimize b1 = Some b2 ->
      denoise b2 = Some b3 ->
      standardize b3 = Some b4 ->
      size b4 = Some (w, h) ->
      enhance image
      = {| imageBuffer := b4; width := w; height := h;
           pageNumber := pageNumber image |})
  /\ (deskew (imageBuffer image) = None -> enhance image = image)
  /\ (forall b1,
        deskew (imageBuffer image) = Some b1 ->
        optimize b1 = None -> enhance image = image)
  /\ (forall b1 b2,
        deskew (imageBuffer image) = Some b1 -> optimize b1 = Some b2 ->
        denoise b2 = None -> enhance image = image)
  /\ (forall b1 b2 b3,
        deskew (imageBuffer image) = Some b1 -> optimize b1 = Some b2 ->
        denoise b2 = Some b3 ->
        standardize b3 = None -> enhance image = image)
  /\ (forall b1 b2 b3 b4,
        deskew (imageBuffer image) = Some b1 -> optimize b1 = Some b2 ->
        denoise b2 = Some b3 -> standardize b3 = Some b4 ->
        size b4 = None -> enhance image = image)
  /\ pageNumber (enhance image) = pageNumber image.
Proof.
  repeat split; try apply enhance_pageNumber; intros;
    unfold enhance, enhanceImage; fold steps; rewrite enhanceSteps_unfold;
    repeat match goal with
      | H : _ = Some _ |- _ => rewrite H; cbn [bind]; clear H
      | H : _ = None |- _ => rewrite H; cbn [bind]; clear H
      end;
    reflexivity.
Qed.

(** *** The page loop *)

Lemma numbered_snoc images b w h :
  numbered images ->
  numbered (images ++ [{| imageBuffer := b; width := w; height := h;
                          pageNumber := S (length images) |}]).
Proof.
  unfold numbered. intros H.
  rewrite map_app, length_app, H. simpl length.
  rewrite Nat.add_1_r, seq_S. reflexivity.
Qed.

(** The loop keeps the pages numbered 1, 2, ... in order, and leaves
    within [fuel] turns when the rasteriser gives no page file for some page
    it reaches by then. *)
Lemma convertLoop_ends pdf : forall fuel images,
  numbered images ->
  (exists k, length images < k <= length images + fuel
             /\ forall path, convert pdf k <> ConvertPath path) ->
  exists result,
    loop fuel pdf (S (length images)) images = Some result
    /\ numbered result.
Proof.
  induction fuel as [|fuel IH]; intros images Hnum (k & Hk & Hstop).
  - lia.
  - unfold loop. cbn [convertLoop]. fold loop. fold size.
    destruct (convert pdf (S (length images))) as [| |path] eqn:Hc;
      try (exists images; split; [reflexivity | exact Hnum]).
    destruct (readFile path) as [buffer|];
      [|exists images; split; [reflexivity | exact Hnum]].
    destruct (size buffer) as [sz|];
      [|exists images; split; [reflexivity | exact Hnum]].
    pose proof (numbered_snoc images buffer (fst sz) (snd sz) Hnum) as Hnum'.
    destruct (unlink path); [|eexists; split; [reflexivity | exact Hnum']].
    set (images' := images ++ _) in *.
    assert (Hlen : length images' = S (length images))
      by (unfold images'; rewrite length_app; simpl; lia).
    rewrite <- Hlen. apply IH; [exact Hnum'|].
    exists k. split; [|exact Hstop].
    assert (k <> S (length images)) by (intros ->; exact (Hstop path Hc)).
    lia.
Qed.

Lemma map_enhance_numbered images :
  numbered images -> numbered (map enhance images).
Proof.
  unfold numbered. intros H. rewrite map_map, length_map, <- H.
  apply map_ext. intros a. apply enhance_pageNumber.
Qed.

(** The loop returns exactly the pages it could read: when the pages that
    follow the ones already collected are read as [pages] and the
    rasteriser gives no file for the page after them, the loop leaves with
    the collected pages followed by [pages]. *)
Lemma convertLoop_pages pdf : forall pages fuel images,
  Forall2 (pageRead convert readFile unlink size pdf)
    (seq (S (length images)) (length pages)) pages ->
  (forall path,
     convert pdf (S (length images + length pages)) <> ConvertPath path) ->
  length pages < fuel ->
  loop fuel pdf (S (length images)) images = Some (images ++ pages).
Proof.
  induction pages as [|page pages IH]; intros fuel images Hread Hstop Hfuel;
    (destruct fuel as [|fuel]; [simpl in Hfuel; lia|]);
    unfold loop; cbn [convertLoop]; fold loop; fold size.
  - simpl in Hstop. rewrite Nat.add_0_r in Hstop. rewrite app_nil_r.
    destruct (convert pdf (S (length images))) as [| |path] eqn:Hc;
      try reflexivity.
    exfalso. exact (Hstop path eq_refl).
  - cbn [length seq] in Hread.
    apply Forall2_cons_iff in Hread as [(path & Hc & Hr & Hs & Hu & Hn) Hread].
    rewrite Hc, Hr, Hs, Hu. cbn [fst snd].
    assert (Hpage : {| imageBuffer := imageBuffer page; width := width page;
                       height := height page;
                       pageNumber := S (length images) |} = page)
      by (destruct page; simpl in *; now subst).
    rewrite Hpage.
    assert (Hl : length (images ++ [page]) = S (length images))
      by (rewrite length_app; simpl; lia).
    rewrite <- Hl, (IH fuel (images ++ [page])).
    + now rewrite <- app_assoc.
    + now rewrite Hl.
    + intros p. rewrite Hl. cbn [length] in Hstop.
      replace (S (S (length images) + length pages))
        with (S (length images + S (length pages))) by lia.
      apply Hstop.
    + simpl in Hfuel. lia.
Qed.

(** C6 (as amended). A document whose MIME type is neither
    [application/pdf] nor [image/...] makes [processDocument] fail with the
    unsupported-type error, and no page is produced.  For [application/pdf]
    no error is raised, and once the rasteriser gives no file for some page
    the call returns the pages rasterised so far, numbered from 1 in order:
    when pages 1 to n are rasterised, read back, decoded and their
    temporary files removed, and the rasteriser gives no file for page
    n + 1, the list returned is exactly these n pages, each enhanced, in
    page order.
    For [image/...] the unsupported-type error is never raised; the call
    returns one page, numbered 1, when the content decodes, and fails with
    the decoder's error when it does not. *)
Theorem processDocument_mime_gate (fuel : nat) (doc : DocumentData) :
  (streq (mimeType doc) "application/pdf"%string = false ->
   startsWith (mimeType doc) "image/"%string = false ->
   process fuel doc
   = Some (inl (PreprocessingFailed (UnsupportedFileType (mimeType doc)))))
  /\ (streq (mimeType doc) "application/pdf"%string = true ->
      (forall e, process fuel doc <> Some (inl e))
      /\ ((exists k, 1 <= k <= fuel
                     /\ forall path,
                          convert (fileBuffer doc) k <> ConvertPath path) ->
          exists images,
            process fuel doc = Some (inr images) /\ numbered images)
      /\ (forall pages,
            Forall2 (pageRead convert readFile unlink size (fileBuffer doc))
              (seq 1 (length pages)) pages ->
            (forall path,
               convert (fileBuffer doc) (S (length pages))
               <> ConvertPath path) ->
            length pages < fuel ->
            process fuel doc = Some (inr (map enhance pages))))
  /\ (streq (mimeType doc) "application/pdf"%string = false ->
      startsWith (mimeType doc) "image/"%string = true ->
      process fuel doc
      <> Some (inl (PreprocessingFailed (UnsupportedFileType (mimeType doc))))
      /\ (forall sz,
            size (fileBuffer doc) = Some sz ->
            exists image,
              process fuel doc = Some (inr [image])
              /\ pageNumber image = 1)
      /\ (size (fileBuffer doc) = None ->
          process fuel doc
          = Some (inl (PreprocessingFailed CollaboratorError)))).
Proof.
  unfold process, processDocument. fold enhance. split; [|split].
  - intros Hpdf Himg. now rewrite Hpdf, Himg.
  - intros Hpdf. rewrite Hpdf. unfold convertPdfToImages. fold loop.
    split; [|split].
    + intros e. destruct (loop fuel (fileBuffer doc) 1 []); discriminate.
    + intros (k & Hk & Hstop).
      destruct (convertLoop_ends (fileBuffer doc) fuel [] eq_refl)
        as (result & Hres & Hnum).
      { exists k. simpl. split; [lia | exact Hstop]. }
      simpl in Hres. rewrite Hres.
      exists (map enhance result). split; [reflexivity|].
      now apply map_enhance_numbered.
    + intros pages Hread Hstop Hfuel.
      pose proof (convertLoop_pages (fileBuffer doc) pages fuel [] Hread
                    Hstop Hfuel) as Hres.
      simpl in Hres. now rewrite Hres.
  - intros Hpdf Himg. rewrite Hpdf, Himg.
    unfold processImageBuffer. fold size.
    destruct (size (fileBuffer doc)) as [sz|]; cbn [bind map].
    + split; [discriminate|]. split; [|discriminate].
      intros _ _. eexists. split; [reflexivity|]. apply enhance_pageNumber.
    + split; [discriminate|]. split; [discriminate | reflexivity].
Qed.

End WithCollaborators.

Lemma enhanceImage_all_or_nothing_witness :
  enhanceImageOk jpegPage
  = {| imageBuffer := [137; 2480; 3508; 7; 9]%N; width := 2480;
       height := 3508; pageNumber := pageNumber jpegPage |}
  /\ enhanceImageNoContrast jpegPage = jpegPage.
Proof.
  split.
  - apply (proj1 (enhanceImage_all_or_nothing Bitmap decode encodePng cols
                    rows keep keep keep keep resizeTo jpegPage))
      with (b1 := [137; 2; 1; 7; 9]%N) (b2 := [137; 2; 1; 7; 9]%N)
           (b3 := [137; 2; 1; 7; 9]%N);
      reflexivity.
  - apply (proj1 (proj2 (proj2 (enhanceImage_all_or_nothing Bitmap decode
                    encodePng cols rows keep throws keep keep resizeTo
                    jpegPage))))
      with (b1 := [137; 2; 1; 7; 9]%N);
      reflexivity.
Defined.

(** The claim C7 as the specification states it fails: deskewing succeeds
    and re-encodes the JPEG page as PNG, the contrast step throws, and the
    result is not that pre-step image but the page as it was given. *)
Lemma enhanceImage_drops_earlier_steps :
  deskewImage Bitmap decode encodePng keep (imageBuffer jpegPage)
  = Some [137; 2; 1; 7; 9]%N
  /\ optimizeContrast Bitmap decode encodePng throws keep [137; 2; 1; 7; 9]%N
     = None
  /\ imageBuffer (enhanceImageNoContrast jpegPage) = [255; 2; 1; 7; 9]%N
  /\ imageBuffer (enhanceImageNoContrast jpegPage) <> [137; 2; 1; 7; 9]%N.
Proof. repeat split; try reflexivity. discriminate. Qed.

Lemma processDocument_mime_gate_witness :
  processDocumentOk 10 textDocument
  = Some (inl (PreprocessingFailed (UnsupportedFileType "text/plain"%string)))
  /\ (exists images,
        processDocumentOk 10 pdfDocument = Some (inr images)
        /\ numbered images)
  /\ processDocumentOk 10 pdfDocument
     = Some (inr (map enhanceImageOk
                    [samplePage 1; samplePage 2; samplePage 3]))
  /\ (exists image,
        processDocumentOk 10 pngDocument = Some (inr [image])
        /\ pageNumber image = 1).
Proof.
  split; [|split; [|split]].
  - apply (proj1 (processDocument_mime_gate Bitmap decode encodePng cols rows
                    keep keep keep keep resizeTo threePages pageFile unlinkOk
                    10 textDocument)); reflexivity.
  - apply (proj1 (proj2 (proj1 (proj2 (processDocument_mime_gate Bitmap
                    decode encodePng cols rows keep keep keep keep resizeTo
                    threePages pageFile unlinkOk 10 pdfDocument))
                    eq_refl))).
    exists 4. split; [lia | discriminate].
  - apply (proj2 (proj2 (proj1 (proj2 (processDocument_mime_gate Bitmap
                    decode encodePng cols rows keep keep keep keep resizeTo
                    threePages pageFile unlinkOk 10 pdfDocument))
                    eq_refl))
             [samplePage 1; samplePage 2; samplePage 3]).
    + repeat constructor;
        exists (Js.lit "./temp/page.png"); repeat split; reflexivity.
    + discriminate.
    + simpl. lia.
  - apply (proj1 (proj2 (proj2 (proj2 (processDocument_mime_gate Bitmap decode
                    encodePng cols rows keep keep keep keep resizeTo
                    threePages pageFile unlinkOk 10 pngDocument))
                    eq_refl eq_refl)) (2, 1)).
    reflexivity.
Defined.

(** The claim C6 as the specification states it fails: an upload declared
    [image/png] whose content does not decode returns no list of pages; the
    call fails with the decoder's error. *)
Lemma processDocument_image_may_fail :
  startsWith (mimeType emptyPngDocument) "image/"%string = true
  /\ processDocumentOk 10 emptyPngDocument
     = Some (inl (PreprocessingFailed CollaboratorError))
  /\ forall images,
       processDocumentOk 10 emptyPngDocument <> Some (inr images).
Proof. repeat split; try reflexivity. discriminate. Qed.

End PreprocessorFacts.

(* ===================================================================== *)
(** ** Detector: form-level confidence *)
(* ===================================================================== *)

Module DetectorFacts.
Import Js Detector DetectorSpec.

Local Open Scope Q_scope.

Example confidence_sample : calculateFormConfidence sampleForm == 95 # 100.
Proof. reflexivity. Qed.

Example confidence_capped :
  calculateFormConfidence
    [ element text_field 1 (Some (Js.lit "donor_name"));
      element amount_field (9 # 10) (Some (Js.lit "amount")) ] == 1.
Proof. reflexivity. Qed.

Lemma fold_sum elements : forall acc,
  fold_left (fun sum e => sum + confidence e) elements acc
  == acc + sumConfidence elements.
Proof.
  induction elements as [|e rest IH]; intros acc; simpl.
  - ring.
  - rewrite IH. ring.
Qed.

Lemma average_mean elements :
  fold_left (fun sum e => sum + confidence e) elements 0
    / inject_Z (Z.of_nat (length elements))
  == meanConfidence elements.
Proof. unfold meanConfidence. rewrite fold_sum. now rewrite Qplus_0_l. Qed.

Lemma existsb_label keyword elements :
  existsb (labelIncludes keyword) elements = true
  <-> SomeLabelContains keyword elements.
Proof.
  rewrite existsb_exists. unfold SomeLabelContains, labelIncludes. split.
  - intros (e & Hin & H). destruct (label e) as [l|] eqn:El; [|discriminate].
    now exists e, l.
  - intros (e & l & Hin & El & H). exists e. now rewrite El.
Qed.

Lemma hasKeyElements_iff elements :
  existsb (labelIncludes "name"%string) elements
  && existsb (labelIncludes "amount"%string) elements = true
  <-> HasKeyElements elements.
Proof.
  unfold HasKeyElements. now rewrite andb_true_iff, !existsb_label.
Qed.

Lemma in_elementTypes t elements :
  In t (elementTypes elements) <-> exists e, In e elements /\ type e = t.
Proof.
  unfold elementTypes. rewrite nodup_In, in_map_iff. split.
  - intros (e & Ht & Hin). now exists e.
  - intros (e & Hin & Ht). now exists e.
Qed.

Lemma threeTypes_iff elements :
  (3 <=? length (elementTypes elements))%nat = true <-> ThreeTypes elements.
Proof.
  rewrite Nat.leb_le. split.
  - intros Hlen.
    pose proof (NoDup_nodup ElementType_eq_dec (map type elements)) as Hnd.
    fold (elementTypes elements) in Hnd.
    assert (Hin : forall t, In t (elementTypes elements) ->
                            exists e, In e elements /\ type e = t)
      by (intros t; apply in_elementTypes).
    destruct (elementTypes elements) as [|t1 [|t2 [|t3 ts]]];
      try (simpl in Hlen; lia).
    destruct (Hin t1 (or_introl eq_refl)) as (e1 & H1 & E1).
    destruct (Hin t2 (or_intror (or_introl eq_refl))) as (e2 & H2 & E2).
    destruct (Hin t3 (or_intror (or_intror (or_introl eq_refl))))
      as (e3 & H3 & E3).
    exists e1, e2, e3. rewrite E1, E2, E3.
    apply NoDup_cons_iff in Hnd as [Hn1 Hnd].
    apply NoDup_cons_iff in Hnd as [Hn2 _].
    repeat split; auto; intros Heq.
    + apply Hn1. rewrite Heq. simpl; auto.
    + apply Hn1. rewrite Heq. simpl; auto.
    + apply Hn2. rewrite Heq. simpl; auto.
  - intros (e1 & e2 & e3 & H1 & H2 & H3 & N12 & N13 & N23).
    change 3%nat with (length [type e1; type e2; type e3]).
    apply NoDup_incl_length.
    + repeat constructor; simpl; intuition congruence.
    + intros t [<- | [<- | [<- | []]]]; apply in_elementTypes; eauto.
Qed.

Lemma sum_le_length elements :
  (forall e, In e elements -> confidence e <= 1) ->
  sumConfidence elements <= inject_Z (Z.of_nat (length elements)).
Proof.
  induction elements as [|e rest IH]; intros H.
  - simpl. apply Qle_refl.
  - cbn [sumConfidence length].
    rewrite Nat2Z.inj_succ, <- Z.add_1_l, inject_Z_plus.
    apply Qplus_le_compat.
    + apply H. now left.
    + apply IH. intros e' He'. apply H. now right.
Qed.

Lemma mean_le_1 elements :
  elements <> [] ->
  (forall e, In e elements -> confidence e <= 1) ->
  meanConfidence elements <= 1.
Proof.
  intros Hne H. unfold meanConfidence.
  apply Qle_shift_div_r.
  - destruct elements as [|e rest]; [contradiction|].
    change 0 with (inject_Z 0). rewrite <- Zlt_Qlt. simpl length. lia.
  - rewrite Qmult_1_l. now apply sum_le_length.
Qed.

(** C8. For a non-empty list of elements the form-level confidence is the
    mean of the element confidences, plus 0.15 (capped at 1) when some label
    contains "name" and some label contains "amount", plus 0.10 (capped at
    1) when the elements span at least 3 distinct types; with either boost,
    or with element confidences not above 1, the result does not exceed 1.
    For the empty list it is 0. *)
Theorem calculateFormConfidence_spec (elements : list DetectedElement) :
  (elements = [] -> calculateFormConfidence elements == 0)
  /\ (elements <> [] ->
      (HasKeyElements elements -> ThreeTypes elements ->
       calculateFormConfidence elements
       == boosted (1 # 10) (boosted (15 # 100) (meanConfidence elements)))
      /\ (HasKeyElements elements -> ~ ThreeTypes elements ->
          calculateFormConfidence elements
          == boosted (15 # 100) (meanConfidence elements))
      /\ (~ HasKeyElements elements -> ThreeTypes elements ->
          calculateFormConfidence elements
          == boosted (1 # 10) (meanConfidence elements))
      /\ (~ HasKeyElements elements -> ~ ThreeTypes elements ->
          calculateFormConfidence elements == meanConfidence elements)
      /\ (HasKeyElements elements \/ ThreeTypes elements
          \/ (forall e, In e elements -> confidence e <= 1) ->
          calculateFormConfidence elements <= 1)).
Proof.
  split; [intros ->; reflexivity|].
  intros Hne.
  assert (Hcalc :
    calculateFormConfidence elements
    == (let c := meanConfidence elements in
        let c := if existsb (labelIncludes "name"%string) elements
                    && existsb (labelIncludes "amount"%string) elements
                 then boosted (15 # 100) c else c in
        if (3 <=? length (elementTypes elements))%nat
        then boosted (1 # 10) c else c)).
  { destruct elements as [|e rest]; [contradiction|].
    unfold calculateFormConfidence. cbv zeta. unfold boosted.
    set (els := e :: rest).
    destruct (existsb (labelIncludes "name"%string) els
              && existsb (labelIncludes "amount"%string) els)%bool;
      destruct (3 <=? length (elementTypes els))%nat;
      rewrite average_mean; reflexivity. }
  cbv zeta in Hcalc.
  pose proof (hasKeyElements_iff elements) as Hkey.
  pose proof (threeTypes_iff elements) as Hthree.
  destruct (existsb (labelIncludes "name"%string) elements
            && existsb (labelIncludes "amount"%string) elements)%bool;
    destruct (3 <=? length (elementTypes elements))%nat;
    (repeat split;
     [ intros Hk Ht | intros Hk Ht | intros Hk Ht | intros Hk Ht | intros Hb ];
     try (exact Hcalc);
     try (exfalso; apply Ht; now apply Hthree);
     try (exfalso; apply Hk; now apply Hkey);
     try (apply Hthree in Ht; discriminate Ht);
     try (apply Hkey in Hk; discriminate Hk)).
  - rewrite Hcalc. apply Q.le_min_r.
  - rewrite Hcalc. apply Q.le_min_r.
  - rewrite Hcalc. apply Q.le_min_r.
  - rewrite Hcalc.
    destruct Hb as [Hk | [Ht | Hb]].
    + apply Hkey in Hk. discriminate Hk.
    + apply Hthree in Ht. discriminate Ht.
    + now apply mean_le_1.
Qed.

Lemma calculateFormConfidence_spec_witness :
  calculateFormConfidence sampleForm
  == boosted (1 # 10) (boosted (15 # 100) (meanConfidence sampleForm)).
Proof.
  apply (proj2 (calculateFormConfidence_spec sampleForm)).
  - discriminate.
  - split.
    + exists (element text_field (7 # 10) (Some (Js.lit "donor_name"))),
        (Js.lit "donor_name").
      repeat split; simpl; auto.
    + exists (element amount_field (8 # 10) (Some (Js.lit "amount"))),
        (Js.lit "amount").
      repeat split; simpl; auto.
  - exists (element text_field (7 # 10) (Some (Js.lit "donor_name"))),
      (element amount_field (8 # 10) (Some (Js.lit "amount"))),
      (element checkbox (6 # 10) None).
    repeat split; simpl; auto; discriminate.
Defined.

End DetectorFacts.

(* ===================================================================== *)
(** ** Card utilities: how formatting, validation and masking compose *)
(* ===================================================================== *)

Module CardsMore.
Import Js Cards CardsSpec CardsNotions JsFacts CardsFacts.

Lemma forallb_dropWhile (p f : ascii -> bool) s :
  forallb p s = true -> forallb p (dropWhile f s) = true.
Proof.
  induction s as [|c s IH]; simpl; auto.
  intros H. apply andb_true_iff in H as [Hc H].
  destruct (f c); [now apply IH | simpl; now rewrite Hc, H].
Qed.

Lemma forallb_trim (p : ascii -> bool) s :
  forallb p s = true -> forallb p (trim s) = true.
Proof.
  intros H. unfold trim.
  now apply forallb_rev, forallb_dropWhile, forallb_rev, forallb_dropWhile.
Qed.

Lemma digits_digitOrSpace s :
  forallb isDigit s = true -> forallb digitOrSpace s = true.
Proof.
  apply forallb_impl. intros c Hc. unfold digitOrSpace. now rewrite Hc.
Qed.

Lemma gap_loop_chars (c : str) :
  forallb isDigit c = true ->
  forall gs formatted lastGap,
    forallb digitOrSpace formatted = true ->
    forallb digitOrSpace (fst (fold_left (gapStep c) gs (formatted, lastGap)))
    = true.
Proof.
  intros Hc gs. induction gs as [|g gs IH]; intros formatted lastGap Hf;
    simpl; auto.
  destruct (g <? length c)%nat; apply IH; auto.
  rewrite !forallb_app, Hf. simpl. rewrite andb_true_r.
  apply digits_digitOrSpace. unfold slice.
  now apply forallb_firstn, forallb_skipn.
Qed.

Lemma groupsOf4_chars_le n : forall s,
  length s <= n -> forallb isDigit s = true ->
  forallb digitOrSpace (groupsOf4 s) = true.
Proof.
  induction n as [|n IH]; intros s Hn Hd.
  - destruct s; [reflexivity | simpl in Hn; lia].
  - destruct s as [|a [|b [|c [|d rest]]]];
      try (now apply digits_digitOrSpace).
    rewrite groupsOf4_cons.
    assert (Hrest : forallb isDigit rest = true)
      by (apply (forallb_skipn isDigit 4 _ Hd)).
    assert (Htail : forallb isDigit (b :: c :: d :: rest) = true)
      by (apply (forallb_skipn isDigit 1 _ Hd)).
    assert (Hhead : forallb digitOrSpace [a; b; c; d] = true)
      by (apply digits_digitOrSpace; apply (forallb_firstn isDigit 4 _ Hd)).
    destruct (existsb isLineTerminator [a; b; c; d]).
    + cbn [forallb]. rewrite IH by (simpl in *; auto; lia).
      cbn [forallb] in Hhead. apply andb_true_iff in Hhead as [Ha _].
      now rewrite Ha.
    + rewrite !forallb_app, Hhead. rewrite IH by (simpl in *; auto; lia).
      reflexivity.
Qed.

Lemma formatCardNumber_chars x ty :
  forallb digitOrSpace (formatCardNumber x ty) = true.
Proof.
  unfold formatCardNumber.
  set (c := stripNonDigits x).
  assert (Hc : forallb isDigit c = true) by apply strip_all_digits.
  match goal with |- context [find ?f CARD_TYPES] =>
    destruct (find f CARD_TYPES) as [e|] end.
  - pose proof (gap_loop_chars c Hc (gaps (snd e)) [] 0 eq_refl) as H.
    destruct (fold_left (gapStep c) (gaps (snd e)) ([], 0)) as [formatted lastGap].
    simpl in H. apply forallb_trim. rewrite forallb_app, H. simpl.
    apply digits_digitOrSpace. now apply forallb_skipn.
  - apply forallb_trim. now apply (groupsOf4_chars_le (length c)).
Qed.

Lemma dropWhile_head (f : ascii -> bool) s :
  match dropWhile f s with
  | [] => True
  | c :: _ => f c = false
  end.
Proof.
  induction s as [|c s IH]; simpl; auto.
  destruct (f c) eqn:E; [exact IH | exact E].
Qed.

Lemma dropWhile_suffix (f : ascii -> bool) s :
  exists p, s = p ++ dropWhile f s.
Proof.
  induction s as [|c s [p IH]]; simpl.
  - now exists [].
  - destruct (f c); [exists (c :: p); simpl; now f_equal | now exists []].
Qed.

(** A trimmed string neither starts nor ends with white space. *)
Lemma trim_edges s :
  match trim s with
  | [] => True
  | c :: _ => isSpace c = false
  end
  /\ match rev (trim s) with
     | [] => True
     | c :: _ => isSpace c = false
     end.
Proof.
  unfold trim. set (t := dropWhile isSpace s).
  pose proof (dropWhile_head isSpace s) as Ht. fold t in Ht.
  pose proof (dropWhile_head isSpace (rev t)) as Hu.
  destruct (dropWhile_suffix isSpace (rev t)) as [p Hp].
  set (u := dropWhile isSpace (rev t)) in *.
  split; [|now rewrite rev_involutive].
  assert (Ht' : t = rev u ++ rev p).
  { rewrite <- (rev_involutive t), Hp, rev_app_distr. reflexivity. }
  destruct (rev u) as [|c r]; [exact I|].
  rewrite Ht' in Ht. exact Ht.
Qed.

(** X1. [formatCardNumber] changes the layout only: it outputs digits and
    spaces, starts and ends with a digit (unless empty), and the digits of
    its result are the digits of its argument, in order. *)
Theorem formatCardNumber_layout_only (x : str) (ty : option str) :
  stripNonDigits (formatCardNumber x ty) = stripNonDigits x
  /\ forallb digitOrSpace (formatCardNumber x ty) = true
  /\ match formatCardNumber x ty with
     | [] => True
     | c :: _ => isDigit c = true
     end
  /\ match rev (formatCardNumber x ty) with
     | [] => True
     | c :: _ => isDigit c = true
     end.
Proof.
  pose proof (formatCardNumber_chars x ty) as Hchars.
  split; [apply strip_formatCardNumber|]. split; [exact Hchars|].
  assert (Hedge : forall c, digitOrSpace c = true -> isSpace c = false ->
                            isDigit c = true).
  { intros c Hc Hs. unfold digitOrSpace in Hc.
    apply orb_true_iff in Hc as [Hc | Hc]; [exact Hc|].
    apply Ascii.eqb_eq in Hc. subst c. discriminate Hs. }
  assert (Htrim : exists s, formatCardNumber x ty = trim s).
  { unfold formatCardNumber.
    match goal with |- context [find ?f CARD_TYPES] =>
      destruct (find f CARD_TYPES) as [e|] end.
    - destruct (fold_left _ _ _) as [formatted lastGap]. eexists; reflexivity.
    - eexists; reflexivity. }
  destruct Htrim as [s Hs]. rewrite Hs in *.
  destruct (trim_edges s) as [H1 H2].
  split.
  - destruct (trim s) as [|c r]; [exact I|].
    simpl in Hchars. apply andb_true_iff in Hchars as [Hc _]. auto.
  - pose proof (forallb_rev _ _ Hchars) as Hrev.
    destruct (rev (trim s)) as [|c r]; [exact I|].
    simpl in Hrev. apply andb_true_iff in Hrev as [Hc _]. auto.
Qed.

Lemma formatCardNumber_digits_only x y ty :
  stripNonDigits x = stripNonDigits y ->
  formatCardNumber x ty = formatCardNumber y ty.
Proof. intros H. unfold formatCardNumber. now rewrite H. Qed.

(** X2. Formatting is idempotent: formatting an already formatted number
    (with the same card type argument) returns it unchanged. *)
Theorem formatCardNumber_idempotent (x : str) (ty : option str) :
  formatCardNumber (formatCardNumber x ty) ty = formatCardNumber x ty.
Proof. apply formatCardNumber_digits_only, strip_formatCardNumber. Qed.

(** X3. Formatting changes neither the checksum verdict nor the detected
    brand: both look at the digits only. *)
Theorem format_keeps_verdict_and_brand (x : str) (ty : option str) :
  validateCardNumber (formatCardNumber x ty) = validateCardNumber x
  /\ detectCardType (formatCardNumber x ty) = detectCardType x.
Proof.
  unfold validateCardNumber, detectCardType.
  now rewrite strip_formatCardNumber.
Qed.

(** *** One wrong digit *)

Lemma luhnSumFrom_app a : forall k b,
  luhnSumFrom k (a ++ b)
  = (luhnSumFrom k a + luhnSumFrom (k + length a) b)%Z.
Proof.
  induction a as [|d a IH]; intros k b; simpl.
  - now rewrite Nat.add_0_r.
  - rewrite IH. replace (S k + length a) with (k + S (length a)) by lia. lia.
Qed.

Lemma digitValue_range c :
  isDigit c = true -> (0 <= digitValue c <= 9)%Z.
Proof.
  unfold isDigit, digitValue. intros H.
  apply andb_true_iff in H as [H1 H2].
  apply N.leb_le in H1. apply N.leb_le in H2. lia.
Qed.

Lemma digitValue_inj c d : digitValue c = digitValue d -> c = d.
Proof.
  unfold digitValue, code. intros H.
  rewrite <- (ascii_N_embedding c), <- (ascii_N_embedding d).
  f_equal. lia.
Qed.

Lemma luhnTerm_range k d :
  (0 <= d <= 9)%Z -> (0 <= luhnTerm k d <= 9)%Z.
Proof.
  intros H. unfold luhnTerm, doubled.
  destruct (Nat.odd k); [|exact H].
  destruct (9 <? 2 * d)%Z eqn:E;
    [apply Z.ltb_lt in E | apply Z.ltb_ge in E]; lia.
Qed.

Lemma luhnTerm_inj k d d' :
  (0 <= d <= 9)%Z -> (0 <= d' <= 9)%Z ->
  luhnTerm k d = luhnTerm k d' -> d = d'.
Proof.
  intros H H'. unfold luhnTerm, doubled.
  destruct (Nat.odd k); [|auto].
  destruct (9 <? 2 * d)%Z eqn:E;
    [apply Z.ltb_lt in E | apply Z.ltb_ge in E];
  (destruct (9 <? 2 * d')%Z eqn:E';
    [apply Z.ltb_lt in E' | apply Z.ltb_ge in E']); lia.
Qed.

Lemma luhnChecksum_split pre c post :
  luhnChecksum (pre ++ c :: post)
  = (luhnSumFrom 0 (rev (map digitValue post))
     + luhnTerm (length post) (digitValue c)
     + luhnSumFrom (S (length post)) (rev (map digitValue pre)))%Z.
Proof.
  unfold luhnChecksum.
  rewrite map_app, rev_app_distr. cbn [map rev].
  rewrite <- app_assoc. cbn [app].
  rewrite luhnSumFrom_app. cbn [luhnSumFrom].
  rewrite length_rev, length_map. simpl Nat.add. lia.
Qed.

(** X4. The checksum catches every single wrong digit: if a digit string
    passes [validateCardNumber], replacing any one of its digits by a
    different digit makes it fail. *)
Theorem validateCardNumber_single_digit_error (pre post : str) (c c' : ascii) :
  forallb isDigit pre = true -> forallb isDigit post = true ->
  isDigit c = true -> isDigit c' = true -> c <> c' ->
  validateCardNumber (pre ++ c :: post) = true ->
  validateCardNumber (pre ++ c' :: post) = false.
Proof.
  intros Hpre Hpost Hc Hc' Hne.
  assert (Hs : forall d, isDigit d = true ->
                 stripNonDigits (pre ++ d :: post) = pre ++ d :: post).
  { intros d Hd. apply strip_digits. rewrite forallb_app. simpl.
    now rewrite Hpre, Hd, Hpost. }
  unfold validateCardNumber. rewrite (Hs c Hc), (Hs c' Hc').
  rewrite !length_app. simpl length.
  destruct ((length pre + S (length post) <? 13)
            || (19 <? length pre + S (length post)))%nat;
    [discriminate|].
  rewrite !luhnLoop_checksum, !luhnChecksum_split.
  intros Hvalid. apply Z.eqb_eq in Hvalid. apply Z.eqb_neq. intros Hbad.
  pose proof (luhnTerm_range (length post) _ (digitValue_range c Hc)) as R.
  pose proof (luhnTerm_range (length post) _ (digitValue_range c' Hc')) as R'.
  assert (Hterm : luhnTerm (length post) (digitValue c)
                  <> luhnTerm (length post) (digitValue c')).
  { intros Heq. apply Hne, digitValue_inj.
    eapply luhnTerm_inj; eauto using digitValue_range. }
  apply Z.mod_divide in Hvalid; [|lia]. apply Z.mod_divide in Hbad; [|lia].
  destruct Hvalid as [q Hq]. destruct Hbad as [q' Hq']. lia.
Qed.

Lemma validateCardNumber_single_digit_error_witness :
  validateCardNumber ("411111111111"%string ++ "1"%char :: "111"%string)
  = true
  /\ validateCardNumber ("411111111111"%string ++ "7"%char :: "111"%string)
     = false.
Proof.
  split; [reflexivity|].
  apply (validateCardNumber_single_digit_error
           "411111111111"%string "111"%string "1"%char "7"%char);
    try reflexivity.
  discriminate.
Defined.

(** *** Masking with any number of visible digits *)

Lemma strip_masked n v :
  forallb isDigit v = true ->
  stripNonDigits (repeatChar "*"%char n ++ v) = stripNonDigits v.
Proof. intros H. now rewrite strip_app, strip_stars. Qed.

(** X5. [maskCardNumber] has two regimes for every [visibleDigits]: with no
    more digits than that it returns one asterisk per digit; with more, the
    asterisks are lost in formatting and the result is the formatted last
    [visibleDigits] digits, with no asterisk in it - for [visibleDigits = 0]
    this is the whole number, formatted and unmasked. *)
Theorem maskCardNumber_regimes (x : str) (visibleDigits : nat) :
  (length (stripNonDigits x) <= visibleDigits ->
   maskCardNumber x visibleDigits
   = repeatChar "*"%char (length (stripNonDigits x)))
  /\ (visibleDigits < length (stripNonDigits x) ->
      maskCardNumber x visibleDigits
      = formatCardNumber (sliceLast visibleDigits (stripNonDigits x)) None
      /\ stripNonDigits (maskCardNumber x visibleDigits)
         = sliceLast visibleDigits (stripNonDigits x)
      /\ existsb (fun c => eqc c "*"%char) (maskCardNumber x visibleDigits)
         = false).
Proof.
  unfold maskCardNumber. set (c := stripNonDigits x). split.
  - intros H. apply Nat.leb_le in H. now rewrite H.
  - intros H. apply Nat.leb_gt in H. rewrite H.
    assert (Hv : forallb isDigit (sliceLast visibleDigits c) = true).
    { unfold sliceLast. destruct visibleDigits.
      - apply strip_all_digits.
      - apply forallb_skipn, strip_all_digits. }
    assert (Heq : formatCardNumber
                    (repeatChar "*"%char (length c - visibleDigits)
                       ++ sliceLast visibleDigits c) None
                  = formatCardNumber (sliceLast visibleDigits c) None).
    { apply formatCardNumber_digits_only. now apply strip_masked. }
    rewrite Heq. split; [reflexivity|]. split.
    + rewrite strip_formatCardNumber. now apply strip_digits.
    + pose proof (formatCardNumber_chars (sliceLast visibleDigits c) None) as Hch.
      destruct (existsb _ _) eqn:E; [|reflexivity].
      apply existsb_exists in E as (ch & Hin & Hstar).
      rewrite forallb_forall in Hch. specialize (Hch ch Hin).
      apply Ascii.eqb_eq in Hstar. subst ch. discriminate Hch.
Qed.

Lemma maskCardNumber_regimes_witness :
  maskCardNumber "12-34"%string 6 = repeatChar "*"%char 4
  /\ maskCardNumber "4111 1111 1111 1234"%string 0
     = formatCardNumber "4111111111111234"%string None.
Proof.
  split.
  - apply (proj1 (maskCardNumber_regimes "12-34"%string 6)). simpl. lia.
  - apply (proj2 (maskCardNumber_regimes "4111 1111 1111 1234"%string 0)).
    simpl. lia.
Defined.

(** X6. An input without any digit: the brand is unknown, the checksum
    verdict is false, and formatting and masking return the empty string,
    whatever the card type and the number of visible digits. *)
Theorem no_digits_edge (x : str) (ty : option str) (visibleDigits : nat) :
  stripNonDigits x = [] ->
  detectCardType x = "Unknown"%string
  /\ validateCardNumber x = false
  /\ formatCardNumber x ty = []
  /\ maskCardNumber x visibleDigits = [].
Proof.
  intros H. repeat split.
  - unfold detectCardType. rewrite H. reflexivity.
  - unfold validateCardNumber. rewrite H. reflexivity.
  - rewrite formatCardNumber_short; rewrite H; simpl; auto; lia.
  - unfold maskCardNumber. rewrite H. reflexivity.
Qed.

Lemma no_digits_edge_witness :
  detectCardType "n/a"%string = "Unknown"%string
  /\ validateCardNumber "n/a"%string = false
  /\ formatCardNumber "n/a"%string (Some (Js.lit "Visa")) = []
  /\ maskCardNumber "n/a"%string 4 = [].
Proof. apply no_digits_edge. reflexivity. Defined.

End CardsMore.

(* ===================================================================== *)
(** ** Extractor: ranges, shapes and invariants of the extracted data *)
(* ===================================================================== *)

Module ExtractorMore.
Import Js Extractor ExtractorSpec JsFacts ExtractorFacts BrandFacts.

(** *** Amounts *)

Lemma amountScan_no_dollar s : forall skip,
  existsb (fun c => eqc c "$"%char) s = false -> amountScan s skip = [].
Proof.
  induction s as [|c s IH]; intros skip H; [reflexivity|].
  cbn [existsb] in H. apply orb_false_iff in H as [Hc H].
  cbn [amountScan]. destruct skip; [|now apply IH].
  unfold amountAt. rewrite Hc. now apply IH.
Qed.

Lemma extractAmount_zero_or_band (text : str) :
  extractAmount text = 0%Z \/ InBand (extractAmount text).
Proof.
  rewrite extractAmount_find.
  destruct (find inBand (amountValues text)) as [amt|] eqn:E; [|now left].
  right. apply find_some in E as [_ E]. now apply inBand_iff.
Qed.

(** X7. [extractAmount] never returns an amount outside the band: its
    result is 0 or lies in [25, 25000]; a text without a dollar sign gives
    0. *)
Theorem extractAmount_range (text : str) :
  (extractAmount text = 0%Z \/ InBand (extractAmount text))
  /\ (existsb (fun c => eqc c "$"%char) text = false ->
      extractAmount text = 0%Z).
Proof.
  split.
  - apply extractAmount_zero_or_band.
  - intros H. unfold extractAmount, amountMatches.
    now rewrite amountScan_no_dollar.
Qed.

Lemma extractAmount_range_witness :
  extractAmount "Total: 150 dollars"%string = 0%Z.
Proof.
  apply (proj2 (extractAmount_range "Total: 150 dollars"%string)).
  reflexivity.
Defined.

(** *** Dates *)

Lemma takeDigits_spec n : forall s ds r,
  takeDigits n s = (ds, r) ->
  forallb isDigit ds = true /\ length ds <= n /\ s = ds ++ r.
Proof.
  induction n as [|n IH]; intros s ds r H.
  - destruct s; inversion H; subst; simpl; auto.
  - destruct s as [|c s]; [inversion H; subst; simpl; auto with arith|].
    cbn [takeDigits] in H. destruct (isDigit c) eqn:Ec.
    + destruct (takeDigits n s) as [ds' r'] eqn:E. inversion H; subst.
      destruct (IH _ _ _ E) as (Hd & Hl & Hs).
      simpl. rewrite Ec, Hd. subst s. repeat split; auto. lia.
    + inversion H; subst. simpl. auto with arith.
Qed.

Lemma dateComponent_spec s g r :
  dateComponent s = Some (g, r) -> shortNumber g.
Proof.
  unfold dateComponent. destruct (takeDigits 2 s) as [ds rest] eqn:E.
  destruct (takeDigits_spec _ _ _ _ E) as (Hd & Hl & _).
  destruct ds as [|c ds]; [discriminate|].
  destruct rest as [|sep rest]; [discriminate|].
  destruct (isDateSep sep); [|discriminate].
  intros H. inversion H; subst. split; [simpl in *; lia | exact Hd].
Qed.

Lemma exactDigits_spec n s g r :
  exactDigits n s = Some (g, r) -> length g = n /\ forallb isDigit g = true.
Proof.
  unfold exactDigits. destruct (takeDigits n s) as [ds rest] eqn:E.
  destruct (takeDigits_spec _ _ _ _ E) as (Hd & _ & _).
  destruct (length ds =? n)%nat eqn:El; [|discriminate].
  intros H. inversion H; subst. apply Nat.eqb_eq in El. auto.
Qed.

Lemma dateAt_spec s g1 g2 g3 :
  dateAt s = Some (g1, g2, g3) ->
  shortNumber g1 /\ shortNumber g2 /\ fourDigits g3.
Proof.
  unfold dateAt.
  destruct (startsWith _ _); [|discriminate].
  destruct (dateComponent _) as [[a r1]|] eqn:E1; [|discriminate].
  destruct (dateComponent r1) as [[b r2]|] eqn:E2; [|discriminate].
  destruct (exactDigits 4 r2) as [[c r3]|] eqn:E3; [|discriminate].
  intros H. inversion H; subst.
  repeat split; eauto using dateComponent_spec;
    try (eapply dateComponent_spec; eassumption);
    now apply exactDigits_spec in E3.
Qed.

Lemma dateMatch_spec s : forall g,
  dateMatch s = Some g -> exists s', dateAt s' = Some g.
Proof.
  induction s as [|c s IH]; intros g; cbn [dateMatch].
  - destruct (dateAt []) eqn:E; [|discriminate].
    intros H. inversion H; subst. eauto.
  - destruct (dateAt (c :: s)) eqn:E.
    + intros H. inversion H; subst. eauto.
    + apply IH.
Qed.

Lemma padStart2_short g :
  shortNumber g ->
  length (padStart2 g) = 2 /\ forallb isDigit (padStart2 g) = true.
Proof.
  intros [Hl Hd]. unfold padStart2, repeatChar.
  destruct g as [|a [|b [|c g]]]; simpl in *; try lia.
  - now rewrite Hd.
  - now rewrite Hd.
Qed.

Lemma startsWith_lower_prefix n s p :
  startsWith (toLowerCase (firstn n s)) p = true ->
  startsWith (toLowerCase s) p = true.
Proof.
  revert n s. induction p as [|c p IH]; intros n s; [intros _; destruct (toLowerCase s); reflexivity|].
  destruct n, s as [|d s]; simpl; try discriminate.
  intros H. apply andb_true_iff in H as [H1 H2].
  rewrite H1. simpl. eapply IH. exact H2.
Qed.

Lemma dateMatch_needs_label s :
  includes (toLowerCase s) "date"%string = false -> dateMatch s = None.
Proof.
  induction s as [|c s IH]; intros H.
  - reflexivity.
  - cbn [toLowerCase map includes] in H.
    apply orb_false_iff in H as [H1 H2].
    cbn [dateMatch].
    assert (Hat : dateAt (c :: s) = None).
    { unfold dateAt.
      destruct (startsWith (toLowerCase (firstn 4 (c :: s))) "date"%string)
        eqn:E; [|reflexivity].
      apply startsWith_lower_prefix in E.
      unfold toLowerCase in E. cbn [map] in E. congruence. }
    rewrite Hat. now apply IH.
Qed.

(** X8. Whatever the text, a date returned by [extractDate] has the shape
    dddd-dd-dd: four digits, a hyphen, two digits, a hyphen and two digits
    (ten characters).  A text that does not contain the word "date" in any
    letter case gives no date. *)
Theorem extractDate_shape (text : str) :
  (forall d, extractDate text = Some d ->
     exists yyyy mm dd,
       d = yyyy ++ "-"%string ++ mm ++ "-"%string ++ dd
       /\ length yyyy = 4 /\ length mm = 2 /\ length dd = 2
       /\ forallb isDigit (yyyy ++ mm ++ dd) = true
       /\ length d = 10)
  /\ (includes (toLowerCase text) "date"%string = false ->
      extractDate text = None).
Proof.
  split.
  - intros d. unfold extractDate.
    destruct (dateMatch text) as [[[g1 g2] g3]|] eqn:E; [|discriminate].
    intros H. inversion H; subst. clear H.
    apply dateMatch_spec in E as [s' E].
    apply dateAt_spec in E as (H1 & H2 & [H3 H3d]).
    destruct (padStart2_short g1 H1) as [L1 D1].
    destruct (padStart2_short g2 H2) as [L2 D2].
    exists g3, (padStart2 g2), (padStart2 g1).
    repeat split; auto.
    + now rewrite !forallb_app, H3d, D1, D2.
    + rewrite length_app. cbn [length]. rewrite length_app. cbn [length].
      rewrite H3, L1, L2. reflexivity.
  - intros H. unfold extractDate. now rewrite dateMatch_needs_label.
Qed.

Lemma extractDate_shape_witness :
  (exists yyyy mm dd,
     Js.lit "2024-02-01" = yyyy ++ "-"%string ++ mm ++ "-"%string ++ dd
     /\ length yyyy = 4 /\ length mm = 2 /\ length dd = 2
     /\ forallb isDigit (yyyy ++ mm ++ dd) = true
     /\ length (Js.lit "2024-02-01") = 10)
  /\ extractDate "Donation of 03/15/2024"%string = None.
Proof.
  split.
  - apply (proj1 (extractDate_shape "Date: 1/2/2024"%string)). reflexivity.
  - apply (proj2 (extractDate_shape "Donation of 03/15/2024"%string)).
    reflexivity.
Defined.

(** *** E-mail addresses *)

Lemma takeWhile_dropWhile (p : ascii -> bool) s :
  s = takeWhile p s ++ dropWhile p s.
Proof.
  induction s as [|c s IH]; simpl; auto.
  destruct (p c); simpl; [now f_equal | reflexivity].
Qed.

Lemma takeWhile_forallb (p : ascii -> bool) s :
  forallb p (takeWhile p s) = true.
Proof.
  induction s as [|c s IH]; simpl; auto.
  destruct (p c) eqn:E; simpl; [now rewrite E | reflexivity].
Qed.

Lemma takeWhile_app_stop (p : ascii -> bool) l c r :
  forallb p l = true -> p c = false ->
  takeWhile p (l ++ c :: r) = l /\ dropWhile p (l ++ c :: r) = c :: r.
Proof.
  intros Hl Hc. induction l as [|a l IH]; simpl.
  - now rewrite Hc.
  - simpl in Hl. apply andb_true_iff in Hl as [Ha Hl]. rewrite Ha.
    destruct (IH Hl) as [-> ->]. auto.
Qed.

Lemma existsb_dot_split s :
  existsb (fun c => eqc c "."%char) s = true ->
  exists u v, s = u ++ "."%char :: v.
Proof.
  intros H. apply existsb_exists in H as (c & Hin & Hc).
  apply Ascii.eqb_eq in Hc. subst c.
  apply in_split in Hin. exact Hin.
Qed.

(** X9. [isValidEmail] accepts exactly the strings local@domain.tld: a
    non-empty local part, one [@], a non-empty domain, a dot and a non-empty
    rest, none of the three parts holding white space or [@] (the parts
    after the [@] may themselves hold dots). *)
Theorem isValidEmail_shape (email : str) :
  isValidEmail email = true
  <-> exists localPart domain tld,
        email = localPart ++ "@"%char :: domain ++ "."%char :: tld
        /\ localPart <> [] /\ domain <> [] /\ tld <> []
        /\ forallb notSpaceNorAt localPart = true
        /\ forallb notSpaceNorAt domain = true
        /\ forallb notSpaceNorAt tld = true.
Proof.
  unfold isValidEmail. split.
  - pose proof (takeWhile_dropWhile notSpaceNorAt email) as Hsplit.
    pose proof (takeWhile_forallb notSpaceNorAt email) as Hlocal.
    destruct (takeWhile notSpaceNorAt email) as [|l0 l] eqn:El; [discriminate|].
    destruct (dropWhile notSpaceNorAt email) as [|a dom] eqn:Ed; [discriminate|].
    intros H. apply andb_true_iff in H as [H Hdot].
    apply andb_true_iff in H as [Ha Hdom].
    apply Ascii.eqb_eq in Ha. subst a.
    destruct dom as [|h tail]; [discriminate|].
    apply existsb_dot_split in Hdot as (u & v & Huv).
    assert (Htail : tail <> []) by (intros ->; now destruct u).
    pose proof (app_removelast_last "."%char Htail) as Hlast.
    rewrite Huv in Hlast.
    exists (l0 :: l), (h :: u), (v ++ [last tail "."%char]).
    assert (Hdomeq : h :: tail = (h :: u) ++ "."%char :: v ++ [last tail "."%char]).
    { simpl. f_equal. rewrite Hlast at 1. now rewrite <- app_assoc. }
    rewrite Hdomeq in Hdom. rewrite forallb_app in Hdom.
    apply andb_true_iff in Hdom as [Hd Ht].
    cbn [forallb] in Ht. apply andb_true_iff in Ht as [_ Ht].
    repeat split; auto; try discriminate.
    + rewrite Hsplit. f_equal. f_equal. exact Hdomeq.
    + now destruct v.
  - intros (l & d & t & -> & Hl & Hd & Ht & Fl & Fd & Ft).
    destruct (takeWhile_app_stop notSpaceNorAt l "@"%char
                (d ++ "."%char :: t) Fl eq_refl) as [-> ->].
    destruct l as [|l0 l]; [contradiction|].
    rewrite Ascii.eqb_refl.
    rewrite forallb_app, Fd. cbn [forallb].
    change (notSpaceNorAt "."%char) with true. rewrite Ft.
    destruct d as [|h d']; [contradiction|].
    cbn [app andb].
    rewrite removelast_app by discriminate.
    rewrite existsb_app.
    assert (Hr : removelast ("."%char :: t) = "."%char :: removelast t)
      by (destruct t; [contradiction | reflexivity]).
    rewrite Hr. cbn [existsb]. rewrite Ascii.eqb_refl.
    now rewrite orb_true_r.
Qed.

Lemma isValidEmail_shape_witness :
  isValidEmail "jane.doe@example.org"%string = true.
Proof.
  apply (proj2 (isValidEmail_shape "jane.doe@example.org"%string)).
  exists (Js.lit "jane.doe"), (Js.lit "example"), (Js.lit "org").
  repeat split; try reflexivity; discriminate.
Defined.

End ExtractorMore.

(* ===================================================================== *)
(** ** Extractor: the issues and the records of the segment path *)
(* ===================================================================== *)

Module RecordFacts.
Import Js Extractor ExtractorSpec RecordNotions JsFacts ExtractorFacts
  BrandFacts ExtractorMore.

Local Open Scope Q_scope.

Lemma streq_refl a : streq a a = true.
Proof.
  induction a as [|c a IH]; simpl; auto.
  unfold eqc. now rewrite Ascii.eqb_refl, IH.
Qed.

Lemma In_streq a l : In a l <-> existsb (streq a) l = true.
Proof.
  rewrite existsb_exists. split.
  - intros H. exists a. split; [exact H | apply streq_refl].
  - intros (b & Hin & Hb). apply streq_eq in Hb. now subst.
Qed.

Lemma validateExtractedData_app f given c :
  validateExtractedData f given c = given ++ validateExtractedData f [] c.
Proof.
  unfold validateExtractedData.
  destruct (length (donorName f) <? 2)%nat;
    (destruct (email f) as [|e0 em];
     [|destruct (negb (isValidEmail (e0 :: em)))]);
    destruct (phone f); destruct (amount f <=? 0)%Z;
    destruct (Qlt_le_dec c 80);
    cbn [app]; rewrite <- ?app_assoc, ?app_nil_r; reflexivity.
Qed.

(** X10. [validateExtractedData] keeps the issues it is given, in front,
    and appends exactly the issues whose condition holds: the donor-name
    issue iff the name has fewer than 2 characters, the e-mail issue iff an
    e-mail is present and malformed, the phone issue iff the phone is
    empty, the amount issue iff the amount is not positive, the confidence
    issue iff the confidence is below 80. *)
Theorem validateExtractedData_exact (f : Fields) (given : list str) (c : Q) :
  validateExtractedData f given c = given ++ validateExtractedData f [] c
  /\ (In nameIssue (validateExtractedData f [] c)
      <-> (length (donorName f) < 2)%nat)
  /\ (In emailIssue (validateExtractedData f [] c)
      <-> email f <> [] /\ isValidEmail (email f) = false)
  /\ (In phoneIssue (validateExtractedData f [] c) <-> phone f = [])
  /\ (In amountIssue (validateExtractedData f [] c) <-> (amount f <= 0)%Z)
  /\ (In confidenceIssue (validateExtractedData f [] c) <-> c < 80).
Proof.
  split; [apply validateExtractedData_app|].
  rewrite !In_streq. unfold validateExtractedData.
  destruct (length (donorName f) <? 2)%nat eqn:En;
    [apply Nat.ltb_lt in En | apply Nat.ltb_ge in En];
  (destruct (email f) as [|e0 em] eqn:Ee;
   [|destruct (isValidEmail (e0 :: em)) eqn:Ev; cbn [negb]]);
  destruct (phone f) as [|p0 ph] eqn:Ep;
  (destruct (amount f <=? 0)%Z eqn:Ea;
   [apply Z.leb_le in Ea | apply Z.leb_gt in Ea]);
  destruct (Qlt_le_dec c 80) as [Ec | Ec];
  (repeat split; intros;
   repeat match goal with
          | H : _ /\ _ |- _ => destruct H
          end;
   try assumption;
   try reflexivity;
   try discriminate;
   try congruence;
   try lia;
   try (exfalso; eapply Qlt_not_le; eassumption)).
Qed.

Lemma validateExtractedData_exact_witness :
  In amountIssue (validateExtractedData emptyFields [] 95)
  /\ In confidenceIssue (validateExtractedData emptyFields [] 42).
Proof.
  split.
  - apply (proj2 (proj1 (proj2 (proj2 (proj2 (proj2
             (validateExtractedData_exact emptyFields [] 95))))))).
    simpl. lia.
  - apply (proj2 (proj2 (proj2 (proj2 (proj2 (proj2
             (validateExtractedData_exact emptyFields [] 42))))))).
    reflexivity.
Defined.

(** *** Invariants of the segment loop *)

Lemma processFieldSegment_invariant segment text f issues :
  segmentInvariant f ->
  segmentInvariant (fst (processFieldSegment segment text f issues)).
Proof.
  intros Hinv. unfold processFieldSegment.
  destruct (fieldType segment).
  - repeat match goal with
           | |- context [if ?b then _ else _] => destruct b
           end; exact Hinv.
  - destruct (_ || _)%bool; exact Hinv.
  - destruct (trim text); exact Hinv.
  - destruct (0 <? extractAmount text)%Z eqn:E; [|exact Hinv].
    destruct Hinv as (H1 & H2 & H3 & H4 & H5 & H6 & _).
    repeat split; auto. cbn [fst amount setAmount].
    destruct (extractAmount_zero_or_band text) as [H0 | Hb];
      [left; exact H0 | right; exact Hb].
  - destruct (extractDate text) as [[|c d]|]; exact Hinv.
Qed.

Lemma segmentStep_invariant recognize st segment :
  segmentInvariant (loopFields st) ->
  segmentInvariant (loopFields (segmentStep recognize st segment)).
Proof.
  intros Hinv. unfold segmentStep.
  destruct (recognize (imageSegment segment)) as [[t c]|]; [|exact Hinv].
  pose proof (processFieldSegment_invariant segment (trim t) (loopFields st)
                (loopIssues st) Hinv) as H.
  destruct (processFieldSegment _ _ _ _) as [f i]. exact H.
Qed.

Lemma segmentLoop_invariant recognize segments : forall st,
  segmentInvariant (loopFields st) ->
  segmentInvariant (loopFields (fold_left (segmentStep recognize) segments st)).
Proof.
  induction segments as [|s rest IH]; intros st H; [exact H|].
  simpl. apply IH. now apply segmentStep_invariant.
Qed.

Lemma emptyFields_invariant : segmentInvariant emptyFields.
Proof. unfold segmentInvariant. simpl. tauto. Qed.

Lemma extractFormsFrom_In recognize forms : forall i r,
  In r (extractFormsFrom recognize i forms) ->
  exists form n, In form forms /\ r = extractSingleFormData recognize form n.
Proof.
  induction forms as [|f rest IH]; intros i r H; [contradiction|].
  simpl in H. destruct H as [<- | H].
  - exists f, (i + 1)%nat. split; [now left | reflexivity].
  - destruct (IH _ _ H) as (form & n & Hin & Hr).
    exists form, n. split; [now right | exact Hr].
Qed.

Lemma extractFormData_returns recognize windowDefined initializeOCREngine
    forms records :
  extractFormData recognize windowDefined initializeOCREngine forms
  = inr records ->
  windowDefined = true /\ initializeOCREngine = None
  /\ records = extractFormsFrom recognize 0 forms.
Proof.
  unfold extractFormData.
  destruct windowDefined; [|discriminate].
  destruct initializeOCREngine; [discriminate|].
  cbn [negb]. intros [= <-]. auto.
Qed.

(** X11. What the segment path never does: in every record
    [extractFormData] emits, whatever the environment and whatever the
    engine reads, the payment method and the card type, number, expiry and
    CVV are empty, [anonymous] is false, and the amount is 0 or lies in
    [25, 25000]. *)
Theorem segment_records_invariant
    (recognize : Buffer -> option (str * Q)) (windowDefined : bool)
    (initializeOCREngine : option Thrown) (forms : list SegmentedForm)
    (records : list ExtractedFormData) (r : ExtractedFormData) :
  extractFormData recognize windowDefined initializeOCREngine forms
  = inr records ->
  In r records ->
  paymentMethod (fields r) = []
  /\ anonymous (fields r) = false
  /\ detailsCardType (paymentDetails (fields r)) = []
  /\ cardNumber (paymentDetails (fields r)) = []
  /\ expiryDate (paymentDetails (fields r)) = []
  /\ cvv (paymentDetails (fields r)) = []
  /\ (amount (fields r) = 0%Z \/ InBand (amount (fields r))).
Proof.
  intros Hret H. apply extractFormData_returns in Hret as (_ & _ & ->).
  apply extractFormsFrom_In in H as (form & n & _ & ->).
  unfold extractSingleFormData.
  destruct (fieldSegments form) as [|s rest] eqn:E.
  - apply emptyFields_invariant.
  - unfold extractFromFieldSegments. cbn [fields]. rewrite E.
    apply segmentLoop_invariant, emptyFields_invariant.
Qed.

Lemma segment_records_invariant_witness :
  let r := extractFromFieldSegments readsCardText cardTextForm 1 in
  paymentMethod (fields r) = []
  /\ anonymous (fields r) = false
  /\ detailsCardType (paymentDetails (fields r)) = []
  /\ cardNumber (paymentDetails (fields r)) = []
  /\ expiryDate (paymentDetails (fields r)) = []
  /\ cvv (paymentDetails (fields r)) = []
  /\ (amount (fields r) = 0%Z \/ InBand (amount (fields r))).
Proof.
  apply (segment_records_invariant readsCardText true None [cardTextForm]
           [extractFromFieldSegments readsCardText cardTextForm 1]).
  - reflexivity.
  - left. reflexivity.
Defined.

(** *** The issues of a form, segment by segment *)

Lemma processFieldSegment_issues segment text f issues :
  snd (processFieldSegment segment text f issues)
  = issues
    ++ match fieldType segment with
       | text_field =>
           let id := toLowerCase (fieldId segment) in
           if negb (includes id "name"%string) && includes id "email"%string
              && negb (isValidEmail text)
           then [emailIssue]
           else []
       | _ => []
       end.
Proof.
  unfold processFieldSegment.
  destruct (fieldType segment); cbv zeta.
  - destruct (includes _ "name"%string); cbn [negb andb snd];
      [now rewrite app_nil_r|].
    destruct (includes _ "email"%string); cbn [negb andb snd].
    + destruct (isValidEmail text); cbn [negb snd];
        [now rewrite app_nil_r | reflexivity].
    + destruct (includes _ "phone"%string); cbn [snd];
        [now rewrite app_nil_r|].
      destruct (includes _ "address"%string); cbn [snd];
        now rewrite app_nil_r.
  - destruct (_ || _)%bool; cbn [snd]; now rewrite app_nil_r.
  - destruct (trim text); cbn [snd]; now rewrite app_nil_r.
  - destruct (0 <? extractAmount text)%Z; cbn [snd]; now rewrite app_nil_r.
  - destruct (extractDate text) as [[|c d]|]; cbn [snd];
      now rewrite app_nil_r.
Qed.

Lemma segmentStep_issues recognize st segment :
  loopIssues (segmentStep recognize st segment)
  = loopIssues st ++ segmentIssues recognize segment.
Proof.
  unfold segmentStep, segmentIssues.
  destruct (recognize (imageSegment segment)) as [[t c]|]; [|reflexivity].
  pose proof (processFieldSegment_issues segment (trim t) (loopFields st)
                (loopIssues st)) as H.
  destruct (processFieldSegment _ _ _ _) as [f i]. exact H.
Qed.

Lemma segmentLoop_issues recognize segments : forall st,
  loopIssues (fold_left (segmentStep recognize) segments st)
  = loopIssues st ++ flat_map (segmentIssues recognize) segments.
Proof.
  induction segments as [|s rest IH]; intros st; simpl.
  - now rewrite app_nil_r.
  - now rewrite IH, segmentStep_issues, app_assoc.
Qed.

Lemma segmentIssues_length recognize segment :
  (length (segmentIssues recognize segment) <= 1)%nat.
Proof.
  unfold segmentIssues.
  destruct (recognize (imageSegment segment)) as [[t c]|]; [|simpl; lia].
  destruct (fieldType segment); simpl; try lia.
  destruct (_ && _)%bool; simpl; lia.
Qed.

(** X12. The issues of a record of the segment path are the issues of its
    segments, in segment order, each segment contributing on its own and at
    most once: the failure message when the engine throws on it, the e-mail
    issue when it is routed to the e-mail field and reads a malformed
    address, nothing otherwise.  So a record has at most one issue per
    segment, and one segment's failure never hides another's issue. *)
Theorem segment_issues_by_segment
    (recognize : Buffer -> option (str * Q)) (form : SegmentedForm) (n : nat) :
  issues (extractFromFieldSegments recognize form n)
  = flat_map (segmentIssues recognize) (fieldSegments form)
  /\ (length (issues (extractFromFieldSegments recognize form n))
      <= length (fieldSegments form))%nat.
Proof.
  assert (H : issues (extractFromFieldSegments recognize form n)
              = flat_map (segmentIssues recognize) (fieldSegments form)).
  { unfold extractFromFieldSegments. cbn [issues].
    now rewrite segmentLoop_issues. }
  split; [exact H|]. rewrite H. clear H.
  induction (fieldSegments form) as [|s rest IH]; cbn [flat_map length];
    [lia|].
  rewrite length_app. pose proof (segmentIssues_length recognize s). lia.
Qed.

(** *** Numbering and confidence *)

Lemma extractSingleFormData_number recognize form n :
  formNumber (extractSingleFormData recognize form n) = n.
Proof.
  unfold extractSingleFormData. now destruct (fieldSegments form).
Qed.

Lemma extractFormsFrom_numbers recognize forms : forall i,
  map formNumber (extractFormsFrom recognize i forms)
  = seq (S i) (length forms).
Proof.
  induction forms as [|f rest IH]; intros i; [reflexivity|].
  simpl. rewrite extractSingleFormData_number, IH. f_equal. lia.
Qed.

(** X13. [extractFormData] in its environment.  Outside the browser it
    throws its browser-only error, and when the initialisation of the engine
    throws it throws that failure under its prefix: in both cases no record
    is emitted.  Otherwise it emits exactly one record per form, in order,
    and numbers them 1, 2, ... by position in its input, independently of
    their form identifiers; a form without segments still gets its record
    and its number. *)
Theorem extractFormData_numbering
    (recognize : Buffer -> option (str * Q)) (windowDefined : bool)
    (initializeOCREngine : option Thrown) (forms : list SegmentedForm) :
  (windowDefined = false ->
   extractFormData recognize windowDefined initializeOCREngine forms
   = inl (Js.lit "OCR extraction only available in browser environment"))
  /\ (windowDefined = true ->
      forall error, initializeOCREngine = Some error ->
      extractFormData recognize windowDefined initializeOCREngine forms
      = inl (Js.lit "Real OCR extraction failed: " ++ messageOf error))
  /\ (windowDefined = true -> initializeOCREngine = None ->
      exists records,
        extractFormData recognize windowDefined initializeOCREngine forms
        = inr records
        /\ length records = length forms
        /\ map formNumber records = seq 1 (length forms)).
Proof.
  unfold extractFormData. split; [|split].
  - now intros ->.
  - now intros -> error ->.
  - intros -> ->. cbn [negb].
    exists (extractFormsFrom recognize 0 forms). split; [reflexivity|].
    split.
    + rewrite <- (length_map formNumber), extractFormsFrom_numbers.
      apply length_seq.
    + apply extractFormsFrom_numbers.
Qed.

Lemma extractFormData_numbering_witness :
  (exists records,
     extractFormData readsCardText true None [cardTextForm; cardTextForm]
     = inr records
     /\ length records = 2%nat
     /\ map formNumber records = [1; 2]%nat)
  /\ extractFormData readsCardText true (Some NotAnError) [cardTextForm]
     = inl (Js.lit "Real OCR extraction failed: Unknown error")
  /\ extractFormData readsCardText false None [cardTextForm]
     = inl (Js.lit "OCR extraction only available in browser environment").
Proof.
  split; [|split].
  - apply (proj2 (proj2 (extractFormData_numbering readsCardText true None
                           [cardTextForm; cardTextForm]))); reflexivity.
  - apply (proj1 (proj2 (extractFormData_numbering readsCardText true
                           (Some NotAnError) [cardTextForm]))
             eq_refl NotAnError); reflexivity.
  - apply (proj1 (extractFormData_numbering readsCardText false None
                    [cardTextForm])); reflexivity.
Defined.

Lemma segmentStep_total recognize st segment :
  (forall t c, recognize (imageSegment segment) = Some (t, c) ->
               0 <= c <= 100) ->
  0 <= totalConfidence st
       <= 100 * inject_Z (Z.of_nat (processedSegments st)) ->
  let st' := segmentStep recognize st segment in
  0 <= totalConfidence st'
       <= 100 * inject_Z (Z.of_nat (processedSegments st')).
Proof.
  intros Hc [H0 H1]. cbv zeta. unfold segmentStep.
  destruct (recognize (imageSegment segment)) as [[t c]|] eqn:E;
    [|split; assumption].
  destruct (Hc t c eq_refl) as [C0 C1].
  destruct (processFieldSegment _ _ _ _) as [f i].
  cbn [totalConfidence processedSegments]. split.
  - replace 0 with (0 + 0) by reflexivity. now apply Qplus_le_compat.
  - rewrite Nat2Z.inj_succ, <- Z.add_1_r, inject_Z_plus.
    rewrite Qmult_plus_distr_r. apply Qplus_le_compat; [exact H1|].
    exact C1.
Qed.

Lemma segmentLoop_total recognize segments : forall st,
  percentScale recognize segments ->
  0 <= totalConfidence st
       <= 100 * inject_Z (Z.of_nat (processedSegments st)) ->
  let st' := fold_left (segmentStep recognize) segments st in
  0 <= totalConfidence st'
       <= 100 * inject_Z (Z.of_nat (processedSegments st')).
Proof.
  induction segments as [|s rest IH]; intros st Hp Hst; [exact Hst|].
  simpl. apply IH.
  - intros seg t c Hin. apply Hp. now right.
  - apply segmentStep_total; [|exact Hst].
    intros t c. apply Hp. now left.
Qed.

(** X14. When the engine reports confidences between 0 and 100, the
    confidence of a record of the segment path lies between 0 and 1: it is
    the mean over the segments the engine could read (the failed ones do
    not count), divided by 100, and 0 when it could read none. *)
Theorem record_confidence_bounds
    (recognize : Buffer -> option (str * Q)) (form : SegmentedForm) (n : nat) :
  percentScale recognize (fieldSegments form) ->
  0 <= recordConfidence (extractFromFieldSegments recognize form n) <= 1.
Proof.
  intros Hp. unfold extractFromFieldSegments. cbn [recordConfidence].
  pose proof (segmentLoop_total recognize (fieldSegments form)
                {| loopFields := emptyFields; loopIssues := [];
                   totalConfidence := 0; processedSegments := 0 |} Hp) as H.
  cbv zeta in H. cbn [totalConfidence processedSegments] in H.
  specialize (H (conj (Qle_refl 0) (Qle_refl 0))).
  destruct (fold_left _ _ _) as [f i total processed].
  cbn [totalConfidence processedSegments] in *.
  destruct processed as [|k].
  - split; discriminate.
  - destruct H as [H0 H1].
    set (m := inject_Z (Z.of_nat (S k))) in *.
    assert (Hm : 0 < m).
    { unfold m. change 0 with (inject_Z 0). rewrite <- Zlt_Qlt. lia. }
    split.
    + apply Qle_shift_div_l; [reflexivity|]. rewrite Qmult_0_l.
      apply Qle_shift_div_l; [exact Hm|]. now rewrite Qmult_0_l.
    + apply Qle_shift_div_r; [reflexivity|]. rewrite Qmult_1_l.
      apply Qle_shift_div_r; [exact Hm | exact H1].
Qed.

Lemma record_confidence_bounds_witness :
  0 <= recordConfidence (extractFromFieldSegments readsCardText cardTextForm 1)
    <= 1.
Proof.
  apply record_confidence_bounds.
  intros segment t c _. unfold readsCardText.
  destruct (imageSegment segment) as [|[|[| |]] [|]];
    intros H; inversion H; subst; split; discriminate.
Defined.

End RecordFacts.

(* ===================================================================== *)
(** ** Extractor: payment method and card details *)
(* ===================================================================== *)

Module PaymentFacts.
Import Js Extractor ExtractorSpec ExtractorPayment PaymentNotions JsFacts
  ExtractorFacts BrandFacts ExtractorMore.

Example payment_card :
  extractPaymentInfo
    "M/C  Account No: 5500 0000 0000 0004 Exp date: 7/2027 CVV# 123 Signature: Jane Doe"%string
  = (Js.lit "Credit Card (Mastercard)",
     {| detailsCardType := "Mastercard"%string;
        cardNumber := "5500000000000004"%string;
        expiryDate := "07/27"%string;
        cvv := "123"%string;
        cardholderName := "Jane Doe"%string |}).
Proof. reflexivity. Qed.

Example payment_cash :
  fst (extractPaymentInfo "Cash X  Visa 4111111111111111"%string)
  = "Cash"%string.
Proof. reflexivity. Qed.

Example payment_signature_blank :
  cardholderName (snd (extractPaymentInfo "Visa Signature: 12"%string)) = [].
Proof. reflexivity. Qed.

Lemma firstMatch_spec {A : Type} (attempt : str -> option A) s : forall r,
  firstMatch attempt s = Some r -> exists s', attempt s' = Some r.
Proof.
  induction s as [|c s IH]; intros r; cbn [firstMatch].
  - destruct (attempt []) eqn:E; [|discriminate].
    intros H. inversion H; subst. eauto.
  - destruct (attempt (c :: s)) eqn:E.
    + intros H. inversion H; subst. eauto.
    + apply IH.
Qed.

Lemma keywordBrand_names lowerText r :
  keywordBrand lowerText = Some r ->
  In (cardType r)
     [Js.lit "Visa"; Js.lit "Mastercard"; Js.lit "American Express";
      Js.lit "Discover"].
Proof.
  unfold keywordBrand.
  repeat match goal with
         | |- context [if ?b then _ else _] => destruct b
         end;
    intros H; inversion H; subst; simpl; tauto.
Qed.

Lemma brandOfNumber_names n r :
  brandOfNumber n = Some r ->
  In (cardType r)
     [Js.lit "Visa"; Js.lit "Mastercard"; Js.lit "American Express";
      Js.lit "Discover"].
Proof.
  unfold brandOfNumber.
  repeat match goal with
         | |- context [if ?b then _ else _] => destruct b
         end;
    intros H; inversion H; subst; simpl; tauto.
Qed.

Lemma firstBrand_names ns : forall r,
  firstBrand ns = Some r ->
  In (cardType r)
     [Js.lit "Visa"; Js.lit "Mastercard"; Js.lit "American Express";
      Js.lit "Discover"].
Proof.
  induction ns as [|n ns IH]; intros r; cbn [firstBrand]; [discriminate|].
  destruct (brandOfNumber n) as [r'|] eqn:E.
  - intros H. inversion H; subst. now apply brandOfNumber_names in E.
  - apply IH.
Qed.

Lemma detectCreditCardType_names text :
  cardType (detectCreditCardType text) = []
  \/ In (cardType (detectCreditCardType text))
        [Js.lit "Visa"; Js.lit "Mastercard"; Js.lit "American Express";
         Js.lit "Discover"].
Proof.
  unfold detectCreditCardType.
  destruct (keywordBrand (toLowerCase text)) as [r|] eqn:E.
  - right. now apply keywordBrand_names in E.
  - destruct (firstBrand (cardNumberMatches text)) as [r|] eqn:E'.
    + right. now apply firstBrand_names in E'.
    + now left.
Qed.

(** X15. [extractPaymentInfo] answers one of four things: Cash, Check or
    Unknown, each with all card details empty, or "Credit Card (brand)" for
    one of the four brands Visa, Mastercard, American Express and Discover,
    with that brand as card type.  A text that contains "check" in any
    letter case is Cash or Check, never a card, whatever else it holds. *)
Theorem extractPaymentInfo_methods (text : str) :
  let r := extractPaymentInfo text in
  ((fst r = Js.lit "Cash" \/ fst r = Js.lit "Check"
    \/ fst r = Js.lit "Unknown") /\ snd r = emptyDetails
   \/ exists brand,
        In brand [Js.lit "Visa"; Js.lit "Mastercard";
                  Js.lit "American Express"; Js.lit "Discover"]
        /\ fst r = Js.lit "Credit Card (" ++ brand ++ Js.lit ")"
        /\ detailsCardType (snd r) = brand)
  /\ (includes (toLowerCase text) "check"%string = true ->
      (fst r = Js.lit "Cash" \/ fst r = Js.lit "Check")
      /\ snd r = emptyDetails).
Proof.
  cbv zeta. unfold extractPaymentInfo.
  destruct (includes (toLowerCase text) "cash"%string
            && (includes text "X"%string || includes text "✓"%string))%bool.
  - split; [left|intros _]; cbn [fst snd]; auto.
  - destruct (includes (toLowerCase text) "check"%string).
    + split; [left|intros _]; cbn [fst snd]; auto.
    + split; [|discriminate].
      destruct (detectCreditCardType_names text) as [H | H].
      * rewrite H. left. cbn [fst snd]. auto.
      * destruct (cardType (detectCreditCardType text)) as [|c b] eqn:E.
        -- left. cbn [fst snd]. auto.
        -- right. exists (c :: b). cbn [fst snd detailsCardType]. auto.
Qed.

Lemma extractPaymentInfo_methods_witness :
  (fst (extractPaymentInfo "Please check one: Visa 4111111111111111"%string)
   = Js.lit "Cash"
   \/ fst (extractPaymentInfo "Please check one: Visa 4111111111111111"%string)
      = Js.lit "Check")
  /\ snd (extractPaymentInfo "Please check one: Visa 4111111111111111"%string)
     = emptyDetails.
Proof.
  apply (proj2 (extractPaymentInfo_methods
                  "Please check one: Visa 4111111111111111"%string)).
  reflexivity.
Defined.

(** *** The shapes of the card details *)

Lemma removeSpaces_app a b :
  removeSpaces (a ++ b) = removeSpaces a ++ removeSpaces b.
Proof. apply filter_app. Qed.

Lemma removeSpaces_digits s :
  forallb isDigit s = true -> removeSpaces s = s.
Proof.
  intros H. apply forallb_filter_id.
  eapply forallb_impl; [|exact H].
  intros c Hc. now rewrite (digit_not_space _ Hc).
Qed.

Lemma removeSpaces_spaces s : removeSpaces (takeWhile isSpace s) = [].
Proof.
  induction s as [|c s IH]; simpl; auto.
  destruct (isSpace c) eqn:E; simpl; [now rewrite E | reflexivity].
Qed.

Lemma cardNumberAt_spec s m :
  cardNumberAt s = Some m ->
  length (removeSpaces m) = 16 /\ forallb isDigit (removeSpaces m) = true.
Proof.
  unfold cardNumberAt, spacedCardAt.
  destruct (exactDigits 4 s) as [[a r1]|] eqn:Ea.
  2:{ destruct (exactDigits 16 s) as [[g r]|] eqn:E; [|discriminate].
      intros H. inversion H; subst.
      apply exactDigits_spec in E as [L D].
      now rewrite (removeSpaces_digits _ D). }
  destruct (exactDigits 4 (dropWhile isSpace r1)) as [[b r2]|] eqn:Eb.
  2:{ destruct (exactDigits 16 s) as [[g r]|] eqn:E; [|discriminate].
      intros H. inversion H; subst.
      apply exactDigits_spec in E as [L D].
      now rewrite (removeSpaces_digits _ D). }
  destruct (exactDigits 4 (dropWhile isSpace r2)) as [[c r3]|] eqn:Ec.
  2:{ destruct (exactDigits 16 s) as [[g r]|] eqn:E; [|discriminate].
      intros H. inversion H; subst.
      apply exactDigits_spec in E as [L D].
      now rewrite (removeSpaces_digits _ D). }
  destruct (exactDigits 4 (dropWhile isSpace r3)) as [[d r4]|] eqn:Ed.
  2:{ destruct (exactDigits 16 s) as [[g r]|] eqn:E; [|discriminate].
      intros H. inversion H; subst.
      apply exactDigits_spec in E as [L D].
      now rewrite (removeSpaces_digits _ D). }
  intros H. inversion H; subst. clear H.
  apply exactDigits_spec in Ea as [La Da]. apply exactDigits_spec in Eb as [Lb Db].
  apply exactDigits_spec in Ec as [Lc Dc]. apply exactDigits_spec in Ed as [Ld Dd].
  rewrite !removeSpaces_app, !removeSpaces_spaces.
  rewrite !removeSpaces_digits by assumption.
  cbn [app]. rewrite !length_app, !forallb_app, La, Lb, Lc, Ld, Da, Db, Dc, Dd.
  split; reflexivity.
Qed.

Lemma digitsBetween_spec lo hi s g r :
  digitsBetween lo hi s = Some (g, r) ->
  lo <= length g <= hi /\ forallb isDigit g = true.
Proof.
  unfold digitsBetween. destruct (takeDigits hi s) as [ds rest] eqn:E.
  destruct (takeDigits_spec _ _ _ _ E) as (Hd & Hl & _).
  destruct (lo <=? length ds)%nat eqn:El; [|discriminate].
  intros H. inversion H; subst. apply Nat.leb_le in El. auto.
Qed.

Lemma sliceLast2 s :
  2 <= length s -> forallb isDigit s = true ->
  length (sliceLast 2 s) = 2 /\ forallb isDigit (sliceLast 2 s) = true.
Proof.
  intros Hl Hd. unfold sliceLast. split.
  - rewrite length_skipn. lia.
  - now apply forallb_skipn.
Qed.

Lemma expiryText_shape g1 g2 :
  shortNumber g1 -> 2 <= length g2 <= 4 -> forallb isDigit g2 = true ->
  expiryShape (expiryText g1 g2).
Proof.
  intros H1 [Hlo Hhi] Hd. unfold expiryText, expiryShape.
  destruct (padStart2_short g1 H1) as [Lm Dm].
  set (year := if (length g2 =? 2)%nat then Js.lit "20" ++ g2 else g2).
  assert (Hy : 2 <= length year /\ forallb isDigit year = true).
  { unfold year. destruct (length g2 =? 2)%nat.
    - split; [rewrite length_app; simpl; lia|].
      rewrite forallb_app, Hd. reflexivity.
    - auto. }
  destruct (sliceLast2 year (proj1 Hy) (proj2 Hy)) as [Ly Dy].
  exists (padStart2 g1), (sliceLast 2 year). auto.
Qed.

(** X16. The card details [extractPaymentInfo] returns are well formed,
    whatever the text: the card number is empty or 16 digits (spaces
    removed), the expiry is empty or two digits, a slash and two digits, and
    the CVV is empty or 3 to 4 digits. *)
Theorem extractPaymentInfo_detail_shapes (text : str) :
  let d := snd (extractPaymentInfo text) in
  (cardNumber d = []
   \/ length (cardNumber d) = 16 /\ forallb isDigit (cardNumber d) = true)
  /\ (expiryDate d = [] \/ expiryShape (expiryDate d))
  /\ (cvv d = []
      \/ 3 <= length (cvv d) <= 4 /\ forallb isDigit (cvv d) = true).
Proof.
  cbv zeta. unfold extractPaymentInfo.
  destruct (_ && _)%bool; [cbn; auto|].
  destruct (includes (toLowerCase text) "check"%string); [cbn; auto|].
  destruct (cardType (detectCreditCardType text)) as [|c b]; [cbn; auto|].
  cbn [snd cardNumber expiryDate cvv]. repeat split.
  - destruct (firstMatch cardNumberLabelAt text) as [m|] eqn:E;
      [right | now left].
    apply firstMatch_spec in E as [s' E]. unfold cardNumberLabelAt in E.
    destruct (anyLabelAt _ s') as [r|]; [|discriminate].
    cbn [option_map orEmpty]. now apply cardNumberAt_spec in E.
  - destruct (firstMatch expiryAt text) as [[g1 g2]|] eqn:E;
      [right | now left].
    apply firstMatch_spec in E as [s' E]. unfold expiryAt in E.
    destruct (anyLabelAt _ s') as [r|]; [|discriminate].
    destruct (dateComponent _) as [[a r1]|] eqn:E1; [|discriminate].
    destruct (digitsBetween 2 4 r1) as [[b2 r2]|] eqn:E2; [|discriminate].
    inversion E; subst. cbn [option_map orEmpty fst snd].
    apply dateComponent_spec in E1.
    apply digitsBetween_spec in E2 as [L D].
    now apply expiryText_shape.
  - destruct (firstMatch cvvAt text) as [g|] eqn:E; [right | now left].
    apply firstMatch_spec in E as [s' E]. unfold cvvAt in E.
    destruct (anyLabelAt _ s') as [r|]; [|discriminate].
    destruct (digitsBetween 3 4 _) as [[g' r']|] eqn:E2; [|discriminate].
    inversion E; subst. cbn [orEmpty].
    now apply digitsBetween_spec in E2.
Qed.

End PaymentFacts.

(* ===================================================================== *)
(** ** Detector: labels, reclassification and confidence *)
(* ===================================================================== *)

Module DetectorMore.
Import Js Detector DetectorSpec DetectorOcr DetectorNotions DetectorFacts.

Local Open Scope Q_scope.

Example classify_donor :
  classifyElementByContext "Donor Name:"%string text_field
  = "donor_name"%string.
Proof. reflexivity. Qed.

Example classify_unknown :
  classifyElementByContext "12/2024"%string amount_field
  = "unknown_amount_field"%string.
Proof. reflexivity. Qed.

Example refine_amount :
  refineElementType "Gift 25.00"%string text_field = amount_field.
Proof. reflexivity. Qed.

Example refine_date :
  refineElementType "on 3/15/24"%string text_field = date_field.
Proof. reflexivity. Qed.

Example refine_keep :
  refineElementType "3/15-24"%string checkbox = checkbox.
Proof. reflexivity. Qed.

(** *** Which labels trigger the key-element boost *)

(** The leftmost Boolean of a disjunction. *)
Ltac leftmost c :=
  lazymatch c with
  | (?a || _)%bool => leftmost a
  | _ => c
  end.

(** Decide the condition of the outermost rule of the classifier. *)
Ltac decide_rule :=
  lazymatch goal with
  | |- (includes (if ?c then _ else _) _ = true <-> _) /\ _ =>
      let v := leftmost c in destruct v; cbn [orb]; cbv iota
  end.

Ltac close_case :=
  vm_compute; intuition (discriminate || congruence).

(** X17. The label [classifyElementByContext] gives contains "name" exactly
    when the nearby text mentions "name" or "donor"; it contains "amount"
    exactly when the text mentions none of the name, e-mail, phone and
    address keywords and either mentions "amount", "$" or "donation", or
    mentions no keyword at all while the element is an amount field (the
    fallback label "unknown_amount_field").  These are the labels
    [calculateFormConfidence] looks for. *)
Theorem classify_boost_labels (text : str) (ty : ElementType) :
  let label := classifyElementByContext text ty in
  let lt := toLowerCase text in
  (includes label "name"%string = true
   <-> mentionsAny lt [Js.lit "name"; Js.lit "donor"] = true)
  /\ (includes label "amount"%string = true
      <-> mentionsAny lt [Js.lit "name"; Js.lit "donor"; Js.lit "email";
                          Js.lit "e-mail"; Js.lit "phone"; Js.lit "tel";
                          Js.lit "address"; Js.lit "street"] = false
          /\ (mentionsAny lt [Js.lit "amount"; Js.lit "$";
                              Js.lit "donation"] = true
              \/ mentionsAny lt [Js.lit "date"; Js.lit "when";
                                 Js.lit "signature"; Js.lit "sign";
                                 Js.lit "recurring"; Js.lit "monthly";
                                 Js.lit "anonymous"; Js.lit "private";
                                 Js.lit "credit"; Js.lit "card";
                                 Js.lit "check"; Js.lit "cheque"] = false
                 /\ ty = amount_field)).
Proof.
  cbv zeta. unfold classifyElementByContext, mentionsAny.
  set (lt := toLowerCase text). clearbody lt.
  cbn [existsb]. rewrite ?orb_false_r.
  repeat match goal with
         | |- context [includes lt ?k] =>
             let b := fresh "b" in
             set (b := includes lt k) in *; clearbody b
         end.
  repeat (decide_rule; try solve [close_case]).
  destruct ty; close_case.
Qed.

Lemma classify_boost_labels_witness :
  includes (classifyElementByContext "Donor:"%string text_field)
    "name"%string = true
  /\ includes (classifyElementByContext "12 34"%string amount_field)
       "amount"%string = true.
Proof.
  split.
  - apply (proj2 (proj1 (classify_boost_labels "Donor:"%string text_field))).
    reflexivity.
  - apply (proj2 (proj2 (classify_boost_labels "12 34"%string amount_field))).
    split; [reflexivity | right; split; reflexivity].
Defined.

(** *** Refinement from recognised words *)

Lemma boost_keeps_range c :
  0 <= c <= 1 ->
  c <= Qmin (c + (1 # 10)) 1 <= 1
  /\ c <= Qmin (c * (9 # 10) + (1 # 10)) 1 <= 1.
Proof.
  intros [H0 H1]. repeat split; try apply Q.le_min_r.
  - apply Q.min_glb; [|exact H1].
    rewrite <- (Qplus_0_r c) at 1. apply Qplus_le_compat; [apply Qle_refl|].
    discriminate.
  - apply Q.min_glb; [|exact H1].
    setoid_replace c with (c * (9 # 10) + c * (1 # 10)) at 1 by ring.
    apply Qplus_le_compat; [apply Qle_refl|].
    setoid_replace (1 # 10) with (1 * (1 # 10)) at 2 by ring.
    apply Qmult_le_compat_r; [exact H1 | discriminate].
Qed.

Lemma enhanceElement_refines words e : refines e (enhanceElement words e).
Proof.
  unfold refines, enhanceElement.
  destruct (filter _ words) as [|w ws].
  - split; [reflexivity|]. intros [H0 H1]. split; [apply Qle_refl | exact H1].
  - cbn [boundingBox confidence]. split; [reflexivity|]. intros Hc.
    destruct (boost_keeps_range _ Hc) as [Hsame Hchanged].
    destruct (ElementType_eqb _ _); assumption.
Qed.

(** X18. [enhanceElementsWithOCR] keeps the number and the order of the
    elements and their bounding boxes, and a confidence that starts in
    [0, 1] stays there and never goes down - also when the element is
    reclassified, where the factor 0.9 is outweighed by the added 0.1.
    Without recognised words (no worker, or the recognition fails) the
    elements are returned as they are. *)
Theorem enhanceElementsWithOCR_refines
    (words : option (list Word)) (elements : list DetectedElement) :
  Forall2 refines elements (enhanceElementsWithOCR words elements)
  /\ enhanceElementsWithOCR None elements = elements
  /\ enhanceElementsWithOCR (Some []) elements = elements.
Proof.
  split; [|split].
  - destruct words as [ws|]; cbn [enhanceElementsWithOCR].
    + induction elements as [|e rest IH]; constructor; auto.
      apply enhanceElement_refines.
    + induction elements as [|e rest IH]; constructor; auto.
      split; [reflexivity|]. intros [H0 H1].
      split; [apply Qle_refl | exact H1].
  - reflexivity.
  - cbn [enhanceElementsWithOCR].
    induction elements as [|e rest IH]; [reflexivity|].
    cbn [map]. now rewrite IH.
Qed.

(** *** The form confidence after refinement *)

Lemma calculateFormConfidence_steps e rest :
  let elements := e :: rest in
  calculateFormConfidence elements
  == (let c := meanConfidence elements in
      let c := if existsb (labelIncludes "name"%string) elements
                  && existsb (labelIncludes "amount"%string) elements
               then boosted (15 # 100) c else c in
      if (3 <=? length (elementTypes elements))%nat
      then boosted (1 # 10) c else c).
Proof.
  cbv zeta. unfold calculateFormConfidence, boosted.
  set (els := e :: rest).
  destruct (existsb (labelIncludes "name"%string) els
            && existsb (labelIncludes "amount"%string) els)%bool;
    destruct (3 <=? length (elementTypes els))%nat;
    rewrite average_mean; reflexivity.
Qed.

Lemma sum_nonneg elements :
  (forall e, In e elements -> 0 <= confidence e) ->
  0 <= sumConfidence elements.
Proof.
  induction elements as [|e rest IH]; intros H; [apply Qle_refl|].
  cbn [sumConfidence]. replace 0 with (0 + 0) by reflexivity.
  apply Qplus_le_compat; [apply H; now left|].
  apply IH. intros e' He'. apply H. now right.
Qed.

Lemma mean_nonneg elements :
  elements <> [] ->
  (forall e, In e elements -> 0 <= confidence e) ->
  0 <= meanConfidence elements.
Proof.
  intros Hne H. unfold meanConfidence.
  apply Qle_shift_div_l.
  - destruct elements as [|e rest]; [contradiction|].
    change 0 with (inject_Z 0). rewrite <- Zlt_Qlt. simpl length. lia.
  - rewrite Qmult_0_l. now apply sum_nonneg.
Qed.

Lemma boosted_bounds b c :
  0 <= b -> 0 <= c <= 1 -> c <= boosted b c <= 1.
Proof.
  intros Hb [H0 H1]. unfold boosted. split; [|apply Q.le_min_r].
  apply Q.min_glb; [|exact H1].
  rewrite <- (Qplus_0_r c) at 1. apply Qplus_le_compat; [apply Qle_refl | exact Hb].
Qed.

(** X19. For elements whose confidences lie in [0, 1], the form confidence
    lies between their mean and 1: the boosts never lower it and the caps
    keep it at most 1. *)
Theorem form_confidence_between_mean_and_one
    (elements : list DetectedElement) :
  elements <> [] ->
  (forall e, In e elements -> 0 <= confidence e <= 1) ->
  0 <= meanConfidence elements
  /\ meanConfidence elements <= calculateFormConfidence elements
  /\ calculateFormConfidence elements <= 1.
Proof.
  intros Hne Hc.
  assert (Hm0 : 0 <= meanConfidence elements)
    by (apply mean_nonneg; [exact Hne | intros e He; apply Hc, He]).
  assert (Hm1 : meanConfidence elements <= 1)
    by (apply mean_le_1; [exact Hne | intros e He; apply Hc, He]).
  split; [exact Hm0|].
  destruct elements as [|e rest]; [contradiction|].
  rewrite calculateFormConfidence_steps. cbv zeta.
  set (m := meanConfidence (e :: rest)) in *.
  assert (H15 : m <= boosted (15 # 100) m <= 1)
    by (apply boosted_bounds; [discriminate | split; assumption]).
  destruct (_ && _)%bool; destruct (3 <=? _)%nat.
  - assert (H10 : boosted (15 # 100) m <= boosted (1 # 10) (boosted (15 # 100) m) <= 1).
    { apply boosted_bounds; [discriminate|]. split; [|apply H15].
      apply Qle_trans with m; [exact Hm0 | apply H15]. }
    split; [apply Qle_trans with (boosted (15 # 100) m)|]; tauto.
  - tauto.
  - apply boosted_bounds; [discriminate | split; assumption].
  - split; [apply Qle_refl | exact Hm1].
Qed.

Lemma form_confidence_between_mean_and_one_witness :
  0 <= meanConfidence sampleForm
  /\ meanConfidence sampleForm <= calculateFormConfidence sampleForm
  /\ calculateFormConfidence sampleForm <= 1.
Proof.
  apply form_confidence_between_mean_and_one.
  - discriminate.
  - intros e [<- | [<- | [<- | []]]]; split; discriminate.
Defined.

End DetectorMore.

(* ===================================================================== *)
(** ** Segmenter: what a segment carries, and how the Extractor routes it *)
(* ===================================================================== *)

Module SegmenterFacts.
Import Js SegmenterNotions JsFacts.

Example segment_ids :
  map Extractor.fieldId
    (Extractor.fieldSegments (Segmenter.segmentSingleForm sampleDetectedForm))
  = [Js.lit "form_2_1_email"; Js.lit "form_2_1_checkbox"].
Proof. reflexivity. Qed.

(** X20. [segmentFormFields] is one to one: one segmented form per detected
    form, in order, with the same identifier, page and confidence, and one
    segment per element, in order, with the element's type and confidence.
    No element is dropped, and every segment carries the image of the whole
    form: the segment image is not cropped to the bounding box. *)
Theorem segmentFormFields_one_to_one (forms : list Segmenter.DetectedForm) :
  Forall2 segmentedFrom forms (Segmenter.segmentFormFields forms).
Proof.
  unfold Segmenter.segmentFormFields.
  induction forms as [|form rest IH]; constructor; auto.
  unfold segmentedFrom. cbn. repeat split.
  induction (Segmenter.detectedElements form) as [|e es IHe];
    constructor; auto.
  unfold segmentOf. cbn. repeat split.
  now destruct (Detector.type e).
Qed.

(** X21. The refined bounding box of a segment: for a box with a
    non-negative origin it contains the original box with at least 5 pixels
    to spare on the right and at the bottom, its origin stays non-negative
    and moves by at most 5, and each dimension grows by exactly 10 (also
    when the origin is clipped at 0). *)
Theorem refineBoundingBox_pads (image : Segmenter.Buffer)
    (box : Detector.BoundingBox) :
  (0 <= Detector.x box)%Z -> (0 <= Detector.y box)%Z ->
  let refined := Segmenter.refineBoundingBox image box in
  (0 <= Extractor.x refined <= Detector.x box)%Z
  /\ (0 <= Extractor.y refined <= Detector.y box)%Z
  /\ (Detector.x box - 5 <= Extractor.x refined)%Z
  /\ (Detector.y box - 5 <= Extractor.y refined)%Z
  /\ (Extractor.width refined = Detector.width box + 10)%Z
  /\ (Extractor.height refined = Detector.height box + 10)%Z
  /\ (Detector.x box + Detector.width box + 5
      <= Extractor.x refined + Extractor.width refined)%Z
  /\ (Detector.y box + Detector.height box + 5
      <= Extractor.y refined + Extractor.height refined)%Z.
Proof.
  intros Hx Hy. cbv zeta. unfold Segmenter.refineBoundingBox. cbn.
  repeat split; lia.
Qed.

Lemma refineBoundingBox_pads_witness :
  let refined :=
    Segmenter.refineBoundingBox []
      {| Detector.x := 3; Detector.y := 40; Detector.width := 100;
         Detector.height := 35 |} in
  (0 <= Extractor.x refined <= 3)%Z
  /\ (0 <= Extractor.y refined <= 40)%Z
  /\ (3 - 5 <= Extractor.x refined)%Z
  /\ (40 - 5 <= Extractor.y refined)%Z
  /\ (Extractor.width refined = 100 + 10)%Z
  /\ (Extractor.height refined = 35 + 10)%Z
  /\ (3 + 100 + 5 <= Extractor.x refined + Extractor.width refined)%Z
  /\ (40 + 35 + 5 <= Extractor.y refined + Extractor.height refined)%Z.
Proof.
  apply (refineBoundingBox_pads []
           {| Detector.x := 3; Detector.y := 40; Detector.width := 100;
              Detector.height := 35 |}); simpl; lia.
Defined.

(** *** From the Detector's label to the Extractor's field *)

Lemma uint_digits d :
  forallb isDigit
    (list_ascii_of_string (DecimalString.NilEmpty.string_of_uint d)) = true.
Proof. induction d; simpl; auto. Qed.

Lemma decimal_digits n : forallb isDigit (Segmenter.decimal n) = true.
Proof. apply uint_digits. Qed.

Lemma detectorFormId_chars p i :
  forallb idChar (Segmenter.detectorFormId p i ++ "_"%string) = true.
Proof.
  unfold Segmenter.detectorFormId.
  assert (Hd : forall n, forallb idChar (Segmenter.decimal n) = true).
  { intros n. eapply forallb_impl; [|apply decimal_digits].
    intros c Hc. unfold idChar. now rewrite Hc. }
  rewrite !forallb_app, !Hd. reflexivity.
Qed.

Lemma idChar_lower c : idChar c = true -> lowerChar c = c.
Proof.
  intros H. unfold lowerChar.
  destruct (isUpper c) eqn:E; [|reflexivity].
  exfalso. unfold idChar in H. apply orb_true_iff in H as [H | H].
  - unfold isDigit, isUpper in *.
    apply andb_true_iff in H as [_ H]. apply andb_true_iff in E as [E _].
    apply N.leb_le in H. apply N.leb_le in E. lia.
  - simpl in H. unfold eqc in H.
    repeat (apply orb_true_iff in H as [H | H];
            [apply Ascii.eqb_eq in H; subst c; discriminate E|]).
    discriminate H.
Qed.

Lemma includes_skip_prefix pre rest c k :
  forallb (fun x => negb (eqc c x)) pre = true ->
  includes (pre ++ rest) (c :: k) = includes rest (c :: k).
Proof.
  induction pre as [|x pre IH]; intros H; [reflexivity|].
  cbn [forallb] in H. apply andb_true_iff in H as [Hx H].
  apply negb_true_iff in Hx.
  cbn [app includes startsWith]. rewrite Hx. cbn [andb orb]. now apply IH.
Qed.

Lemma idChar_not_keyword_start c :
  idChar c = true ->
  eqc "n"%char c = false /\ eqc "e"%char c = false
  /\ eqc "p"%char c = false /\ eqc "a"%char c = false.
Proof.
  intros H. unfold idChar in H. apply orb_true_iff in H as [H | H].
  - unfold eqc. repeat split; apply Ascii.eqb_neq; intros <-; discriminate H.
  - simpl in H. unfold eqc in H.
    repeat (apply orb_true_iff in H as [H | H];
            [apply Ascii.eqb_eq in H; subst c; repeat split; reflexivity|]).
    discriminate H.
Qed.

Lemma fieldId_includes p i (l : str) c k :
  In c ["n"; "e"; "p"; "a"]%char ->
  includes (toLowerCase (Segmenter.detectorFormId p i ++ "_"%string ++ l))
    (c :: k)
  = includes (toLowerCase l) (c :: k).
Proof.
  intros Hc. rewrite app_assoc. unfold toLowerCase. rewrite map_app.
  apply includes_skip_prefix.
  pose proof (detectorFormId_chars p i) as Hid.
  set (pre := Segmenter.detectorFormId p i ++ "_"%string) in *.
  clearbody pre. induction pre as [|x pre IH]; [reflexivity|].
  cbn [forallb] in Hid. apply andb_true_iff in Hid as [Hx Hid].
  cbn [map forallb]. rewrite (idChar_lower _ Hx), (IH Hid), andb_true_r.
  destruct (idChar_not_keyword_start _ Hx) as (Hn & He & Hp & Ha).
  simpl in Hc.
  destruct Hc as [<- | [<- | [<- | [<- | []]]]];
    [now rewrite Hn | now rewrite He | now rewrite Hp | now rewrite Ha].
Qed.

(** X22. From the Detector's label to the Extractor's field: for a text
    field of a form identified [form_<page>_<index>], the Extractor routes
    the recognised text by the element's label alone (or by the name of its
    type when it has no label) - the form identifier, which the Segmenter
    puts in front of the label, never matches "name", "email", "phone" or
    "address". *)
Theorem text_field_routed_by_label
    (form : Segmenter.DetectedForm) (element : Detector.DetectedElement)
    (p i : nat) (text : str) (f : Extractor.Fields) (issues : list str) :
  Segmenter.formId form = Segmenter.detectorFormId p i ->
  Detector.type element = Detector.text_field ->
  Extractor.processFieldSegment (Segmenter.extractFieldSegment form element)
    text f issues
  = routeByLabel (Segmenter.labelOrType element) text f issues.
Proof.
  intros Hid Hty. unfold routeByLabel, Extractor.processFieldSegment.
  cbn [Extractor.fieldType Extractor.fieldId Segmenter.extractFieldSegment
       ExtractorSpec.sampleSegment].
  rewrite Hty, Hid. cbn [Segmenter.fieldTypeOf].
  change (Js.lit "name") with ("n"%char :: Js.lit "ame").
  change (Js.lit "email") with ("e"%char :: Js.lit "mail").
  change (Js.lit "phone") with ("p"%char :: Js.lit "hone").
  change (Js.lit "address") with ("a"%char :: Js.lit "ddress").
  rewrite !fieldId_includes by (simpl; tauto).
  reflexivity.
Qed.

Lemma text_field_routed_by_label_witness :
  Extractor.email
    (fst (Extractor.processFieldSegment
            (Segmenter.extractFieldSegment sampleDetectedForm sampleElement)
            "jane@example.org"%string Extractor.emptyFields []))
  = "jane@example.org"%string.
Proof.
  rewrite (text_field_routed_by_label sampleDetectedForm sampleElement 2 0);
    reflexivity.
Defined.

End SegmenterFacts.

(* ===================================================================== *)
(** ** Preprocessor: the pages of a PDF, the sizes of the pages, and the
       upload check in front of the MIME gate *)
(* ===================================================================== *)

Module PreprocessorMore.
Import Js Preprocessor PreprocessorSamples PreprocessorNotions JsFacts
  BrandFacts.

Section WithCollaborators.

Variable Image : Type.
Variable read : Buffer -> option Image.
Variable getBuffer : Image -> option Buffer.
Variable imageWidth imageHeight : Image -> nat.
Variable rotate : Q -> Image -> option Image.
Variable contrast brightness : Q -> Image -> option Image.
Variable blur : nat -> Image -> option Image.
Variable resize : nat -> nat -> Image -> option Image.
Variable convert : Buffer -> nat -> ConvertResult.
Variable readFile : str -> option Buffer.
Variable unlink : str -> bool.

Let size := getImageSize Image read imageWidth imageHeight.
Let enhance :=
  enhanceImage Image read getBuffer imageWidth imageHeight rotate contrast
    brightness blur resize.
Let steps :=
  enhanceSteps Image read getBuffer imageWidth imageHeight rotate contrast
    brightness blur resize.
Let loop :=
  convertLoop Image read imageWidth imageHeight convert readFile unlink.
Let process :=
  processDocument Image read getBuffer imageWidth imageHeight rotate contrast
    brightness blur resize convert readFile unlink.

Lemma convertLoop_exact pdf n : forall fuel images,
  (forall k, 1 <= k <= n -> pageConverts convert readFile unlink size pdf k) ->
  (forall path, convert pdf (S n) <> ConvertPath path) ->
  numbered images ->
  length images <= n < length images + fuel ->
  exists result,
    loop fuel pdf (S (length images)) images = Some result
    /\ length result = n /\ numbered result.
Proof.
  induction fuel as [|fuel IH]; intros images Hok Hstop Hnum Hlen; [lia|].
  unfold loop. cbn [convertLoop]. fold loop. fold size.
  destruct (Nat.eq_dec (length images) n) as [Heq | Hne].
  - rewrite Heq.
    destruct (convert pdf (S n)) as [| |path] eqn:Hc;
      try (exists images; repeat split; auto).
    exfalso. exact (Hstop path eq_refl).
  - destruct (Hok (S (length images))) as (path & buffer & sz & Hc & Hr & Hs & Hu);
      [lia|].
    rewrite Hc, Hr, Hs, Hu.
    pose proof (PreprocessorFacts.numbered_snoc images buffer (fst sz) (snd sz)
                  Hnum) as Hnum'.
    set (images' := images ++ _) in *.
    assert (Hl : length images' = S (length images))
      by (unfold images'; rewrite length_app; simpl; lia).
    rewrite <- Hl. apply IH; auto. lia.
Qed.

(** X23. A PDF is read up to its first failing page: when pages 1 to [n]
    rasterise and the rasteriser gives no file for page [n + 1], the call
    returns exactly [n] pages, numbered 1 to [n] - without raising an error,
    and whatever pages after [n + 1] would have given. *)
Theorem pdf_pages_until_first_failure
    (fuel n : nat) (doc : DocumentData) :
  streq (mimeType doc) "application/pdf"%string = true ->
  (forall k, 1 <= k <= n -> pageConverts convert readFile unlink size (fileBuffer doc) k) ->
  (forall path, convert (fileBuffer doc) (S n) <> ConvertPath path) ->
  n < fuel ->
  exists images,
    process fuel doc = Some (inr images)
    /\ length images = n
    /\ map pageNumber images = seq 1 n.
Proof.
  intros Hpdf Hok Hstop Hfuel.
  unfold process, processDocument. rewrite Hpdf.
  unfold convertPdfToImages. fold loop. fold enhance.
  destruct (convertLoop_exact (fileBuffer doc) n fuel [] Hok Hstop eq_refl)
    as (result & Hres & Hlen & Hnum); [simpl; lia|].
  simpl in Hres. rewrite Hres.
  exists (map enhance result). split; [reflexivity|].
  split; [now rewrite length_map|].
  unfold numbered in Hnum. rewrite Hlen in Hnum. rewrite <- Hnum.
  rewrite map_map. apply map_ext. intros a.
  apply PreprocessorFacts.enhance_pageNumber.
Qed.

(** *** The recorded sizes *)

Lemma enhance_sizeRecorded image :
  sizeRecorded size image -> sizeRecorded size (enhance image).
Proof.
  intros H. unfold enhance, enhanceImage. fold steps.
  destruct (steps image) as [r|] eqn:E; [|exact H].
  unfold steps, enhanceSteps in E.
  repeat match type of E with
         | bind ?m _ = Some _ =>
             let x := fresh "b" in
             destruct m as [x|] eqn:?; cbn [bind] in E; [|discriminate E]
         end.
  inversion E; subst. unfold sizeRecorded. cbn.
  match goal with H : getImageSize _ _ _ _ _ = Some ?p |- _ =>
    fold size in H; rewrite H; now destruct p end.
Qed.

Lemma convertLoop_sizeRecorded pdf : forall fuel page images result,
  Forall (sizeRecorded size) images ->
  loop fuel pdf page images = Some result ->
  Forall (sizeRecorded size) result.
Proof.
  induction fuel as [|fuel IH]; intros page images result Hall;
    [discriminate|].
  unfold loop. cbn [convertLoop]. fold loop. fold size.
  destruct (convert pdf page) as [| |path];
    try (intros H; inversion H; subst; exact Hall).
  destruct (readFile path) as [buffer|];
    [|intros H; inversion H; subst; exact Hall].
  destruct (size buffer) as [sz|] eqn:Es;
    [|intros H; inversion H; subst; exact Hall].
  assert (Hall' : Forall (sizeRecorded size)
                    (images ++ [{| imageBuffer := buffer; width := fst sz;
                                   height := snd sz; pageNumber := page |}])).
  { apply Forall_app. split; [exact Hall|]. constructor; [|constructor].
    unfold sizeRecorded. cbn. rewrite Es. now destruct sz. }
  destruct (unlink path).
  - apply IH. exact Hall'.
  - intros H. inversion H; subst. exact Hall'.
Qed.

(** X24. Every page [processDocument] returns records the dimensions its
    buffer decodes to, whether its enhancement succeeded (the size is read
    again after the last step) or failed (the page is returned as it was
    read). *)
Theorem processDocument_sizes_recorded
    (fuel : nat) (doc : DocumentData) (images : list ProcessedImage) :
  process fuel doc = Some (inr images) ->
  Forall (sizeRecorded size) images.
Proof.
  unfold process, processDocument. fold enhance.
  destruct (streq (mimeType doc) "application/pdf"%string).
  - unfold convertPdfToImages. fold loop.
    destruct (loop fuel (fileBuffer doc) 1 []) as [result|] eqn:E;
      [|discriminate].
    intros H. inversion H; subst.
    apply convertLoop_sizeRecorded in E; [|constructor].
    induction E; constructor; auto. now apply enhance_sizeRecorded.
  - destruct (startsWith (mimeType doc) "image/"%string); [|discriminate].
    unfold processImageBuffer. fold size.
    destruct (size (fileBuffer doc)) as [sz|] eqn:Es; cbn [bind];
      [|discriminate].
    intros H. inversion H; subst. constructor; [|constructor].
    apply enhance_sizeRecorded. unfold sizeRecorded. cbn.
    rewrite Es. now destruct sz.
Qed.

(** *** The upload check *)

(** X25. A file that passes the service's [validateFile] is at most 10 MB
    and always passes the Preprocessor's MIME gate: [processDocument] never
    answers it with the unsupported-type error. *)
Theorem validated_file_passes_gate
    (fuel : nat) (fileData : Service.UploadedFileData) :
  Service.validateFile fileData = None ->
  (Service.fileSize fileData <= 10485760)%Z
  /\ In (Service.mimeType fileData) Service.ALLOWED_TYPES
  /\ forall mime,
       process fuel (Service.documentOf fileData)
       <> Some (inl (PreprocessingFailed (UnsupportedFileType mime))).
Proof.
  unfold Service.validateFile.
  destruct (Service.MAX_FILE_SIZE <? Service.fileSize fileData)%Z eqn:Esz;
    [discriminate|].
  destruct (existsb _ Service.ALLOWED_TYPES) eqn:Ety; [|discriminate].
  intros _. apply Z.ltb_ge in Esz.
  apply existsb_exists in Ety as (t & Hin & Ht).
  apply streq_eq in Ht.
  split; [exact Esz|]. split; [now rewrite Ht|].
  intros mime. unfold process, processDocument.
  cbn [Service.documentOf mimeType fileBuffer]. rewrite Ht.
  simpl in Hin.
  destruct Hin as [<- | [<- | [<- | [<- | []]]]];
    match goal with
    | |- context [streq ?a ?b] =>
        let v := eval vm_compute in (streq a b) in
        change (streq a b) with v
    end; cbv iota;
    try match goal with
    | |- context [startsWith ?a ?b] =>
        let v := eval vm_compute in (startsWith a b) in
        change (startsWith a b) with v
    end; cbv iota.
  - destruct (convertPdfToImages _ _ _ _ _ _ _ _ _); discriminate.
  - destruct (processImageBuffer _ _ _ _ _ _); discriminate.
  - destruct (processImageBuffer _ _ _ _ _ _); discriminate.
  - destruct (processImageBuffer _ _ _ _ _ _); discriminate.
Qed.

End WithCollaborators.

Lemma pdf_pages_until_first_failure_witness :
  exists images,
    processDocumentOk 10 pdfDocument = Some (inr images)
    /\ length images = 3
    /\ map pageNumber images = seq 1 3.
Proof.
  apply (pdf_pages_until_first_failure Bitmap decode encodePng cols rows
           keep keep keep keep resizeTo threePages pageFile unlinkOk
           10 3 pdfDocument).
  - reflexivity.
  - intros k Hk.
    exists (Js.lit "./temp/page.png"), [137; 2; 1; 7; 9]%N, (2, 1).
    repeat split. unfold threePages.
    replace (k <=? 3) with true by (symmetry; apply Nat.leb_le; lia).
    reflexivity.
  - discriminate.
  - lia.
Defined.

Lemma processDocument_sizes_recorded_witness :
  Forall (sizeRecorded (getImageSize Bitmap decode cols rows))
    [enhanceImageOk {| imageBuffer := [137; 2; 1; 7; 9]%N; width := 2;
                       height := 1; pageNumber := 1 |}].
Proof.
  apply (processDocument_sizes_recorded Bitmap decode encodePng cols rows
           keep keep keep keep resizeTo threePages pageFile unlinkOk
           10 pngDocument).
  reflexivity.
Defined.

Lemma validated_file_passes_gate_witness :
  (Service.fileSize pngUpload <= 10485760)%Z
  /\ In (Service.mimeType pngUpload) Service.ALLOWED_TYPES
  /\ forall mime,
       processDocumentOk 10 (Service.documentOf pngUpload)
       <> Some (inl (PreprocessingFailed (UnsupportedFileType mime))).
Proof.
  apply (validated_file_passes_gate Bitmap decode encodePng cols rows
           keep keep keep keep resizeTo threePages pageFile unlinkOk
           10 pngUpload).
  reflexivity.
Defined.

(** The gate is wider than the check: a GIF is refused by [validateFile]
    and accepted by the Preprocessor. *)
Example gif_refused_by_service_only :
  Service.validateFile
    {| Service.fileName := "scan.gif"%string;
       Service.fileBuffer := [137; 2; 1; 7; 9]%N;
       Service.fileSize := 5;
       Service.mimeType := "image/gif"%string |}
  = Some (Service.TypeNotSupported "image/gif"%string)
  /\ exists images,
       processDocumentOk 10
         {| fileName := "scan.gif"%string;
            fileBuffer := [137; 2; 1; 7; 9]%N;
            mimeType := "image/gif"%string |}
       = Some (inr images).
Proof. split; [reflexivity | eexists; reflexivity]. Qed.

End PreprocessorMore.

(* ===================================================================== *)
(** ** LocalStorageManager: storing, updating and removing entries *)
(* ===================================================================== *)

Module StorageFacts.
Import Js Storage StorageNotions BrandFacts RecordFacts.

Lemma streq_neq a b : a <> b -> streq a b = false.
Proof.
  intros H. destruct (streq a b) eqn:E; [|reflexivity].
  apply streq_eq in E. contradiction.
Qed.

Section WithQuota.

Variable filesFit : list UploadedFileInfo -> bool.
Variable formsFit : list StoredFormData -> bool.

Lemma filter_other_ids (d : StoredFormData) (i : str) l :
  i <> formId d ->
  filter (hasFormId i)
    (filter (fun f => negb (streq (formId f) (formId d))) l ++ [d])
  = filter (hasFormId i) l.
Proof.
  intros Hne. rewrite filter_app. cbn [filter]. unfold hasFormId at 2.
  rewrite (streq_neq (formId d) i) by congruence. rewrite app_nil_r.
  induction l as [|f l IH]; [reflexivity|].
  cbn [filter]. destruct (streq (formId f) (formId d)) eqn:E; cbn [negb].
  - apply streq_eq in E. unfold hasFormId at 2.
    rewrite (streq_neq (formId f) i) by congruence. exact IH.
  - cbn [filter]. now rewrite IH.
Qed.

Lemma filter_same_id (d : StoredFormData) l :
  filter (hasFormId (formId d))
    (filter (fun f => negb (streq (formId f) (formId d))) l)
  = [].
Proof.
  induction l as [|f l IH]; [reflexivity|].
  cbn [filter]. destruct (streq (formId f) (formId d)) eqn:E; cbn [negb];
    [exact IH|].
  cbn [filter]. unfold hasFormId at 1. now rewrite E.
Qed.

Lemma NoDup_map_filter (p : StoredFormData -> bool) l :
  NoDup (map formId l) -> NoDup (map formId (filter p l)).
Proof.
  induction l as [|f l IH]; intros H; [constructor|].
  cbn [map] in H. apply NoDup_cons_iff in H as [Hn H].
  cbn [filter]. destruct (p f); [|now apply IH].
  cbn [map]. constructor; [|now apply IH].
  intros Hin. apply Hn. apply in_map_iff in Hin as (g & Hg & Hin).
  apply filter_In in Hin as [Hin _]. apply in_map_iff. eauto.
Qed.

Lemma filter_none_with_id (i : str) (l : list StoredFormData) :
  filter (hasFormId i) l = [] ->
  filter (fun f => negb (hasFormId i f)) l = l.
Proof.
  induction l as [|f l IH]; [reflexivity|].
  cbn [filter]. destruct (hasFormId i f); cbn [negb]; [discriminate|].
  intros H. now rewrite IH.
Qed.

(** X26. Storing a form and reading the forms back: the list read is the
    old list without the entries that have the form's identifier, in its
    old order, followed by the stored form.  So the stored form is the last
    entry and the only one with its identifier (an older entry with the
    same identifier is replaced, not duplicated, and the form moves to the
    end), the entries with other identifiers are the ones that were there,
    and identifiers that were distinct stay distinct; when the identifier
    is new the form is appended to the old list. *)
Theorem storeExtractedForm_then_get (d : StoredFormData) (st : Store) :
  available st = true ->
  formsFit (filter (fun f => negb (streq (formId f) (formId d)))
              (getExtractedForms st) ++ [d]) = true ->
  let after := getExtractedForms (storeExtractedForm formsFit d st) in
  after
  = filter (fun f => negb (hasFormId (formId d) f)) (getExtractedForms st)
    ++ [d]
  /\ (filter (hasFormId (formId d)) (getExtractedForms st) = [] ->
      after = getExtractedForms st ++ [d])
  /\ last after d = d
  /\ filter (hasFormId (formId d)) after = [d]
  /\ (forall i, i <> formId d ->
        filter (hasFormId i) after
        = filter (hasFormId i) (getExtractedForms st))
  /\ (NoDup (map formId (getExtractedForms st)) ->
      NoDup (map formId after)).
Proof.
  intros Hav Hfit. cbv zeta.
  set (old := getExtractedForms st) in *.
  assert (Hget : getExtractedForms (storeExtractedForm formsFit d st)
                 = filter (fun f => negb (streq (formId f) (formId d))) old
                   ++ [d]).
  { unfold storeExtractedForm. rewrite Hav. fold old. rewrite Hfit.
    unfold getExtractedForms. cbn [available setForms extractedFormsKey].
    now rewrite Hav. }
  rewrite Hget. repeat split.
  - intros Hnew. f_equal. now apply filter_none_with_id.
  - apply last_last.
  - rewrite filter_app, filter_same_id. cbn [filter app].
    unfold hasFormId. now rewrite streq_refl.
  - intros i Hi. now apply filter_other_ids.
  - intros Hnd. rewrite map_app. cbn [map]. apply NoDup_app.
    + now apply NoDup_map_filter.
    + constructor; [intros [] | constructor].
    + intros a Ha [<- | []].
      apply in_map_iff in Ha as (g & Hg & Hin).
      apply filter_In in Hin as [_ Hin].
      rewrite Hg, streq_refl in Hin. discriminate Hin.
Qed.

(** X27. Removing a form: the list read afterwards is the old list
    without the entries that have the identifier, in its old order - when
    one entry has the identifier, the entries before it followed by the
    entries after it.  So afterwards no entry has the identifier, the
    entries with other identifiers are untouched, and removing an
    identifier that is not stored changes nothing that can be read. *)
Theorem removeExtractedForm_then_get (i : str) (st : Store) :
  available st = true ->
  formsFit (filter (fun f => negb (streq (formId f) i))
              (getExtractedForms st)) = true ->
  let after := getExtractedForms (removeExtractedForm formsFit i st) in
  after = filter (fun f => negb (hasFormId i f)) (getExtractedForms st)
  /\ (forall before e rest,
        getExtractedForms st = before ++ e :: rest ->
        formId e = i ->
        filter (hasFormId i) before = [] ->
        filter (hasFormId i) rest = [] ->
        after = before ++ rest)
  /\ filter (hasFormId i) after = []
  /\ (forall j, j <> i ->
        filter (hasFormId j) after
        = filter (hasFormId j) (getExtractedForms st))
  /\ (filter (hasFormId i) (getExtractedForms st) = [] ->
      after = getExtractedForms st).
Proof.
  intros Hav Hfit. cbv zeta.
  set (old := getExtractedForms st) in *.
  assert (Hget : getExtractedForms (removeExtractedForm formsFit i st)
                 = filter (fun f => negb (streq (formId f) i)) old).
  { unfold removeExtractedForm. rewrite Hav. fold old. rewrite Hfit.
    unfold getExtractedForms. cbn [available setForms extractedFormsKey].
    now rewrite Hav. }
  rewrite Hget. clear Hget Hfit. repeat split.
  - intros before e rest Hold He Hb Hr. rewrite Hold, filter_app.
    cbn [filter]. rewrite He, streq_refl. cbn [negb].
    f_equal; now apply filter_none_with_id.
  - induction old as [|f l IH]; [reflexivity|].
    cbn [filter]. destruct (streq (formId f) i) eqn:E; cbn [negb]; [exact IH|].
    cbn [filter]. unfold hasFormId at 1. now rewrite E.
  - intros j Hj. induction old as [|f l IH]; [reflexivity|].
    cbn [filter]. destruct (streq (formId f) i) eqn:E; cbn [negb].
    + apply streq_eq in E. unfold hasFormId at 2.
      rewrite (streq_neq (formId f) j) by congruence. exact IH.
    + cbn [filter]. now rewrite IH.
  - induction old as [|f l IH]; [reflexivity|].
    cbn [filter]. unfold hasFormId at 1.
    destruct (streq (formId f) i) eqn:E; cbn [negb]; [discriminate|].
    intros H. now rewrite IH.
Qed.

Lemma replaceFirst_none {A : Type} (p : A -> bool) (f : A -> A) l :
  forallb (fun a => negb (p a)) l = true -> replaceFirst p f l = None.
Proof.
  induction l as [|a l IH]; [reflexivity|].
  cbn [forallb replaceFirst]. intros H.
  apply andb_true_iff in H as [Ha H]. apply negb_true_iff in Ha.
  now rewrite Ha, IH.
Qed.

Lemma replaceFirst_found {A : Type} (p : A -> bool) (f : A -> A)
    before e after :
  forallb (fun a => negb (p a)) before = true -> p e = true ->
  replaceFirst p f (before ++ e :: after) = Some (before ++ f e :: after).
Proof.
  intros Hb He. induction before as [|a l IH]; cbn [app replaceFirst].
  - now rewrite He.
  - cbn [forallb] in Hb. apply andb_true_iff in Hb as [Ha Hb].
    apply negb_true_iff in Ha. now rewrite Ha, (IH Hb).
Qed.

(** X28. Updating an uploaded file: when no stored file has the identifier
    the storage is left exactly as it was; otherwise the first file with
    the identifier, and only it, is replaced in place by its merge with the
    updates, and the number and order of the files do not change. *)
Theorem updateUploadedFile_in_place
    (fileId : str) (updates : FileUpdates) (st : Store) :
  available st = true ->
  (forallb (fun f => negb (streq (id f) fileId)) (getUploadedFiles st) = true ->
   updateUploadedFile filesFit fileId updates st = st)
  /\ (forall before e after,
        getUploadedFiles st = before ++ e :: after ->
        forallb (fun f => negb (streq (id f) fileId)) before = true ->
        id e = fileId ->
        filesFit (before ++ mergeFile e updates :: after) = true ->
        getUploadedFiles (updateUploadedFile filesFit fileId updates st)
        = before ++ mergeFile e updates :: after).
Proof.
  intros Hav. split.
  - intros Hnone. unfold updateUploadedFile.
    now rewrite Hav, replaceFirst_none.
  - intros before e after Hold Hb He Hfit. unfold updateUploadedFile.
    rewrite Hav, Hold.
    rewrite replaceFirst_found; [| exact Hb | rewrite He; apply streq_refl].
    rewrite Hfit. unfold getUploadedFiles.
    cbn [available setFiles uploadedFiles]. now rewrite Hav.
Qed.

(** X29. Without a usable [localStorage] (on the server, or when the test
    write fails) the manager does nothing: both readers return the empty
    list and every writer leaves the storage untouched.  With it,
    [clearAllData] empties both lists. *)
Theorem storage_unavailable_or_cleared (st : Store)
    (file : UploadedFileInfo) (form : StoredFormData)
    (i : str) (fileUpdates : FileUpdates) (formUpdates : FormUpdates) :
  (available st = false ->
   getUploadedFiles st = []
   /\ getExtractedForms st = []
   /\ storeUploadedFile filesFit file st = st
   /\ updateUploadedFile filesFit i fileUpdates st = st
   /\ storeExtractedForm formsFit form st = st
   /\ updateExtractedForm formsFit i formUpdates st = st
   /\ removeExtractedForm formsFit i st = st
   /\ clearAllData st = st)
  /\ (available st = true ->
      getUploadedFiles (clearAllData st) = []
      /\ getExtractedForms (clearAllData st) = []).
Proof.
  split; intros Hav.
  - unfold getUploadedFiles, getExtractedForms, storeUploadedFile,
      updateUploadedFile, storeExtractedForm, updateExtractedForm,
      removeExtractedForm, clearAllData.
    rewrite Hav. repeat split.
  - unfold clearAllData. rewrite Hav. split; reflexivity.
Qed.

End WithQuota.

Lemma storeExtractedForm_then_get_witness :
  let after :=
    getExtractedForms
      (storeExtractedForm always (sampleForm "f1"%string 7) sampleStore) in
  after = [sampleForm "f2"%string 2; sampleForm "f1"%string 7]
  /\ (filter (hasFormId "f1"%string) (getExtractedForms sampleStore) = [] ->
      after = getExtractedForms sampleStore ++ [sampleForm "f1"%string 7])
  /\ last after (sampleForm "f1"%string 7) = sampleForm "f1"%string 7
  /\ filter (hasFormId "f1"%string) after = [sampleForm "f1"%string 7]
  /\ (forall i, i <> Js.lit "f1" ->
        filter (hasFormId i) after
        = filter (hasFormId i) (getExtractedForms sampleStore))
  /\ (NoDup (map formId (getExtractedForms sampleStore)) ->
      NoDup (map formId after)).
Proof.
  apply (storeExtractedForm_then_get always (sampleForm "f1"%string 7)
           sampleStore); reflexivity.
Defined.

Lemma removeExtractedForm_then_get_witness :
  let after :=
    getExtractedForms (removeExtractedForm always "f1"%string sampleStore) in
  after = [sampleForm "f2"%string 2]
  /\ (forall before e rest,
        getExtractedForms sampleStore = before ++ e :: rest ->
        formId e = Js.lit "f1" ->
        filter (hasFormId "f1"%string) before = [] ->
        filter (hasFormId "f1"%string) rest = [] ->
        after = before ++ rest)
  /\ filter (hasFormId "f1"%string) after = []
  /\ (forall j, j <> Js.lit "f1" ->
        filter (hasFormId j) after
        = filter (hasFormId j) (getExtractedForms sampleStore))
  /\ (filter (hasFormId "f1"%string) (getExtractedForms sampleStore) = [] ->
      after = getExtractedForms sampleStore).
Proof.
  apply (removeExtractedForm_then_get always "f1"%string sampleStore);
    reflexivity.
Defined.

Lemma updateUploadedFile_in_place_witness :
  updateUploadedFile always "zz"%string (statusUpdate completed 100)
    sampleStore = sampleStore
  /\ getUploadedFiles
       (updateUploadedFile always "b"%string (statusUpdate completed 100)
          sampleStore)
     = [sampleFile "a"%string pending]
         ++ mergeFile (sampleFile "b"%string processing)
              (statusUpdate completed 100) :: [].
Proof.
  split.
  - apply (proj1 (updateUploadedFile_in_place always "zz"%string
                    (statusUpdate completed 100) sampleStore eq_refl)).
    reflexivity.
  - apply (proj2 (updateUploadedFile_in_place always "b"%string
                    (statusUpdate completed 100) sampleStore eq_refl));
      reflexivity.
Defined.

Lemma storage_unavailable_or_cleared_witness :
  getUploadedFiles (clearAllData sampleStore) = []
  /\ getExtractedForms (clearAllData sampleStore) = [].
Proof.
  apply (proj2 (storage_unavailable_or_cleared always always sampleStore
                  (sampleFile "a"%string pending) (sampleForm "f1"%string 1)
                  "a"%string (statusUpdate completed 100)
                  {| newFormId := None; newFileName := None;
                     newFormNumber := None; newConfidence := None;
                     newFormStatus := None; newFields := None;
                     newIssues := None; newFormUploadedAt := None;
                     newExtractedAt := None; newFileSize := None |})).
  reflexivity.
Defined.

End StorageFacts.

